(** * Simplified_Router: the ARP network interface and the longest-prefix router

    A shallow embedding of [network_interface.cc] / [network_interface.hh]
    (the ARP cache, the waiting queue and the retry logic) and of [router.cc]
    (route insertion, longest-prefix lookup and TTL handling), followed by
    the properties of these functions.

    Conventions.
    - [size_t] is the 64-bit unsigned type: values are [Z] in [0, 2^64) and
      [+], [-] wrap modulo [2^64] ([size_add], [size_sub]).
    - [uint32_t], [uint16_t], [uint8_t] values are [Z] in their range.
    - [std::queue] is a [list] whose head is the front; [push] appends at
      the end.
    - [std::map] is a [gmap]; [m[k]] is [subscript], which default-inserts.
    - [curr_time] is the file-scope global of [network_interface.cc]; it is
      threaded explicitly through every function that reads or writes it. *)

From Stdlib Require Import ZArith List Bool Lia.
From stdpp Require Import base numbers option list gmap.
Import ListNotations.
Local Open Scope Z_scope.

(** ** Machine integers *)

Definition SIZE_MAX : Z := 2 ^ 64 - 1.

Definition size_add (a b : Z) : Z := (a + b) mod 2 ^ 64.
Definition size_sub (a b : Z) : Z := (a - b) mod 2 ^ 64.

Definition INT_MIN : Z := - 2 ^ 31.

(** Conversion of a value to [int] (two's complement, 32 bits). *)
Definition to_int (z : Z) : Z := (z + 2 ^ 31) mod 2 ^ 32 - 2 ^ 31.

(** Conversion of a value to [uint32_t]. *)
Definition to_uint32 (z : Z) : Z := z mod 2 ^ 32.

(** Conversion of a value to [uint8_t]. *)
Definition to_uint8 (z : Z) : Z := z mod 2 ^ 8.

(** ** Wire types

    The headers [ethernet_header.hh], [arp_message.hh], [ipv4_header.hh]
    and [ipv4_datagram.hh] are collaborators of the two components and are
    not part of the sources at hand; the records below carry the fields
    that the code of the components reads or writes, under the names it
    uses for them. *)

(** Modelled from the spec: the link address, a fixed-width hardware
    address ([EthernetAddress] of [ethernet_header.hh], six bytes), held
    here as one 48-bit number. *)
Definition EthernetAddress : Type := Z.

(** Modelled from the spec: the distinguished broadcast link address
    ([ETHERNET_BROADCAST] of [ethernet_header.hh], all six bytes [0xff]). *)
Definition ETHERNET_BROADCAST : EthernetAddress := 0xffffffffffff.

(** Modelled from the spec: the value-initialised link address that the
    code writes as [{}] (all six bytes zero). *)
Definition ETHERNET_ZERO : EthernetAddress := 0.

(** Modelled from the spec: the IPv4 payload type of a frame
    ([EthernetHeader::TYPE_IPv4]), with its EtherType value. *)
Definition TYPE_IPv4 : Z := 0x800.

(** Modelled from the spec: the ARP payload type of a frame
    ([EthernetHeader::TYPE_ARP]), with its EtherType value. *)
Definition TYPE_ARP : Z := 0x806.

(** Modelled from the spec: the opcode of an ARP request
    ([ARPMessage::OPCODE_REQUEST]). *)
Definition OPCODE_REQUEST : Z := 1.

(** Modelled from the spec: the opcode of an ARP reply
    ([ARPMessage::OPCODE_REPLY]). *)
Definition OPCODE_REPLY : Z := 2.

(** A payload is a [vector<Buffer>]; a buffer is a sequence of bytes. *)
Definition Buffer : Type := list Z.

(** Modelled from the spec: the header of a link frame ([EthernetHeader]):
    the fields [dst], [src] and [type] that the interface reads and
    writes. *)
Record EthernetHeader : Type := {
  dst : EthernetAddress;
  src : EthernetAddress;
  type : Z
}.

(** Modelled from the spec: a link frame ([EthernetFrame]). *)
Record EthernetFrame : Type := {
  header : EthernetHeader;
  payload : list Buffer
}.

(** Modelled from the spec: an ARP message ([ARPMessage]), with the five
    fields that [make_arp_message] sets and [recv_frame] reads. *)
Record ARPMessage : Type := {
  opcode : Z;
  sender_ethernet_address : EthernetAddress;
  sender_ip_address : Z;
  target_ethernet_address : EthernetAddress;
  target_ip_address : Z
}.

(** Modelled from the spec: the IPv4 header ([IPv4Header]): the TTL and the
    destination that the router reads, the checksum that it recomputes, and
    the source.  The source writes [header.src] and [header.dst]; these
    names belong to [EthernetHeader] here, hence [ip_src] and [ip_dst]. *)
Record IPv4Header : Type := {
  ttl : Z;
  cksum : Z;
  ip_src : Z;
  ip_dst : Z
}.

(** Modelled from the spec: an IP datagram ([InternetDatagram]); its fields
    [header] and [payload] are [ip_header] and [ip_payload] here. *)
Record InternetDatagram : Type := {
  ip_header : IPv4Header;
  ip_payload : list Buffer
}.

(** Modelled from the spec: the external collaborators, taken as an
    interface: the codecs [serialize] and [parse] of datagrams and ARP
    messages, and [IPv4Header::compute_checksum].  Every result below
    holds for every implementation of it. *)
Class Codec : Type := {
  serialize_dgram : InternetDatagram -> list Buffer;
  serialize_arp : ARPMessage -> list Buffer;
  parse_dgram : list Buffer -> option InternetDatagram;
  parse_arp : list Buffer -> option ARPMessage;
  compute_checksum : IPv4Header -> IPv4Header
}.

(** ** Network interface state *)

Definition MAX_CACHE_TIME : Z := 30000.
Definition MAX_WAITING_TIME : Z := 5000.

Record Ether_Addr_Entry : Type := {
  MAC_addr : EthernetAddress;
  caching_time : Z
}.

Record Waiting_Packet : Type := {
  dst_ip : Z;
  waiting_frame : EthernetFrame;
  time : Z
}.

Record NetworkInterface : Type := {
  ethernet_address_ : EthernetAddress;
  ip_address_ : Z;
  ARP_table : gmap Z Ether_Addr_Entry;
  ready2_sent_q : list EthernetFrame;
  waiting_q : list Waiting_Packet;
  request_history : gmap Z Z
}.

(** The constructor: empty tables and queues. *)
Definition new_interface (ethernet_address : EthernetAddress) (ip_address : Z)
  : NetworkInterface :=
  {| ethernet_address_ := ethernet_address;
     ip_address_ := ip_address;
     ARP_table := ∅;
     ready2_sent_q := [];
     waiting_q := [];
     request_history := ∅ |}.

(** [m[k]] on a [std::map<uint32_t, size_t>]: the stored value, or a
    default-inserted [0]. *)
Definition subscript (m : gmap Z Z) (k : Z) : Z * gmap Z Z :=
  match m !! k with
  | Some v => (v, m)
  | None => (0, <[k := 0]> m)
  end.

Definition make_arp_message (sender_ethernet_address : EthernetAddress)
    (sender_ip_address : Z) (target_ethernet_address : EthernetAddress)
    (target_ip_address : Z) (opcode : Z) : ARPMessage :=
  {| opcode := opcode;
     sender_ethernet_address := sender_ethernet_address;
     sender_ip_address := sender_ip_address;
     target_ethernet_address := target_ethernet_address;
     target_ip_address := target_ip_address |}.

Definition make_ethernet_frame (dst src : EthernetAddress) (type : Z)
    (payload : list Buffer) : EthernetFrame :=
  {| header := {| dst := dst; src := src; type := type |};
     payload := payload |}.

Definition set_ARP_table (t : gmap Z Ether_Addr_Entry) (ni : NetworkInterface)
  : NetworkInterface :=
  {| ethernet_address_ := ethernet_address_ ni;
     ip_address_ := ip_address_ ni;
     ARP_table := t;
     ready2_sent_q := ready2_sent_q ni;
     waiting_q := waiting_q ni;
     request_history := request_history ni |}.

Definition set_ready2_sent_q (q : list EthernetFrame) (ni : NetworkInterface)
  : NetworkInterface :=
  {| ethernet_address_ := ethernet_address_ ni;
     ip_address_ := ip_address_ ni;
     ARP_table := ARP_table ni;
     ready2_sent_q := q;
     waiting_q := waiting_q ni;
     request_history := request_history ni |}.

Definition set_waiting_q (q : list Waiting_Packet) (ni : NetworkInterface)
  : NetworkInterface :=
  {| ethernet_address_ := ethernet_address_ ni;
     ip_address_ := ip_address_ ni;
     ARP_table := ARP_table ni;
     ready2_sent_q := ready2_sent_q ni;
     waiting_q := q;
     request_history := request_history ni |}.

Definition set_request_history (h : gmap Z Z) (ni : NetworkInterface)
  : NetworkInterface :=
  {| ethernet_address_ := ethernet_address_ ni;
     ip_address_ := ip_address_ ni;
     ARP_table := ARP_table ni;
     ready2_sent_q := ready2_sent_q ni;
     waiting_q := waiting_q ni;
     request_history := h |}.

Definition set_dst (a : EthernetAddress) (f : EthernetFrame) : EthernetFrame :=
  {| header := {| dst := a; src := src (header f); type := type (header f) |};
     payload := payload f |}.

Section NetworkInterfaceCode.
Context `{Codec}.

(** The broadcast ARP request that [send_datagram] builds for [next_hop_ip]. *)
Definition ARP_request_frame (ni : NetworkInterface) (next_hop_ip : Z)
  : EthernetFrame :=
  make_ethernet_frame ETHERNET_BROADCAST (ethernet_address_ ni) TYPE_ARP
    (serialize_arp
       (make_arp_message (ethernet_address_ ni) (ip_address_ ni)
          ETHERNET_ZERO next_hop_ip OPCODE_REQUEST)).

(** The datagram frame with a still unknown destination. *)
Definition ether_frame_no_MAC (ni : NetworkInterface) (dgram : InternetDatagram)
  : EthernetFrame :=
  make_ethernet_frame ETHERNET_ZERO (ethernet_address_ ni) TYPE_IPv4
    (serialize_dgram dgram).

(** [NetworkInterface::send_datagram]. *)
Definition send_datagram (curr_time : Z) (dgram : InternetDatagram)
    (next_hop_ip : Z) (ni : NetworkInterface) : NetworkInterface :=
  match ARP_table ni !! next_hop_ip with
  | Some target =>
      let ether_frame :=
        make_ethernet_frame (MAC_addr target) (ethernet_address_ ni)
          TYPE_IPv4 (serialize_dgram dgram) in
      set_ready2_sent_q (ready2_sent_q ni ++ [ether_frame]) ni
  | None =>
      let ni1 :=
        match request_history ni !! next_hop_ip with
        | None =>
            set_ready2_sent_q
              (ready2_sent_q ni ++ [ARP_request_frame ni next_hop_ip])
              (set_request_history
                 (<[next_hop_ip := curr_time]> (request_history ni)) ni)
        | Some sent_at =>
            if size_sub curr_time sent_at <? MAX_WAITING_TIME then
              set_waiting_q
                (waiting_q ni ++
                   [ {| dst_ip := next_hop_ip;
                        waiting_frame := ARP_request_frame ni next_hop_ip;
                        time := SIZE_MAX |} ]) ni
            else
              set_ready2_sent_q
                (ready2_sent_q ni ++ [ARP_request_frame ni next_hop_ip])
                (set_request_history
                   (<[next_hop_ip := curr_time]> (request_history ni)) ni)
        end in
      set_waiting_q
        (waiting_q ni1 ++
           [ {| dst_ip := next_hop_ip;
                waiting_frame := ether_frame_no_MAC ni dgram;
                time := curr_time |} ]) ni1
  end.

(** The loop of [recv_frame] that empties [waiting_q] after an ARP reply:
    the state is [(ready2_sent_q, temp_q)]. *)
Fixpoint flush_waiting (sender_ip : Z) (sender_mac_addr : EthernetAddress)
    (q : list Waiting_Packet)
    (st : list EthernetFrame * list Waiting_Packet)
  : list EthernetFrame * list Waiting_Packet :=
  match q with
  | [] => st
  | curr_first :: q' =>
      let first_frame_type := type (header (waiting_frame curr_first)) in
      let st' :=
        if negb (sender_ip =? dst_ip curr_first) then
          (st.1, st.2 ++ [curr_first])
        else if (sender_ip =? dst_ip curr_first)
                && (first_frame_type =? TYPE_IPv4) then
          (st.1 ++ [set_dst sender_mac_addr (waiting_frame curr_first)], st.2)
        else st in
      flush_waiting sender_ip sender_mac_addr q' st'
  end.

(** [NetworkInterface::recv_frame]. *)
Definition recv_frame (curr_time : Z) (frame : EthernetFrame)
    (ni : NetworkInterface) : NetworkInterface * option InternetDatagram :=
  let h := header frame in
  if (dst h =? ethernet_address_ ni) && (type h =? TYPE_IPv4) then
    (ni, parse_dgram (payload frame))
  else if ((dst h =? ethernet_address_ ni) && (type h =? TYPE_ARP))
          || ((dst h =? ETHERNET_BROADCAST) && (type h =? TYPE_ARP)) then
    match parse_arp (payload frame) with
    | None => (ni, None)
    | Some arp_message =>
        let sender_ip := sender_ip_address arp_message in
        let sender_mac_addr := sender_ethernet_address arp_message in
        let ni1 :=
          set_ARP_table
            (<[sender_ip := {| MAC_addr := sender_mac_addr;
                               caching_time := curr_time |}]> (ARP_table ni))
            ni in
        if (opcode arp_message =? OPCODE_REQUEST)
           && (ip_address_ ni =? target_ip_address arp_message) then
          let ARP_reply_frame :=
            make_ethernet_frame sender_mac_addr (ethernet_address_ ni)
              TYPE_ARP
              (serialize_arp
                 (make_arp_message (ethernet_address_ ni) (ip_address_ ni)
                    sender_mac_addr sender_ip OPCODE_REPLY)) in
          (set_ready2_sent_q (ready2_sent_q ni1 ++ [ARP_reply_frame]) ni1,
           None)
        else if (opcode arp_message =? OPCODE_REPLY)
                && (ip_address_ ni =? target_ip_address arp_message) then
          let '(ready, temp_q) :=
            flush_waiting sender_ip sender_mac_addr (waiting_q ni1)
              (ready2_sent_q ni1, []) in
          (set_waiting_q temp_q (set_ready2_sent_q ready ni1), None)
        else (ni1, None)
    end
  else (ni, None).

(** The first loop of [tick]: the keys of the entries learnt more than
    [MAX_CACHE_TIME] ago. *)
Definition expired_ip (curr_time : Z) (t : gmap Z Ether_Addr_Entry) : list Z :=
  (map_to_list
     (filter (λ kv, MAX_CACHE_TIME < size_sub curr_time (caching_time kv.2)) t)).*1.

(** The second loop of [tick]: erase every collected key. *)
Definition erase_all (ks : list Z) (t : gmap Z Ether_Addr_Entry)
  : gmap Z Ether_Addr_Entry :=
  foldl (λ m k, delete k m) t ks.

(** The third loop of [tick], over [waiting_q]: the state is
    [(request_history, ready2_sent_q, temp_q)]. *)
Fixpoint tick_waiting (curr_time : Z) (q : list Waiting_Packet)
    (st : gmap Z Z * list EthernetFrame * list Waiting_Packet)
  : gmap Z Z * list EthernetFrame * list Waiting_Packet :=
  match q with
  | [] => st
  | curr_first :: q' =>
      let '(hist, ready, temp_q) := st in
      let first_frame_type := type (header (waiting_frame curr_first)) in
      let first_ip := dst_ip curr_first in
      let '(ARP_caching_time, hist1) := subscript hist first_ip in
      let st' :=
        if (MAX_WAITING_TIME <=? size_sub curr_time ARP_caching_time)
           && (first_frame_type =? TYPE_ARP)
           && (dst (header (waiting_frame curr_first)) =? ETHERNET_BROADCAST)
        then
          (<[first_ip := curr_time]> hist1,
           ready ++ [waiting_frame curr_first], temp_q)
        else if (first_frame_type =? TYPE_IPv4)
                || (size_sub curr_time (time curr_first) <? MAX_WAITING_TIME)
        then (hist1, ready, temp_q ++ [curr_first])
        else (hist1, ready, temp_q) in
      tick_waiting curr_time q' st'
  end.

(** [NetworkInterface::tick]: takes and returns the global [curr_time]. *)
Definition tick (ms_since_last_tick : Z) (curr_time : Z)
    (ni : NetworkInterface) : Z * NetworkInterface :=
  let curr_time' := size_add curr_time ms_since_last_tick in
  let table := erase_all (expired_ip curr_time' (ARP_table ni)) (ARP_table ni) in
  let '(hist, ready, temp_q) :=
    tick_waiting curr_time' (waiting_q ni)
      (request_history ni, ready2_sent_q ni, []) in
  (curr_time',
   {| ethernet_address_ := ethernet_address_ ni;
      ip_address_ := ip_address_ ni;
      ARP_table := table;
      ready2_sent_q := ready;
      waiting_q := temp_q;
      request_history := hist |}).

(** [NetworkInterface::maybe_send]. *)
Definition maybe_send (ni : NetworkInterface)
  : NetworkInterface * option EthernetFrame :=
  match ready2_sent_q ni with
  | first_frame :: rest => (set_ready2_sent_q rest ni, Some first_frame)
  | [] => (ni, None)
  end.

End NetworkInterfaceCode.

(** ** Router state *)

(** Modelled from the spec: the routing-table entry ([RoutingTableElement]
    of [router.hh]): the four values that [add_route] hands to its
    constructor, under the member names that [route_single_dgram] reads.
    [next_hop_] holds the numeric form of the optional [Address]. *)
Record RoutingTableElement : Type := {
  route_prefix_ : Z;
  prefix_length_ : Z;
  next_hop_ : option Z;
  interface_num_ : nat
}.

(** Modelled from the spec: the router ([Router] of [router.hh]) owns its
    interfaces and the routing table.  The interfaces are held with the
    state of [NetworkInterface], whose [send_datagram] is what
    [route_single_dgram] calls. *)
Record Router : Type := {
  interfaces_ : list NetworkInterface;
  routing_table_ : list RoutingTableElement
}.

(** [Router::add_route]: [push_back] of the new element, nothing else. *)
Definition add_route (route_prefix : Z) (prefix_length : Z)
    (next_hop : option Z) (interface_num : nat) (r : Router) : Router :=
  let r_element :=
    {| route_prefix_ := route_prefix;
       prefix_length_ := prefix_length;
       next_hop_ := next_hop;
       interface_num_ := interface_num |} in
  {| interfaces_ := interfaces_ r;
     routing_table_ := routing_table_ r ++ [r_element] |}.

(** The mask computed inside the lookup loop:
    [numeric_limits<int>::min() >> (prefix_length_ - 1)], stored in a
    [uint32_t], when the length is in [1..32], and [0] otherwise. *)
Definition bitmask_of (prefix_length : Z) : Z :=
  if (0 <? prefix_length) && (prefix_length <=? 32)
  then to_uint32 (Z.shiftr INT_MIN (prefix_length - 1))
  else 0.

(** The lookup loop of [route_single_dgram]: [i] is the loop counter, the
    state is [(target_index, longest_prefix_len)], both of type [int]. *)
Fixpoint find_route (dest : Z) (table : list RoutingTableElement) (i : Z)
    (st : Z * Z) : Z * Z :=
  match table with
  | [] => st
  | e :: rest =>
      let bitmask := bitmask_of (prefix_length_ e) in
      let target_prefix := Z.land bitmask dest in
      let st' :=
        if (target_prefix =? route_prefix_ e) && (st.2 <=? prefix_length_ e)
        then (to_int i, prefix_length_ e)
        else st in
      find_route dest rest (i + 1) st'
  end.

(** The value of [target_index] after the loop; [-1] means no route. *)
Definition lookup_route (dest : Z) (table : list RoutingTableElement) : Z :=
  (find_route dest table 0 (-1, -1)).1.

Definition set_ttl (t : Z) (dgram : InternetDatagram) : InternetDatagram :=
  {| ip_header :=
       {| ttl := t;
          cksum := cksum (ip_header dgram);
          ip_src := ip_src (ip_header dgram);
          ip_dst := ip_dst (ip_header dgram) |};
     ip_payload := ip_payload dgram |}.

Section RouterCode.
Context `{Codec}.

Definition recompute_checksum (dgram : InternetDatagram) : InternetDatagram :=
  {| ip_header := compute_checksum (ip_header dgram);
     ip_payload := ip_payload dgram |}.

(** [Router::route_single_dgram].  The datagram is passed by reference, so
    its final value is returned with the router.  [None] stands for an
    out-of-range subscript of [routing_table_] or [interfaces_], which the
    source does not define. *)
Definition route_single_dgram (curr_time : Z) (dgram : InternetDatagram)
    (r : Router) : option (Router * InternetDatagram) :=
  if ttl (ip_header dgram) <=? 0 then Some (r, dgram)
  else
    let dest := ip_dst (ip_header dgram) in
    let target_index := lookup_route dest (routing_table_ r) in
    if target_index =? -1 then Some (r, dgram)
    else
      let dgram1 := set_ttl (to_uint8 (ttl (ip_header dgram) - 1)) dgram in
      if ttl (ip_header dgram1) <=? 0 then Some (r, dgram1)
      else
        let dgram2 := recompute_checksum dgram1 in
        match routing_table_ r !! Z.to_nat (target_index mod 2 ^ 64) with
        | None => None
        | Some e =>
            let target_interface := interface_num_ e in
            let hop := match next_hop_ e with
                       | Some a => a
                       | None => dest
                       end in
            match interfaces_ r !! target_interface with
            | None => None
            | Some ni =>
                Some ({| interfaces_ :=
                           <[target_interface :=
                               send_datagram curr_time dgram2 hop ni]>
                             (interfaces_ r);
                         routing_table_ := routing_table_ r |},
                      dgram2)
            end
        end.

End RouterCode.

(** ** Several interfaces under the one global clock

    [curr_time] is a single variable of the translation unit: every
    [NetworkInterface] object reads it, and every [tick] on any object
    advances it. *)
Record World : Type := {
  curr_time : Z;
  objects : list NetworkInterface
}.

Section WorldCode.
Context `{Codec}.

Definition world_tick (i : nat) (ms : Z) (w : World) : World :=
  match objects w !! i with
  | None => w
  | Some ni =>
      let '(now, ni') := tick ms (curr_time w) ni in
      {| curr_time := now; objects := <[i := ni']> (objects w) |}
  end.

Definition world_send (i : nat) (dgram : InternetDatagram) (next_hop_ip : Z)
    (w : World) : World :=
  match objects w !! i with
  | None => w
  | Some ni =>
      {| curr_time := curr_time w;
         objects :=
           <[i := send_datagram (curr_time w) dgram next_hop_ip ni]> (objects w) |}
  end.

Definition world_recv (i : nat) (frame : EthernetFrame) (w : World) : World :=
  match objects w !! i with
  | None => w
  | Some ni =>
      {| curr_time := curr_time w;
         objects := <[i := (recv_frame (curr_time w) frame ni).1]> (objects w) |}
  end.

(** ** Runs of one interface *)

Inductive op : Type :=
  | OpSend (dgram : InternetDatagram) (next_hop_ip : Z)
  | OpRecv (frame : EthernetFrame)
  | OpTick (ms : Z).

(** One call on the interface; the state is [(curr_time, interface)]. *)
Definition step (o : op) (s : Z * NetworkInterface) : Z * NetworkInterface :=
  match o with
  | OpSend dgram next_hop_ip => (s.1, send_datagram s.1 dgram next_hop_ip s.2)
  | OpRecv frame => (s.1, (recv_frame s.1 frame s.2).1)
  | OpTick ms => tick ms s.1 s.2
  end.

Definition steps (ops : list op) (s : Z * NetworkInterface)
  : Z * NetworkInterface :=
  foldl (λ s o, step o s) s ops.

(** The frames that a call pushed on [ready2_sent_q]. *)
Definition pushed (before after : NetworkInterface) : list EthernetFrame :=
  drop (length (ready2_sent_q before)) (ready2_sent_q after).

Definition elapsed_after (o : op) (elapsed : Z) : Z :=
  match o with
  | OpTick ms => elapsed + ms
  | _ => elapsed
  end.

(** The frames pushed during a run, each with the time elapsed (the sum of
    the [tick] arguments, not reduced modulo anything) when it was pushed. *)
Fixpoint run_log (ops : list op) (elapsed : Z) (s : Z * NetworkInterface)
  : list (Z * EthernetFrame) :=
  match ops with
  | [] => []
  | o :: ops' =>
      let s' := step o s in
      let elapsed' := elapsed_after o elapsed in
      map (λ f, (elapsed', f)) (pushed s.2 s'.2) ++ run_log ops' elapsed' s'
  end.

(** A frame that a receiver reads as a broadcast ARP request for [ip]. *)
Definition is_ARP_request_for (ip : Z) (f : EthernetFrame) : bool :=
  (type (header f) =? TYPE_ARP)
  && (dst (header f) =? ETHERNET_BROADCAST)
  && match parse_arp (payload f) with
     | Some m => (opcode m =? OPCODE_REQUEST) && (target_ip_address m =? ip)
     | None => false
     end.

End WorldCode.

(** A retry marker of the waiting queue: an ARP-typed broadcast frame. *)
Definition is_marker (p : Waiting_Packet) : bool :=
  (type (header (waiting_frame p)) =? TYPE_ARP)
  && (dst (header (waiting_frame p)) =? ETHERNET_BROADCAST).

(** A datagram item of the waiting queue: an IPv4-typed frame. *)
Definition is_dgram_item (p : Waiting_Packet) : bool :=
  type (header (waiting_frame p)) =? TYPE_IPv4.

(** ** The lookup rule in the words of the specification *)

(** The mask with the top [n] of 32 bits set: [n] ones moved to the top. *)
Definition top_bits_mask (n : Z) : Z := Z.shiftl (Z.ones n) (32 - n).

(** An entry matches iff [destination_ip & mask == prefix]. *)
Definition entry_matches (dest : Z) (e : RoutingTableElement) : Prop :=
  Z.land dest (top_bits_mask (prefix_length_ e)) = route_prefix_ e.

(** Entry [i] is the selected one: it matches, and every matching entry is
    either shorter or equally long and not inserted later. *)
Definition best_match (dest : Z) (table : list RoutingTableElement) (i : nat)
  : Prop :=
  ∃ e, table !! i = Some e ∧ entry_matches dest e ∧
    ∀ j e', table !! j = Some e' → entry_matches dest e' →
      prefix_length_ e' < prefix_length_ e
      ∨ (prefix_length_ e' = prefix_length_ e ∧ (j ≤ i)%nat).

(** The tables of the data model: every prefix length is in [0..32]. *)
Definition wf_table (table : list RoutingTableElement) : Prop :=
  Forall (λ e, 0 ≤ prefix_length_ e ≤ 32) table.

(** The invariant of the lookup loop: after the entries [pre], the state is
    either the initial one and nothing matched, or the best match among
    [pre]. *)
Definition lookup_inv (dest : Z) (pre : list RoutingTableElement)
    (st : Z * Z) : Prop :=
  (st = (-1, -1) ∧ ∀ e, e ∈ pre → ¬ entry_matches dest e)
  ∨ (∃ k e, st = (Z.of_nat k, prefix_length_ e) ∧ pre !! k = Some e
            ∧ best_match dest pre k).

(** ** The waiting-queue loop of [tick], item by item

    The same loop as [tick_waiting], returning the items instead of pushing
    them: the final history, the items whose frame goes to
    [ready2_sent_q], and the items that go to [temp_q]. *)
Fixpoint tick_items (curr_time : Z) (q : list Waiting_Packet)
    (hist : gmap Z Z) : gmap Z Z * list Waiting_Packet * list Waiting_Packet :=
  match q with
  | [] => (hist, [], [])
  | curr_first :: q' =>
      let '(ARP_caching_time, hist1) := subscript hist (dst_ip curr_first) in
      if (MAX_WAITING_TIME <=? size_sub curr_time ARP_caching_time)
         && is_marker curr_first
      then
        let '(h, rs, ks) :=
          tick_items curr_time q' (<[dst_ip curr_first := curr_time]> hist1) in
        (h, curr_first :: rs, ks)
      else if is_dgram_item curr_first
              || (size_sub curr_time (time curr_first) <? MAX_WAITING_TIME)
      then
        let '(h, rs, ks) := tick_items curr_time q' hist1 in
        (h, rs, curr_first :: ks)
      else tick_items curr_time q' hist1
  end.

(** The items of the waiting queue that a [tick] resends. *)
Definition resent_items (ms : Z) (curr_time : Z) (ni : NetworkInterface)
  : list Waiting_Packet :=
  (tick_items (size_add curr_time ms) (waiting_q ni) (request_history ni)).1.2.

(** The test "is for address [x]" on waiting items. *)
Definition for_ip (x : Z) (p : Waiting_Packet) : bool := dst_ip p =? x.

(** What [tick] keeps of an item that it does not resend. *)
Definition survives (curr_time : Z) (p : Waiting_Packet) : bool :=
  is_dgram_item p || (size_sub curr_time (time p) <? MAX_WAITING_TIME).

Section RunDefinitions.
Context `{Codec}.

(** The waiting queues that [send_datagram] builds: every item has a
    request record, and every retry marker carries the ARP request for its
    own address. *)
Definition queue_wf (ni : NetworkInterface) : Prop :=
  ∀ p, p ∈ waiting_q ni →
    is_Some (request_history ni !! dst_ip p)
    ∧ (is_marker p = true →
       waiting_frame p = ARP_request_frame ni (dst_ip p)).

(** Address [x] is in the cache after every call of the run. *)
Fixpoint stays_resolved (x : Z) (ops : list op) (s : Z * NetworkInterface)
  : Prop :=
  match ops with
  | [] => True
  | o :: ops' =>
      is_Some (ARP_table (step o s).2 !! x) ∧ stays_resolved x ops' (step o s)
  end.

(** The arguments of a run are values of their C++ types: a [tick] takes a
    [size_t]. *)
Definition wf_op (o : op) : Prop :=
  match o with
  | OpTick ms => 0 ≤ ms < 2 ^ 64
  | _ => True
  end.

(** The receiver's view of the codec: an ARP message survives the wire. *)
Definition arp_roundtrip : Prop :=
  ∀ m, parse_arp (serialize_arp m) = Some m.

(** Any two requests for [x] in a log are at least [MAX_WAITING_TIME]
    apart. *)
Definition requests_spaced (x : Z) (log : list (Z * EthernetFrame)) : Prop :=
  ∀ i j ti tj fi fj,
    (i < j)%nat →
    log !! i = Some (ti, fi) → log !! j = Some (tj, fj) →
    is_ARP_request_for x fi = true → is_ARP_request_for x fj = true →
    MAX_WAITING_TIME ≤ tj - ti.

End RunDefinitions.

(** ** A sample implementation of the external interface

    Used to evaluate the functions on concrete inputs: a datagram and an
    ARP message are written field by field into one buffer each. *)
Definition sample_serialize_dgram (d : InternetDatagram) : list Buffer :=
  [ttl (ip_header d); cksum (ip_header d); ip_src (ip_header d);
   ip_dst (ip_header d)] :: ip_payload d.

Definition sample_parse_dgram (bs : list Buffer) : option InternetDatagram :=
  match bs with
  | [t; c; s; d] :: rest =>
      Some {| ip_header := {| ttl := t; cksum := c; ip_src := s; ip_dst := d |};
              ip_payload := rest |}
  | _ => None
  end.

Definition sample_serialize_arp (m : ARPMessage) : list Buffer :=
  [[opcode m; sender_ethernet_address m; sender_ip_address m;
    target_ethernet_address m; target_ip_address m]].

Definition sample_parse_arp (bs : list Buffer) : option ARPMessage :=
  match bs with
  | [[o; se; si; te; ti]] =>
      Some (make_arp_message se si te ti o)
  | _ => None
  end.

Definition sample_checksum (h : IPv4Header) : IPv4Header :=
  {| ttl := ttl h;
     cksum := Z.lxor 0xffff ((ttl h + ip_src h + ip_dst h) mod 2 ^ 16);
     ip_src := ip_src h;
     ip_dst := ip_dst h |}.

Definition sample_codec : Codec :=
  {| serialize_dgram := sample_serialize_dgram;
     serialize_arp := sample_serialize_arp;
     parse_dgram := sample_parse_dgram;
     parse_arp := sample_parse_arp;
     compute_checksum := sample_checksum |}.

(** Sample data: interface A of the end-to-end scenario ([aa:aa:aa:aa:aa:aa],
    10.0.0.1), a second interface B, the next hop 10.0.0.2 with link address
    [bb:bb:bb:bb:bb:bb], and a datagram. *)
Definition sample_A : NetworkInterface :=
  new_interface 0xaaaaaaaaaaaa 0x0a000001.

Definition sample_B : NetworkInterface :=
  new_interface 0xcccccccccccc 0x0a000101.

Definition sample_hop : Z := 0x0a000002.

Definition sample_hop_mac : EthernetAddress := 0xbbbbbbbbbbbb.

Definition sample_dgram : InternetDatagram :=
  {| ip_header := {| ttl := 64; cksum := 0; ip_src := 0x0a000001;
                     ip_dst := 0x0a000002 |};
     ip_payload := [[1; 2; 3]] |}.

(** The waiting-queue items that [send_datagram] of [sample_A] builds for
    [sample_dgram] and [sample_hop]. *)
Definition sample_item (now : Z) : Waiting_Packet :=
  {| dst_ip := sample_hop;
     waiting_frame :=
       @ether_frame_no_MAC sample_codec sample_A sample_dgram;
     time := now |}.

Definition sample_marker : Waiting_Packet :=
  {| dst_ip := sample_hop;
     waiting_frame := @ARP_request_frame sample_codec sample_A sample_hop;
     time := SIZE_MAX |}.

(** A broadcast ARP request sent by the host at [sample_hop], asking for
    an address that is not the one of [sample_A]. *)
Definition sample_request_from_hop : EthernetFrame :=
  make_ethernet_frame ETHERNET_BROADCAST sample_hop_mac TYPE_ARP
    (sample_serialize_arp
       (make_arp_message sample_hop_mac sample_hop ETHERNET_ZERO
          0x0a000063 OPCODE_REQUEST)).

(** The ARP reply of the host at [sample_hop] to [sample_A]. *)
Definition sample_reply_from_hop : EthernetFrame :=
  make_ethernet_frame 0xaaaaaaaaaaaa sample_hop_mac TYPE_ARP
    (sample_serialize_arp
       (make_arp_message sample_hop_mac sample_hop 0xaaaaaaaaaaaa
          0x0a000001 OPCODE_REPLY)).

(** The routing scenario: a default route through 192.168.0.1 on interface
    0 and the directly attached 192.168.0.0/24 on interface 1. *)
Definition sample_table : list RoutingTableElement :=
  [ {| route_prefix_ := 0; prefix_length_ := 0;
       next_hop_ := Some 0xc0a80001; interface_num_ := 0%nat |};
    {| route_prefix_ := 0xc0a80000; prefix_length_ := 24;
       next_hop_ := None; interface_num_ := 1%nat |} ].

Definition sample_router : Router :=
  {| interfaces_ := [sample_A; sample_B]; routing_table_ := sample_table |}.


(** [sample_A] after one, two and three [send_datagram] calls for
    [sample_hop] at clock value 0. *)
Definition sample_sent_once : NetworkInterface :=
  @send_datagram sample_codec 0 sample_dgram sample_hop sample_A.

Definition sample_sent_twice : NetworkInterface :=
  @send_datagram sample_codec 0 sample_dgram sample_hop sample_sent_once.

Definition sample_sent_thrice : NetworkInterface :=
  @send_datagram sample_codec 0 sample_dgram sample_hop sample_sent_twice.

(** [sample_sent_twice] after it heard the request of [sample_hop], still at
    clock value 0: the address is in the cache, the queue is as before. *)
Definition sample_learnt_by_request : NetworkInterface :=
  (@recv_frame sample_codec 0 sample_request_from_hop sample_sent_twice).1.

(** The same interface after [tick(29000)] and [tick(1001)]. *)
Definition sample_after_expiry : Z * NetworkInterface :=
  @steps sample_codec [OpTick 29000; OpTick 1001] (0, sample_learnt_by_request).

(** A new [sample_A] after [tick(2^64 - 2)] and two [send_datagram] calls
    for [sample_hop]. *)
Definition sample_late_twice : Z * NetworkInterface :=
  @steps sample_codec
    [OpTick (2 ^ 64 - 2); OpSend sample_dgram sample_hop;
     OpSend sample_dgram sample_hop] (0, sample_A).

(** The message inside [sample_reply_from_hop]. *)
Definition sample_reply_msg : ARPMessage :=
  make_arp_message sample_hop_mac sample_hop 0xaaaaaaaaaaaa 0x0a000001
    OPCODE_REPLY.

(** A run of [sample_A] with repeated sends and ticks. *)
Definition sample_run : list op :=
  [OpSend sample_dgram sample_hop; OpSend sample_dgram sample_hop;
   OpTick 5000; OpSend sample_dgram sample_hop; OpTick 2500;
   OpSend sample_dgram sample_hop; OpTick 2500;
   OpRecv sample_reply_from_hop].

(** Two interfaces and the clock they share, after [sample_A] sent once. *)
Definition sample_world : World :=
  @world_send sample_codec 0 sample_dgram sample_hop
    {| curr_time := 0; objects := [sample_A; sample_B] |}.

(** ** Notions for the properties of whole runs and of two interfaces *)

(** [n] calls of [maybe_send]: the final state and the frames handed out,
    in the order of the calls. *)
Fixpoint drain (n : nat) (ni : NetworkInterface)
  : NetworkInterface * list EthernetFrame :=
  match n with
  | O => (ni, [])
  | S n' =>
      let '(ni1, first) := maybe_send ni in
      let '(ni2, rest) := drain n' ni1 in
      (ni2, match first with
            | Some first_frame => first_frame :: rest
            | None => rest
            end)
  end.

(** A run of [tick] calls on the objects of a world, each given as the
    index of the object and the argument of the call. *)
Definition world_ticks (ts : list (nat * Z)) (w : World) : World :=
  foldl (λ w t, world_tick t.1 t.2 w) w ts.

Section ShapeDefinitions.
Context `{Codec}.

(** The ARP reply that [recv_frame] builds for the sender of a request. *)
Definition ARP_reply_frame (ni : NetworkInterface)
    (sender_mac_addr : EthernetAddress) (sender_ip : Z) : EthernetFrame :=
  make_ethernet_frame sender_mac_addr (ethernet_address_ ni) TYPE_ARP
    (serialize_arp
       (make_arp_message (ethernet_address_ ni) (ip_address_ ni)
          sender_mac_addr sender_ip OPCODE_REPLY)).

(** The frame that [send_datagram] builds on a cache hit. *)
Definition ether_frame_to (ni : NetworkInterface) (mac : EthernetAddress)
    (dgram : InternetDatagram) : EthernetFrame :=
  make_ethernet_frame mac (ethernet_address_ ni) TYPE_IPv4
    (serialize_dgram dgram).

(** The receiver's view of the codec: a datagram survives the wire. *)
Definition dgram_roundtrip : Prop :=
  ∀ d, parse_dgram (serialize_dgram d) = Some d.

(** The two kinds of waiting items that [send_datagram] builds: a datagram
    frame without destination, or the ARP request for the item's own
    address with the time [SIZE_MAX]. *)
Definition item_shape (ni : NetworkInterface) (p : Waiting_Packet) : Prop :=
  (∃ dgram, waiting_frame p = ether_frame_no_MAC ni dgram)
  ∨ (waiting_frame p = ARP_request_frame ni (dst_ip p) ∧ time p = SIZE_MAX).

(** A frame sent by this interface: its own source address, and one of
    the two payload types. *)
Definition frame_ok (ni : NetworkInterface) (f : EthernetFrame) : Prop :=
  src (header f) = ethernet_address_ ni
  ∧ (type (header f) = TYPE_IPv4 ∨ type (header f) = TYPE_ARP).

(** The invariant of the states of an interface. *)
Definition interface_inv (ni : NetworkInterface) : Prop :=
  Forall (item_shape ni) (waiting_q ni)
  ∧ Forall (λ p, is_Some (request_history ni !! dst_ip p)) (waiting_q ni)
  ∧ Forall (frame_ok ni) (ready2_sent_q ni).

End ShapeDefinitions.

(** The invariant of the lookup loop on any table: the state holds [-1] or
    an index below the loop counter. *)
Definition index_inv (i : Z) (st : Z * Z) : Prop :=
  st.1 = -1 ∨ 0 ≤ st.1 < i.

(** Sample data for two interfaces on one link: a frame for another host,
    and an ARP reply of [sample_hop] addressed to another host. *)
Definition sample_foreign_frame : EthernetFrame :=
  make_ethernet_frame 0x111111111111 sample_hop_mac TYPE_IPv4
    (sample_serialize_dgram sample_dgram).

Definition sample_overheard_msg : ARPMessage :=
  make_arp_message sample_hop_mac sample_hop 0x111111111111 0x0a000063
    OPCODE_REPLY.

Definition sample_overheard_reply : EthernetFrame :=
  make_ethernet_frame ETHERNET_BROADCAST sample_hop_mac TYPE_ARP
    (sample_serialize_arp sample_overheard_msg).

(** [sample_A] with [sample_B] in its cache since clock value 0. *)
Definition sample_A_knows_B : NetworkInterface :=
  set_ARP_table
    {[ ip_address_ sample_B :=
         {| MAC_addr := ethernet_address_ sample_B; caching_time := 0 |} ]}
    sample_A.

(** ** The routing pass *)

(** Modelled from the spec: [maybe_receive] of the interface wrapper that
    [router.hh] gives the router, a non-blocking pop of one arrived,
    already decoded datagram: the arrivals of one interface are a queue,
    the call returns its front and leaves the rest, or returns nothing. *)
Definition maybe_receive (datagrams_in : list InternetDatagram)
  : option InternetDatagram * list InternetDatagram :=
  match datagrams_in with
  | [] => (None, [])
  | datagram :: rest => (Some datagram, rest)
  end.

Section RouteCode.
Context `{Codec}.

(** The [while] loop of [Router::route] for one interface: every datagram
    that [maybe_receive] returns is given to [route_single_dgram], until it
    returns nothing.  [None] is an undefined [route_single_dgram]. *)
Fixpoint route_interface (curr_time : Z) (datagrams_in : list InternetDatagram)
    (r : Router) : option Router :=
  match datagrams_in with
  | [] => Some r
  | this_datagram :: rest =>
      match route_single_dgram curr_time this_datagram r with
      | None => None
      | Some (r', _) => route_interface curr_time rest r'
      end
  end.

(** [Router::route]: the interfaces in the order of [interfaces_], each
    with its queue of arrivals. *)
Fixpoint route (curr_time : Z) (arrivals : list (list InternetDatagram))
    (r : Router) : option Router :=
  match arrivals with
  | [] => Some r
  | datagrams_in :: rest =>
      match route_interface curr_time datagrams_in r with
      | None => None
      | Some r' => route curr_time rest r'
      end
  end.

End RouteCode.

(** Arrivals for the two interfaces of [sample_router]: a datagram to
    10.0.0.2 and two that expire at this hop. *)
Definition sample_arrivals : list (list InternetDatagram) :=
  [[sample_dgram; set_ttl 1 sample_dgram]; [set_ttl 0 sample_dgram]].

Definition sample_expired_arrivals : list (list InternetDatagram) :=
  [[set_ttl 1 sample_dgram]; [set_ttl 0 sample_dgram; set_ttl 1 sample_dgram]].

(** ** Runs between learning an address and its expiry *)

Section ExpiryDefinitions.
Context `{Codec}.

(** The frames that refresh the cache entry of [x] on an interface with
    link address [mac]: those that [recv_frame] takes as an ARP message,
    ARP-typed and addressed to the interface or to all, and whose parsed
    message names [x] as its sender. *)
Definition refreshes (mac : EthernetAddress) (x : Z) (frame : EthernetFrame)
  : bool :=
  ((dst (header frame) =? mac) || (dst (header frame) =? ETHERNET_BROADCAST))
  && (type (header frame) =? TYPE_ARP)
  && match parse_arp (payload frame) with
     | Some arp_message => sender_ip_address arp_message =? x
     | None => false
     end.

(** A call that does not refresh the entry of [x]: any [send_datagram], any
    [tick], and [recv_frame] of a frame that does not refresh it. *)
Definition no_refresh (mac : EthernetAddress) (x : Z) (o : op) : Prop :=
  match o with
  | OpRecv frame => refreshes mac x frame = false
  | _ => True
  end.

End ExpiryDefinitions.

Definition is_tick (o : op) : bool :=
  match o with
  | OpTick _ => true
  | _ => false
  end.

(** The time that elapses during a run: the sum of its [tick] arguments. *)
Definition run_elapsed (ops : list op) : Z := foldr elapsed_after 0 ops.

(** A broadcast ARP request of a third host, 10.0.0.99, for the address of
    [sample_A]. *)
Definition sample_request_from_other : EthernetFrame :=
  make_ethernet_frame ETHERNET_BROADCAST 0x111111111111 TYPE_ARP
    (sample_serialize_arp
       (make_arp_message 0x111111111111 0x0a000063 ETHERNET_ZERO
          0x0a000001 OPCODE_REQUEST)).

(** A run with traffic between its ticks, none of it an ARP message of
    [sample_hop]: a send to a third host, an IPv4 frame for another
    interface, and the request of the third host. *)
Definition sample_quiet_run : list op :=
  [OpTick 20000; OpSend sample_dgram 0x0a000063;
   OpRecv sample_foreign_frame; OpRecv sample_request_from_other;
   OpTick 10001].

(** [sample_sent_thrice] after the reply of [sample_hop], at clock value
    0. *)
Definition sample_after_reply : Z * NetworkInterface :=
  (0, (@recv_frame sample_codec 0 sample_reply_from_hop sample_sent_thrice).1).

(** A run after the reply during which [sample_hop] stays in the cache. *)
Definition sample_resolved_run : list op :=
  [OpSend sample_dgram sample_hop; OpTick 5000;
   OpSend sample_dgram sample_hop].

(** After the reply: the entry expires, two sends for [sample_hop] follow,
    and the address is learnt again from a request of [sample_hop]. *)
Definition sample_recached : Z * NetworkInterface :=
  @steps sample_codec
    [OpTick 30001; OpSend sample_dgram sample_hop;
     OpSend sample_dgram sample_hop; OpRecv sample_request_from_hop]
    sample_after_reply.

(** * Properties *)

(** ** Machine arithmetic *)

Lemma size_sub_range (a b : Z) : 0 ≤ size_sub a b < 2 ^ 64.
Proof. unfold size_sub. apply Z.mod_pos_bound. lia. Qed.

Lemma size_add_range (a b : Z) : 0 ≤ size_add a b < 2 ^ 64.
Proof. unfold size_add. apply Z.mod_pos_bound. lia. Qed.

Lemma size_sub_diag (a : Z) : size_sub a a = 0.
Proof. unfold size_sub. rewrite Z.sub_diag. reflexivity. Qed.

Lemma size_sub_small (a b : Z) : 0 ≤ a - b < 2 ^ 64 → size_sub a b = a - b.
Proof. intros Hr. unfold size_sub. apply Z.mod_small. exact Hr. Qed.

(** Advancing the clock by [ms ≥ 0] ages a timestamp by at most [ms]. *)
Lemma size_sub_add_le (c ms h : Z) :
  0 ≤ ms → size_sub (size_add c ms) h ≤ size_sub c h + ms.
Proof.
  intros Hms. unfold size_sub, size_add.
  assert (Hm : (2 ^ 64 : Z) > 0) by lia.
  replace (((c + ms) mod 2 ^ 64 - h) mod 2 ^ 64)
    with (((c - h) mod 2 ^ 64 + ms) mod 2 ^ 64).
  - pose proof (Z.mod_pos_bound (c - h) (2 ^ 64) ltac:(lia)) as Hb.
    set (a := (c - h) mod 2 ^ 64) in *.
    destruct (Z_lt_dec (a + ms) (2 ^ 64)) as [Hlt | Hge].
    + rewrite Z.mod_small; lia.
    + pose proof (Z.mod_pos_bound (a + ms) (2 ^ 64) ltac:(lia)). lia.
  - rewrite Zplus_mod_idemp_l, Zminus_mod_idemp_l. f_equal. lia.
Qed.

(** [curr_time - SIZE_MAX] is [curr_time + 1], except at the last clock
    value, where it wraps to [0]. *)
Lemma size_sub_SIZE_MAX (c : Z) :
  0 ≤ c < 2 ^ 64 →
  size_sub c SIZE_MAX = if c =? 2 ^ 64 - 1 then 0 else c + 1.
Proof.
  intros Hc. unfold size_sub, SIZE_MAX.
  destruct (Z.eqb_spec c (2 ^ 64 - 1)) as [-> | Hne].
  - reflexivity.
  - replace (c - (2 ^ 64 - 1)) with (c + 1 + -1 * 2 ^ 64) by lia.
    rewrite Z.mod_add by lia. apply Z.mod_small. lia.
Qed.

Lemma to_int_small (i : Z) : - 2 ^ 31 ≤ i < 2 ^ 31 → to_int i = i.
Proof. intros Hi. unfold to_int. rewrite Z.mod_small; lia. Qed.

Lemma to_int_range (i : Z) : - 2 ^ 31 ≤ to_int i < 2 ^ 31.
Proof.
  unfold to_int.
  pose proof (Z.mod_pos_bound (i + 2 ^ 31) (2 ^ 32) ltac:(lia)). lia.
Qed.

(** ** The routing table *)

(** For a length in [0..32] the mask of the code is the mask of the
    specification: the top [n] bits. *)
Lemma bitmask_of_top_bits (n : Z) :
  0 ≤ n ≤ 32 → bitmask_of n = top_bits_mask n.
Proof.
  intros Hn.
  assert (Hnat : ∃ k : nat, n = Z.of_nat k ∧ (k ≤ 32)%nat).
  { exists (Z.to_nat n). split; lia. }
  destruct Hnat as (k & -> & Hk).
  do 33 (destruct k as [| k]; [vm_compute; reflexivity |]).
  lia.
Qed.

(** Outside [1..32] the loop uses the all-zero mask. *)
Lemma bitmask_of_out_of_range (n : Z) : n ≤ 0 ∨ 32 < n → bitmask_of n = 0.
Proof.
  intros Hn. unfold bitmask_of.
  destruct (Z.ltb_spec 0 n), (Z.leb_spec n 32); simpl; try reflexivity; lia.
Qed.

(** The test of the loop is the matching rule of the specification. *)
Lemma code_match_iff (dest : Z) (e : RoutingTableElement) :
  0 ≤ prefix_length_ e ≤ 32 →
  Z.land (bitmask_of (prefix_length_ e)) dest = route_prefix_ e
  ↔ entry_matches dest e.
Proof.
  intros Hwf. unfold entry_matches.
  rewrite (bitmask_of_top_bits _ Hwf), Z.land_comm. reflexivity.
Qed.

Lemma best_match_unique (dest : Z) (table : list RoutingTableElement)
    (i j : nat) :
  best_match dest table i → best_match dest table j → i = j.
Proof.
  intros (ei & Hi & Hmi & Hbi) (ej & Hj & Hmj & Hbj).
  destruct (Hbi j ej Hj Hmj) as [Hlt | [Heq Hle]];
    destruct (Hbj i ei Hi Hmi) as [Hlt' | [Heq' Hle']]; lia.
Qed.

Lemma lookup_inv_step (dest : Z) (pre : list RoutingTableElement)
    (e : RoutingTableElement) (st : Z * Z) :
  0 ≤ prefix_length_ e ≤ 32 →
  Z.of_nat (length pre) < 2 ^ 31 →
  lookup_inv dest pre st →
  lookup_inv dest (pre ++ [e])
    (if (Z.land (bitmask_of (prefix_length_ e)) dest =? route_prefix_ e)
        && (st.2 <=? prefix_length_ e)
     then (to_int (Z.of_nat (length pre)), prefix_length_ e)
     else st).
Proof.
  intros Hwf Hlen Hinv.
  pose proof (code_match_iff dest e Hwf) as Hcm.
  destruct (Z.eqb_spec (Z.land (bitmask_of (prefix_length_ e)) dest)
              (route_prefix_ e)) as [Heq | Hne]; simpl.
  - apply Hcm in Heq.
    destruct (Z.leb_spec st.2 (prefix_length_ e)) as [Hle | Hgt].
    + (* the new entry becomes the selected one *)
      right. exists (length pre), e.
      rewrite to_int_small by lia.
      split; [reflexivity |]. split; [apply list_lookup_middle; reflexivity |].
      exists e. split; [apply list_lookup_middle; reflexivity |].
      split; [exact Heq |].
      intros j e' Hj Hm'.
      apply lookup_app_Some in Hj as [Hj | [Hge Hj]].
      * pose proof (lookup_lt_Some _ _ _ Hj) as Hlt.
        destruct Hinv as [[-> Hnone] | (k & e0 & -> & Hk & (e1 & Hk1 & _ & Hb))].
        -- exfalso. eapply Hnone; [| exact Hm']. eapply list_elem_of_lookup_2, Hj.
        -- simpl in Hle. rewrite Hk in Hk1. injection Hk1 as <-.
           destruct (Hb j e' Hj Hm') as [? | [? ?]]; lia.
      * destruct (length pre) eqn:El in Hge |- *;
          destruct (j - length pre)%nat eqn:Ej; simpl in Hj;
          try discriminate; injection Hj as <-; right; split; lia.
    + (* a longer match is already held *)
      destruct Hinv as [[-> Hnone] | (k & e0 & -> & Hk & (e1 & Hk1 & Hm1 & Hb))].
      * simpl in Hgt. lia.
      * simpl in Hgt. right. exists k, e0. split; [reflexivity |].
        split; [apply lookup_app_l_Some; exact Hk |].
        rewrite Hk in Hk1. injection Hk1 as <-.
        exists e0. split; [apply lookup_app_l_Some; exact Hk |].
        split; [exact Hm1 |].
        intros j e' Hj Hm'.
        apply lookup_app_Some in Hj as [Hj | [Hge Hj]].
        -- exact (Hb j e' Hj Hm').
        -- destruct (j - length pre)%nat eqn:Ej; simpl in Hj;
             [injection Hj as <- | discriminate]. left. lia.
  - (* the entry does not match *)
    assert (Hnm : ¬ entry_matches dest e) by (intros Hm; apply Hne, Hcm, Hm).
    destruct Hinv as [[-> Hnone] | (k & e0 & -> & Hk & (e1 & Hk1 & Hm1 & Hb))].
    + left. split; [reflexivity |].
      intros e' Hin. apply elem_of_app in Hin as [Hin | Hin].
      * apply Hnone, Hin.
      * apply list_elem_of_singleton in Hin as ->. exact Hnm.
    + right. exists k, e0. split; [reflexivity |].
      split; [apply lookup_app_l_Some; exact Hk |].
      rewrite Hk in Hk1. injection Hk1 as <-.
      exists e0. split; [apply lookup_app_l_Some; exact Hk |].
      split; [exact Hm1 |].
      intros j e' Hj Hm'.
      apply lookup_app_Some in Hj as [Hj | [Hge Hj]].
      * exact (Hb j e' Hj Hm').
      * destruct (j - length pre)%nat eqn:Ej; simpl in Hj;
          [injection Hj as <- | discriminate]. contradiction.
Qed.

Lemma find_route_inv (dest : Z) (rest pre : list RoutingTableElement)
    (st : Z * Z) :
  wf_table rest →
  Z.of_nat (length (pre ++ rest)) ≤ 2 ^ 31 →
  lookup_inv dest pre st →
  lookup_inv dest (pre ++ rest)
    (find_route dest rest (Z.of_nat (length pre)) st).
Proof.
  revert pre st. induction rest as [| e rest IH]; intros pre st Hwf Hlen Hinv.
  - simpl. rewrite app_nil_r. exact Hinv.
  - simpl. apply Forall_cons in Hwf as [Hwe Hwf].
    rewrite length_app in Hlen. simpl in Hlen.
    replace (pre ++ e :: rest) with ((pre ++ [e]) ++ rest)
      by (rewrite <- app_assoc; reflexivity).
    replace (Z.of_nat (length pre) + 1) with (Z.of_nat (length (pre ++ [e])))
      by (rewrite length_app; simpl; lia).
    apply IH.
    + exact Hwf.
    + rewrite !length_app. simpl. lia.
    + apply lookup_inv_step; [exact Hwe | lia | exact Hinv].
Qed.

Lemma lookup_route_inv (dest : Z) (table : list RoutingTableElement) :
  wf_table table →
  Z.of_nat (length table) ≤ 2 ^ 31 →
  (lookup_route dest table = -1 ∧ ∀ e, e ∈ table → ¬ entry_matches dest e)
  ∨ (∃ k, lookup_route dest table = Z.of_nat k ∧ best_match dest table k).
Proof.
  intros Hwf Hlen.
  assert (H0 : lookup_inv dest [] (-1, -1)).
  { left. split; [reflexivity |]. intros e Hin. inversion Hin. }
  pose proof (find_route_inv dest table [] (-1, -1) Hwf Hlen H0) as Hinv.
  change (Z.of_nat (length [])) with 0 in Hinv.
  change ([] ++ table) with table in Hinv.
  unfold lookup_route.
  destruct Hinv as [[-> Hnone] | (k & e & -> & _ & Hb)].
  - left. split; [reflexivity | exact Hnone].
  - right. exists k. split; [reflexivity | exact Hb].
Qed.

(** The loop never leaves the range of [int]. *)
Lemma find_route_range (dest : Z) (table : list RoutingTableElement)
    (i : Z) (st : Z * Z) :
  - 2 ^ 31 ≤ st.1 < 2 ^ 31 →
  - 2 ^ 31 ≤ (find_route dest table i st).1 < 2 ^ 31.
Proof.
  revert i st. induction table as [| e rest IH]; intros i st Hst; simpl.
  - exact Hst.
  - apply IH. destruct (_ && _); simpl; [apply to_int_range | exact Hst].
Qed.

Lemma lookup_route_range (dest : Z) (table : list RoutingTableElement) :
  - 2 ^ 31 ≤ lookup_route dest table < 2 ^ 31.
Proof. apply find_route_range. simpl. lia. Qed.

Section RouterProperties.
Context `{Codec}.

(** C1.  Longest-prefix lookup.  For a table whose lengths are in [0..32]
    (and whose indices fit the [int] that holds the result), the lookup
    treats exactly the entries with [dest & mask = prefix] as matching,
    where the mask is the top [prefix_length] bits; it returns [-1] iff no
    entry matches, and then the datagram is dropped with the router
    untouched; otherwise it returns the index of the matching entry of
    greatest length, the latest inserted one among equals. *)
Theorem route_lookup_longest_prefix (dest : Z)
    (table : list RoutingTableElement) :
  wf_table table →
  Z.of_nat (length table) ≤ 2 ^ 31 →
  (∀ e, e ∈ table →
     (Z.land (bitmask_of (prefix_length_ e)) dest = route_prefix_ e
      ↔ entry_matches dest e))
  ∧ top_bits_mask 0 = 0
  ∧ (lookup_route dest table = -1 ↔ ∀ e, e ∈ table → ¬ entry_matches dest e)
  ∧ (∀ i, lookup_route dest table = Z.of_nat i ↔ best_match dest table i)
  ∧ (lookup_route dest table = -1 →
     ∀ now dgram r, routing_table_ r = table →
       ip_dst (ip_header dgram) = dest →
       route_single_dgram now dgram r = Some (r, dgram)).
Proof.
  intros Hwf Hlen.
  pose proof (lookup_route_inv dest table Hwf Hlen) as Hinv.
  split; [| split; [reflexivity | split; [| split]]].
  - intros e Hin. apply code_match_iff.
    unfold wf_table in Hwf. rewrite Forall_forall in Hwf. apply Hwf, Hin.
  - split.
    + intros Hm1. destruct Hinv as [[_ Hnone] | (k & Hk & _)]; [exact Hnone | lia].
    + intros Hnone. destruct Hinv as [[Hm1 _] | (k & _ & (e & Hk & Hm & _))].
      * exact Hm1.
      * exfalso. apply (Hnone e); [eapply list_elem_of_lookup_2, Hk | exact Hm].
  - intros i. split.
    + intros Hi. destruct Hinv as [[Hm1 _] | (k & Hk & Hb)]; [lia |].
      assert (k = i) as -> by lia. exact Hb.
    + intros Hb. destruct Hinv as [[_ Hnone] | (k & Hk & Hbk)].
      * exfalso. destruct Hb as (e & Hi & Hm & _).
        apply (Hnone e); [eapply list_elem_of_lookup_2, Hi | exact Hm].
      * rewrite (best_match_unique _ _ _ _ Hb Hbk). exact Hk.
  - intros Hm1 now dgram r Hr Hd. unfold route_single_dgram.
    destruct (ttl (ip_header dgram) <=? 0); [reflexivity |].
    rewrite Hr, Hd, Hm1. reflexivity.
Qed.

(** C5.  TTL handling of [route_single_dgram], for a TTL in the range of
    its [uint8_t] field.  TTL 0 on arrival: the datagram and the router are
    returned as they came.  TTL 1 with a route: the TTL becomes 0, the
    checksum field keeps its value and no interface is touched.  TTL above
    1 with a route: the header becomes [compute_checksum] of the header
    with the TTL decremented by 1, and the datagram with that header is
    handed to [send_datagram] of the interface of the route, towards its
    next hop, or the destination for a direct route. *)
Theorem forward_ttl_policy (now : Z) (dgram : InternetDatagram) (r : Router) :
  0 ≤ ttl (ip_header dgram) < 2 ^ 8 →
  let dest := ip_dst (ip_header dgram) in
  let found := lookup_route dest (routing_table_ r) in
  (ttl (ip_header dgram) = 0 →
     route_single_dgram now dgram r = Some (r, dgram))
  ∧ (0 < ttl (ip_header dgram) → found = -1 →
     route_single_dgram now dgram r = Some (r, dgram))
  ∧ (ttl (ip_header dgram) = 1 → found ≠ -1 →
     route_single_dgram now dgram r =
       Some (r, {| ip_header :=
                     {| ttl := 0;
                        cksum := cksum (ip_header dgram);
                        ip_src := ip_src (ip_header dgram);
                        ip_dst := ip_dst (ip_header dgram) |};
                   ip_payload := ip_payload dgram |}))
  ∧ (1 < ttl (ip_header dgram) →
     ∀ i e ni,
       found = Z.of_nat i →
       routing_table_ r !! i = Some e →
       interfaces_ r !! interface_num_ e = Some ni →
       let dgram' :=
         {| ip_header :=
              compute_checksum
                {| ttl := ttl (ip_header dgram) - 1;
                   cksum := cksum (ip_header dgram);
                   ip_src := ip_src (ip_header dgram);
                   ip_dst := ip_dst (ip_header dgram) |};
            ip_payload := ip_payload dgram |} in
       let hop := default dest (next_hop_ e) in
       route_single_dgram now dgram r =
         Some ({| interfaces_ :=
                    <[interface_num_ e :=
                        send_datagram now dgram' hop ni]> (interfaces_ r);
                  routing_table_ := routing_table_ r |},
               dgram')).
Proof.
  intros Httl dest found.
  split; [| split; [| split]].
  - intros H0. unfold route_single_dgram. rewrite H0. reflexivity.
  - intros Hpos Hnone. unfold route_single_dgram.
    destruct (Z.leb_spec (ttl (ip_header dgram)) 0); [lia |].
    fold dest. fold found. rewrite Hnone. reflexivity.
  - intros H1 Hfound. unfold route_single_dgram.
    fold dest. fold found. rewrite H1. simpl.
    destruct (Z.eqb_spec found (-1)); [contradiction | reflexivity].
  - intros Hgt i e ni Hfound Hi Hni dgram' hop. unfold route_single_dgram.
    destruct (Z.leb_spec (ttl (ip_header dgram)) 0); [lia |].
    fold dest. fold found.
    destruct (Z.eqb_spec found (-1)); [lia |].
    assert (Hdec : to_uint8 (ttl (ip_header dgram) - 1)
                   = ttl (ip_header dgram) - 1).
    { unfold to_uint8. apply Z.mod_small. lia. }
    rewrite Hdec.
    destruct (Z.leb_spec (ttl (ip_header
                (set_ttl (ttl (ip_header dgram) - 1) dgram))) 0) as [Hle |];
      [simpl in Hle; lia |].
    pose proof (lookup_route_range dest (routing_table_ r)) as Hrange.
    fold found in Hrange.
    assert (Hidx : Z.to_nat (found mod 2 ^ 64) = i).
    { rewrite Z.mod_small by lia. lia. }
    rewrite Hidx, Hi, Hni. unfold hop, dgram', recompute_checksum, set_ttl.
    simpl. destruct (next_hop_ e); reflexivity.
Qed.

(** C7, as the code has it.  [add_route] never rejects: whatever the prefix
    length, the element is appended unchanged at the end of the table, the
    earlier entries and the interfaces stay as they were; a length above 32
    is met only in the lookup loop, which then uses the all-zero mask. *)
Theorem add_route_appends_unchecked (route_prefix prefix_length : Z)
    (next_hop : option Z) (interface_num : nat) (r : Router) :
  let e := {| route_prefix_ := route_prefix;
              prefix_length_ := prefix_length;
              next_hop_ := next_hop;
              interface_num_ := interface_num |} in
  let r' := add_route route_prefix prefix_length next_hop interface_num r in
  routing_table_ r' = routing_table_ r ++ [e]
  ∧ routing_table_ r' !! length (routing_table_ r) = Some e
  ∧ length (routing_table_ r') = S (length (routing_table_ r))
  ∧ interfaces_ r' = interfaces_ r
  ∧ (32 < prefix_length → bitmask_of prefix_length = 0).
Proof.
  intros e r'. split; [reflexivity |]. split; [| split; [| split]].
  - subst r'. simpl. apply list_lookup_middle. reflexivity.
  - subst r'. simpl. rewrite length_app. simpl. lia.
  - reflexivity.
  - intros Hlong. apply bitmask_of_out_of_range. right. exact Hlong.
Qed.

End RouterProperties.

(** ** Receiving an ARP reply *)

Section ReceiveProperties.
Context `{Codec}.

(** The flush loop is two order-preserving selections of the waiting
    queue: the items for other addresses stay, the IPv4-typed items for
    the resolved address leave with their destination filled in. *)
Lemma flush_waiting_spec (sender_ip : Z) (mac : EthernetAddress)
    (q : list Waiting_Packet) (ready : list EthernetFrame)
    (temp_q : list Waiting_Packet) :
  flush_waiting sender_ip mac q (ready, temp_q) =
    (ready ++ map (λ p, set_dst mac (waiting_frame p))
                (List.filter (λ p, (dst_ip p =? sender_ip) && is_dgram_item p) q),
     temp_q ++ List.filter (λ p, negb (dst_ip p =? sender_ip)) q).
Proof.
  revert ready temp_q. induction q as [| p q IH]; intros ready temp_q.
  - simpl. rewrite !app_nil_r. reflexivity.
  - simpl. rewrite (Z.eqb_sym (dst_ip p) sender_ip). unfold is_dgram_item.
    destruct (sender_ip =? dst_ip p); simpl.
    + destruct (type (header (waiting_frame p)) =? TYPE_IPv4); simpl.
      * rewrite IH, <- app_assoc. reflexivity.
      * rewrite IH. reflexivity.
    + rewrite IH, <- app_assoc. reflexivity.
Qed.

(** What [recv_frame] does with an accepted ARP reply for this interface. *)
Lemma recv_frame_reply (now : Z) (frame : EthernetFrame)
    (ni : NetworkInterface) (msg : ARPMessage) :
  type (header frame) = TYPE_ARP →
  dst (header frame) = ethernet_address_ ni
    ∨ dst (header frame) = ETHERNET_BROADCAST →
  parse_arp (payload frame) = Some msg →
  opcode msg = OPCODE_REPLY →
  target_ip_address msg = ip_address_ ni →
  recv_frame now frame ni =
    ({| ethernet_address_ := ethernet_address_ ni;
        ip_address_ := ip_address_ ni;
        ARP_table :=
          <[sender_ip_address msg :=
              {| MAC_addr := sender_ethernet_address msg;
                 caching_time := now |}]> (ARP_table ni);
        ready2_sent_q :=
          ready2_sent_q ni
          ++ map (λ p, set_dst (sender_ethernet_address msg) (waiting_frame p))
               (List.filter
                  (λ p, (dst_ip p =? sender_ip_address msg) && is_dgram_item p)
                  (waiting_q ni));
        waiting_q :=
          List.filter (λ p, negb (dst_ip p =? sender_ip_address msg))
            (waiting_q ni);
        request_history := request_history ni |},
     None).
Proof.
  intros Hty Hdst Hparse Hop Htgt. unfold recv_frame.
  rewrite Hty, Hparse, Hop, Htgt.
  change (TYPE_ARP =? TYPE_IPv4) with false.
  change (TYPE_ARP =? TYPE_ARP) with true.
  change (OPCODE_REPLY =? OPCODE_REQUEST) with false.
  change (OPCODE_REPLY =? OPCODE_REPLY) with true.
  rewrite Z.eqb_refl, !andb_false_r, !andb_true_r. simpl.
  assert (Hacc : (dst (header frame) =? ethernet_address_ ni)
                 || (dst (header frame) =? ETHERNET_BROADCAST) = true).
  { destruct Hdst as [-> | ->]; rewrite Z.eqb_refl;
      [reflexivity | apply orb_true_r]. }
  rewrite Hacc. simpl. rewrite flush_waiting_spec. reflexivity.
Qed.

(** C2.  An accepted ARP reply for this interface removes from the waiting
    queue the items for the sender's address; the IPv4-typed ones among
    them go to the end of the ready queue, in their order, with the
    sender's link address as destination and nothing else changed; the
    items for every other address stay in the waiting queue in their
    order. *)
Theorem arp_reply_flushes_in_order (now : Z) (frame : EthernetFrame)
    (ni : NetworkInterface) (msg : ARPMessage) :
  type (header frame) = TYPE_ARP →
  dst (header frame) = ethernet_address_ ni
    ∨ dst (header frame) = ETHERNET_BROADCAST →
  parse_arp (payload frame) = Some msg →
  opcode msg = OPCODE_REPLY →
  target_ip_address msg = ip_address_ ni →
  let ni' := (recv_frame now frame ni).1 in
  let resolved p := (dst_ip p =? sender_ip_address msg) && is_dgram_item p in
  let readdress p :=
    {| header := {| dst := sender_ethernet_address msg;
                    src := src (header (waiting_frame p));
                    type := type (header (waiting_frame p)) |};
       payload := payload (waiting_frame p) |} in
  ready2_sent_q ni' =
    ready2_sent_q ni ++ map readdress (List.filter resolved (waiting_q ni))
  ∧ waiting_q ni' =
    List.filter (λ p, negb (dst_ip p =? sender_ip_address msg)) (waiting_q ni)
  ∧ List.filter resolved (waiting_q ni') = []
  ∧ (recv_frame now frame ni).2 = None.
Proof.
  intros Hty Hdst Hparse Hop Htgt ni' resolved readdress. subst ni'.
  rewrite (recv_frame_reply now frame ni msg Hty Hdst Hparse Hop Htgt). simpl.
  split; [reflexivity |]. split; [reflexivity |]. split; [| reflexivity].
  induction (waiting_q ni) as [| p q IH]; [reflexivity |]. simpl.
  destruct (dst_ip p =? sender_ip_address msg) eqn:E; simpl.
  - exact IH.
  - subst resolved. simpl. rewrite E. simpl. exact IH.
Qed.

End ReceiveProperties.

(** ** The loops of [tick] *)

Lemma subscript_fst (m : gmap Z Z) (k : Z) :
  (subscript m k).1 = default 0 (m !! k).
Proof. unfold subscript. destruct (m !! k); reflexivity. Qed.

Lemma subscript_present (m : gmap Z Z) (k v : Z) :
  m !! k = Some v → subscript m k = (v, m).
Proof. intros Hk. unfold subscript. rewrite Hk. reflexivity. Qed.

Lemma subscript_lookup_ne (m : gmap Z Z) (k j : Z) :
  k ≠ j → (subscript m k).2 !! j = m !! j.
Proof.
  intros Hne. unfold subscript. destruct (m !! k); simpl; [reflexivity |].
  apply lookup_insert_ne. exact Hne.
Qed.

Lemma subscript_is_Some (m : gmap Z Z) (k j : Z) :
  is_Some (m !! j) → is_Some ((subscript m k).2 !! j).
Proof.
  intros Hj. destruct (decide (k = j)) as [-> | Hne].
  - destruct Hj as [v Hv]. rewrite (subscript_present _ _ _ Hv). eauto.
  - rewrite subscript_lookup_ne by exact Hne. exact Hj.
Qed.

(** [tick_waiting] pushes what [tick_items] lists. *)
Lemma tick_waiting_items (now : Z) (q : list Waiting_Packet)
    (hist : gmap Z Z) (ready : list EthernetFrame)
    (temp_q : list Waiting_Packet) :
  tick_waiting now q (hist, ready, temp_q) =
    ((tick_items now q hist).1.1,
     ready ++ map waiting_frame (tick_items now q hist).1.2,
     temp_q ++ (tick_items now q hist).2).
Proof.
  revert hist ready temp_q.
  induction q as [| p q IH]; intros hist ready temp_q.
  - simpl. rewrite !app_nil_r. reflexivity.
  - simpl. destruct (subscript hist (dst_ip p)) as [t hist1].
    unfold is_marker, is_dgram_item. rewrite <- andb_assoc.
    destruct (_ && _).
    + rewrite IH.
      destruct (tick_items now q (<[dst_ip p:=now]> hist1)) as [[h rs] ks].
      simpl. rewrite <- app_assoc. reflexivity.
    + destruct (_ || _).
      * rewrite IH. destruct (tick_items now q hist1) as [[h rs] ks].
        simpl. rewrite <- app_assoc. reflexivity.
      * rewrite IH. reflexivity.
Qed.

(** [tick] in one equation. *)
Lemma tick_unfold (ms now : Z) (ni : NetworkInterface) :
  let now' := size_add now ms in
  let r := tick_items now' (waiting_q ni) (request_history ni) in
  tick ms now ni =
    (now',
     {| ethernet_address_ := ethernet_address_ ni;
        ip_address_ := ip_address_ ni;
        ARP_table := erase_all (expired_ip now' (ARP_table ni)) (ARP_table ni);
        ready2_sent_q := ready2_sent_q ni ++ map waiting_frame r.1.2;
        waiting_q := r.2;
        request_history := r.1.1 |}).
Proof.
  intros now' r. unfold tick. fold now'.
  rewrite tick_waiting_items. fold r. reflexivity.
Qed.

(** Resent items are markers of the queue, kept items are items of the
    queue, and no request record disappears. *)
Lemma tick_items_sub (now : Z) (q : list Waiting_Packet) (hist : gmap Z Z) :
  Forall (λ p, p ∈ q ∧ is_marker p = true) (tick_items now q hist).1.2
  ∧ Forall (λ p, p ∈ q) (tick_items now q hist).2
  ∧ (∀ k, is_Some (hist !! k) → is_Some ((tick_items now q hist).1.1 !! k)).
Proof.
  revert hist. induction q as [| p q IH]; intros hist.
  - simpl. split; [constructor | split; [constructor | auto]].
  - simpl. pose proof (subscript_is_Some hist (dst_ip p)) as Hsub.
    destruct (subscript hist (dst_ip p)) as [t hist1]. simpl in Hsub.
    destruct (Z.leb_spec MAX_WAITING_TIME (size_sub now t)) as [Hdue | Hyoung];
      [destruct (is_marker p) eqn:Em |]; simpl.
    1: { destruct (IH (<[dst_ip p:=now]> hist1)) as (Hrs & Hks & Hdom).
         destruct (tick_items now q (<[dst_ip p:=now]> hist1)) as [[h rs] ks].
         simpl in *. split; [| split].
         - constructor; [split; [left | exact Em] |].
           eapply Forall_impl; [exact Hrs |]. intros a [Ha Hm].
           split; [right; exact Ha | exact Hm].
         - eapply Forall_impl; [exact Hks |]. intros a Ha. right. exact Ha.
         - intros k Hk. apply Hdom.
           destruct (decide (dst_ip p = k)) as [-> | Hne].
           + rewrite lookup_insert_eq. eauto.
           + rewrite lookup_insert_ne by exact Hne. apply Hsub, Hk. }
    all: destruct (IH hist1) as (Hrs & Hks & Hdom);
      assert (Hrs' : Forall (λ a, a ∈ p :: q ∧ is_marker a = true)
                       (tick_items now q hist1).1.2)
        by (eapply Forall_impl; [exact Hrs |]; intros a [Ha Hm];
            split; [right; exact Ha | exact Hm]);
      assert (Hks' : Forall (λ a, a ∈ p :: q) (tick_items now q hist1).2)
        by (eapply Forall_impl; [exact Hks |]; intros a Ha; right; exact Ha);
      destruct (_ || _);
      destruct (tick_items now q hist1) as [[h rs] ks]; simpl in *;
      (split; [exact Hrs' | split; [| intros k Hk; apply Hdom, Hsub, Hk]]);
      try exact Hks'; (constructor; [left | exact Hks']).
Qed.

Lemma for_ip_true (x : Z) (p : Waiting_Packet) :
  for_ip x p = true ↔ dst_ip p = x.
Proof. unfold for_ip. apply Z.eqb_eq. Qed.

Lemma for_ip_false (x : Z) (p : Waiting_Packet) :
  for_ip x p = false ↔ dst_ip p ≠ x.
Proof. unfold for_ip. apply Z.eqb_neq. Qed.

(** An item for another address than [x]: whatever [tick] does with it, the
    record of [x] and the items for [x] are as without it. *)
Lemma tick_items_other (now x : Z) (p : Waiting_Packet)
    (q : list Waiting_Packet) (hist : gmap Z Z) :
  dst_ip p ≠ x →
  ∃ hist', hist' !! x = hist !! x
    ∧ (tick_items now (p :: q) hist).1.1 = (tick_items now q hist').1.1
    ∧ List.filter (for_ip x) (tick_items now (p :: q) hist).1.2
      = List.filter (for_ip x) (tick_items now q hist').1.2
    ∧ List.filter (for_ip x) (tick_items now (p :: q) hist).2
      = List.filter (for_ip x) (tick_items now q hist').2.
Proof.
  intros Hne. simpl.
  pose proof (subscript_lookup_ne hist (dst_ip p) x Hne) as Hsub.
  destruct (subscript hist (dst_ip p)) as [t hist1]. simpl in Hsub.
  apply for_ip_false in Hne as Hf.
  destruct (_ && _).
  - exists (<[dst_ip p:=now]> hist1).
    split; [rewrite lookup_insert_ne by exact Hne; exact Hsub |].
    destruct (tick_items now q (<[dst_ip p:=now]> hist1)) as [[h rs] ks].
    simpl. rewrite Hf. auto.
  - exists hist1. split; [exact Hsub |].
    destruct (_ || _); [| auto].
    destruct (tick_items now q hist1) as [[h rs] ks]. simpl. rewrite Hf. auto.
Qed.

(** An item for [x] that is not resent: the record keeps its value. *)
Lemma tick_items_not_due (now x h : Z) (p : Waiting_Packet)
    (q : list Waiting_Packet) (hist : gmap Z Z) :
  dst_ip p = x →
  hist !! x = Some h →
  (MAX_WAITING_TIME <=? size_sub now h) && is_marker p = false →
  (tick_items now (p :: q) hist).1.1 = (tick_items now q hist).1.1
  ∧ (tick_items now (p :: q) hist).1.2 = (tick_items now q hist).1.2
  ∧ (tick_items now (p :: q) hist).2
    = (if survives now p then [p] else []) ++ (tick_items now q hist).2.
Proof.
  intros Hp Hh Hnd. simpl. rewrite Hp, (subscript_present _ _ _ Hh), Hnd.
  fold (survives now p).
  destruct (survives now p); [| auto].
  destruct (tick_items now q hist) as [[h' rs] ks]. auto.
Qed.

(** A record younger than [MAX_WAITING_TIME], or a queue without marker for
    [x]: nothing is resent for [x], the record is untouched, and of the
    items for [x] the IPv4-typed and the young ones are kept. *)
Lemma tick_items_quiet (now x h : Z) (q : list Waiting_Packet)
    (hist : gmap Z Z) :
  hist !! x = Some h →
  size_sub now h < MAX_WAITING_TIME
    ∨ Forall (λ p, for_ip x p && is_marker p = false) q →
  (tick_items now q hist).1.1 !! x = Some h
  ∧ List.filter (for_ip x) (tick_items now q hist).1.2 = []
  ∧ List.filter (for_ip x) (tick_items now q hist).2
    = List.filter (λ p, for_ip x p && survives now p) q.
Proof.
  revert hist. induction q as [| p q IH]; intros hist Hh Hquiet.
  - simpl. auto.
  - assert (Hquiet' : size_sub now h < MAX_WAITING_TIME
                      ∨ Forall (λ p, for_ip x p && is_marker p = false) q).
    { destruct Hquiet as [Hy | Hnm]; [left; exact Hy |].
      right. apply Forall_cons in Hnm as [_ Hnm]. exact Hnm. }
    destruct (decide (dst_ip p = x)) as [Hp | Hne].
    + assert (Hnd : (MAX_WAITING_TIME <=? size_sub now h) && is_marker p = false).
      { destruct Hquiet as [Hy | Hnm].
        - destruct (Z.leb_spec MAX_WAITING_TIME (size_sub now h)); [lia | reflexivity].
        - apply Forall_cons in Hnm as [Hm _].
          apply for_ip_true in Hp. rewrite Hp in Hm. simpl in Hm.
          rewrite Hm. apply andb_false_r. }
      destruct (tick_items_not_due now x h p q hist Hp Hh Hnd) as (-> & -> & ->).
      destruct (IH hist Hh Hquiet') as (IH1 & IH2 & IH3).
      split; [exact IH1 |]. split; [exact IH2 |].
      apply for_ip_true in Hp. simpl. rewrite Hp. simpl.
      destruct (survives now p); simpl; [rewrite Hp |]; rewrite IH3; reflexivity.
    + destruct (tick_items_other now x p q hist Hne)
        as (hist' & Hh' & -> & -> & ->).
      rewrite Hh in Hh'.
      destruct (IH hist' Hh' Hquiet') as (IH1 & IH2 & IH3).
      split; [exact IH1 |]. split; [exact IH2 |].
      apply for_ip_false in Hne. simpl. rewrite Hne. simpl. exact IH3.
Qed.

(** A stale record and a marker for [x] in the queue: the first such marker
    is resent, no other item for [x] is, and the record becomes the current
    time. *)
Lemma tick_items_fire (now x h : Z) (q1 : list Waiting_Packet)
    (m : Waiting_Packet) (q2 : list Waiting_Packet) (hist : gmap Z Z) :
  hist !! x = Some h →
  MAX_WAITING_TIME ≤ size_sub now h →
  Forall (λ p, for_ip x p && is_marker p = false) q1 →
  for_ip x m = true → is_marker m = true →
  (tick_items now (q1 ++ m :: q2) hist).1.1 !! x = Some now
  ∧ List.filter (for_ip x) (tick_items now (q1 ++ m :: q2) hist).1.2 = [m]
  ∧ List.filter (for_ip x) (tick_items now (q1 ++ m :: q2) hist).2
    = List.filter (λ p, for_ip x p && survives now p) (q1 ++ q2).
Proof.
  intros Hh Hstale Hq1 Hm Hmk. revert hist Hh.
  induction q1 as [| p q1 IH]; intros hist Hh.
  - simpl. apply for_ip_true in Hm as Hx.
    rewrite Hx, (subscript_present _ _ _ Hh), Hmk.
    destruct (Z.leb_spec MAX_WAITING_TIME (size_sub now h)); [| lia]. simpl.
    assert (Hnow : (<[x:=now]> hist) !! x = Some now) by apply lookup_insert_eq.
    destruct (tick_items_quiet now x now q2 (<[x:=now]> hist) Hnow)
      as (Q1 & Q2 & Q3).
    { left. rewrite size_sub_diag. reflexivity. }
    destruct (tick_items now q2 (<[x:=now]> hist)) as [[h' rs] ks].
    simpl in *. rewrite Hm, Q2. auto.
  - apply Forall_cons in Hq1 as [Hp Hq1]. specialize (IH Hq1).
    change ((p :: q1) ++ m :: q2) with (p :: (q1 ++ m :: q2)).
    destruct (decide (dst_ip p = x)) as [Hpx | Hne].
    + assert (Hnd : (MAX_WAITING_TIME <=? size_sub now h) && is_marker p = false).
      { apply for_ip_true in Hpx. rewrite Hpx in Hp. simpl in Hp.
        rewrite Hp. apply andb_false_r. }
      destruct (tick_items_not_due now x h p (q1 ++ m :: q2) hist Hpx Hh Hnd)
        as (-> & -> & ->).
      destruct (IH hist Hh) as (IH1 & IH2 & IH3).
      split; [exact IH1 |]. split; [exact IH2 |].
      apply for_ip_true in Hpx. simpl. rewrite Hpx. simpl.
      destruct (survives now p); simpl; [rewrite Hpx |]; rewrite IH3; reflexivity.
    + destruct (tick_items_other now x p (q1 ++ m :: q2) hist Hne)
        as (hist' & Hh' & -> & -> & ->).
      rewrite Hh in Hh'.
      destruct (IH hist' Hh') as (IH1 & IH2 & IH3).
      split; [exact IH1 |]. split; [exact IH2 |].
      apply for_ip_false in Hne. simpl. rewrite Hne. simpl. exact IH3.
Qed.

(** No item for [x] in the queue: nothing happens for [x]. *)
Lemma tick_items_absent (now x : Z) (q : list Waiting_Packet)
    (hist : gmap Z Z) :
  Forall (λ p, for_ip x p = false) q →
  (tick_items now q hist).1.1 !! x = hist !! x
  ∧ List.filter (for_ip x) (tick_items now q hist).1.2 = []
  ∧ List.filter (for_ip x) (tick_items now q hist).2 = [].
Proof.
  revert hist. induction q as [| p q IH]; intros hist Hq.
  - simpl. auto.
  - apply Forall_cons in Hq as [Hp Hq]. apply for_ip_false in Hp.
    destruct (tick_items_other now x p q hist Hp) as (hist' & Hh' & -> & -> & ->).
    rewrite <- Hh'. apply IH, Hq.
Qed.

(** ** Retransmission on [tick] *)

Lemma filter_filter_andb {A : Type} (f g : A → bool) (l : list A) :
  List.filter f (List.filter g l) = List.filter (λ a, g a && f a) l.
Proof.
  induction l as [| a l IH]; [reflexivity |]. simpl.
  destruct (g a); simpl; [destruct (f a) |]; rewrite IH; reflexivity.
Qed.

Lemma tick_fields (ms now : Z) (ni : NetworkInterface) :
  let now' := size_add now ms in
  let r := tick_items now' (waiting_q ni) (request_history ni) in
  (tick ms now ni).1 = now'
  ∧ request_history (tick ms now ni).2 = r.1.1
  ∧ ready2_sent_q (tick ms now ni).2
    = ready2_sent_q ni ++ map waiting_frame (resent_items ms now ni)
  ∧ waiting_q (tick ms now ni).2 = r.2
  ∧ ARP_table (tick ms now ni).2
    = erase_all (expired_ip now' (ARP_table ni)) (ARP_table ni)
  ∧ ethernet_address_ (tick ms now ni).2 = ethernet_address_ ni
  ∧ ip_address_ (tick ms now ni).2 = ip_address_ ni.
Proof.
  intros now' r. pose proof (tick_unfold ms now ni) as E. simpl in E.
  rewrite E. simpl. unfold resent_items. repeat split; reflexivity.
Qed.

(** Every item of the waiting queue is resent, kept or dropped, so the
    resent and the kept items together are no more than the queue held. *)
Lemma tick_items_split_length (now : Z) (q : list Waiting_Packet)
    (hist : gmap Z Z) :
  (length (tick_items now q hist).1.2 + length (tick_items now q hist).2
   ≤ length q)%nat.
Proof.
  revert hist. induction q as [| p q IH]; intros hist; [simpl; lia |].
  simpl. destruct (subscript hist (dst_ip p)) as [t hist1].
  destruct ((MAX_WAITING_TIME <=? size_sub now t) && is_marker p).
  - specialize (IH (<[dst_ip p:=now]> hist1)).
    destruct (tick_items now q (<[dst_ip p:=now]> hist1)) as [[h rs] ks].
    simpl in *. lia.
  - specialize (IH hist1).
    destruct (is_dgram_item p
              || (size_sub now (time p) <? MAX_WAITING_TIME)).
    + destruct (tick_items now q hist1) as [[h rs] ks]. simpl in *. lia.
    + lia.
Qed.

Section TickProperties.
Context `{Codec}.

(** C4, as the code has it.  With a request record for [x] at least
    [MAX_WAITING_TIME] old at the new clock value, [tick] resends for [x]
    exactly when the waiting queue holds a retry marker for [x]: then the
    frame of the first such marker, and of no other item for [x], is
    pushed on the ready queue, the record is set to the clock value, and
    that marker leaves the waiting queue: the items for [x] still waiting
    are those of the rest of the queue that the tick keeps, and the queue
    is shorter than it was.  Without such a marker nothing is pushed for
    [x], the record keeps its value and the datagram items for [x] stay
    queued. *)
Theorem tick_resends_for_marker_only (ms now : Z) (ni : NetworkInterface)
    (x h : Z) :
  request_history ni !! x = Some h →
  MAX_WAITING_TIME ≤ size_sub (size_add now ms) h →
  let ni' := (tick ms now ni).2 in
  ready2_sent_q ni'
    = ready2_sent_q ni ++ map waiting_frame (resent_items ms now ni)
  ∧ (∀ q1 m q2,
       waiting_q ni = q1 ++ m :: q2 →
       Forall (λ p, for_ip x p && is_marker p = false) q1 →
       for_ip x m = true → is_marker m = true →
       List.filter (for_ip x) (resent_items ms now ni) = [m]
       ∧ request_history ni' !! x = Some (size_add now ms)
       ∧ (queue_wf ni → waiting_frame m = ARP_request_frame ni x)
       ∧ List.filter (for_ip x) (waiting_q ni')
         = List.filter (λ p, for_ip x p && survives (size_add now ms) p)
             (q1 ++ q2)
       ∧ (length (waiting_q ni') < length (waiting_q ni))%nat)
  ∧ (Forall (λ p, for_ip x p && is_marker p = false) (waiting_q ni) →
       List.filter (for_ip x) (resent_items ms now ni) = []
       ∧ request_history ni' !! x = Some h
       ∧ List.filter (λ p, for_ip x p && is_dgram_item p) (waiting_q ni')
         = List.filter (λ p, for_ip x p && is_dgram_item p) (waiting_q ni)).
Proof.
  intros Hh Hstale ni'.
  destruct (tick_fields ms now ni) as (_ & Ehist & Eready & Ewait & _).
  subst ni'. split; [exact Eready |]. split.
  - intros q1 m q2 Hq Hq1 Hm Hmk.
    rewrite Ehist. unfold resent_items. rewrite Hq.
    destruct (tick_items_fire (size_add now ms) x h q1 m q2
                (request_history ni) Hh Hstale Hq1 Hm Hmk) as (F1 & F2 & F3).
    split; [exact F2 |]. split; [exact F1 |]. split.
    { intros Hwf. apply for_ip_true in Hm. rewrite <- Hm.
      apply Hwf; [| exact Hmk]. rewrite Hq. apply elem_of_app. right. left. }
    rewrite Ewait, Hq. split; [exact F3 |].
    pose proof (tick_items_split_length (size_add now ms) (q1 ++ m :: q2)
                  (request_history ni)) as Hlen.
    destruct ((tick_items (size_add now ms) (q1 ++ m :: q2)
                 (request_history ni)).1.2) as [| r rs];
      [discriminate F2 | simpl in Hlen; lia].
  - intros Hnone. rewrite Ehist, Ewait. unfold resent_items.
    destruct (tick_items_quiet (size_add now ms) x h (waiting_q ni)
                (request_history ni) Hh (or_intror Hnone)) as (Q1 & Q2 & Q3).
    split; [exact Q2 |]. split; [exact Q1 |].
    rewrite <- (filter_filter_andb is_dgram_item (for_ip x)), Q3.
    rewrite filter_filter_andb. apply List.filter_ext. intros p.
    unfold survives.
    destruct (for_ip x p), (is_dgram_item p); simpl;
      rewrite ?andb_false_r; reflexivity.
Qed.

(** C9, as the code has it.  The retry marker that [send_datagram] queues
    while the request for [x] is younger than [MAX_WAITING_TIME] carries
    the creation time [SIZE_MAX].  At a [tick] whose new clock value [c]
    still finds the record of [x] younger than [MAX_WAITING_TIME], nothing
    is resent for [x], and an item for [x] that is not IPv4-typed and
    carries [SIZE_MAX] is retained iff [(c - SIZE_MAX) mod 2^64 < 5000];
    this number is [c + 1] for every clock value but the last one,
    [2^64 - 1], where it is [0].  Hence such a marker is discarded at
    every clock value from [4999] to [2^64 - 2], and retained below [4999]
    and at [2^64 - 1]. *)
Theorem retry_marker_lifetime (now : Z) (ni : NetworkInterface) (x h : Z) :
  request_history ni !! x = Some h →
  (∀ dgram, ARP_table ni !! x = None →
     size_sub now h < MAX_WAITING_TIME →
     let marker := {| dst_ip := x;
                      waiting_frame := ARP_request_frame ni x;
                      time := SIZE_MAX |} in
     waiting_q (send_datagram now dgram x ni)
       = waiting_q ni
         ++ [marker;
             {| dst_ip := x;
                waiting_frame := ether_frame_no_MAC ni dgram;
                time := now |}]
     ∧ is_marker marker = true ∧ is_dgram_item marker = false)
  ∧ (∀ ms, let c := size_add now ms in
     size_sub c h < MAX_WAITING_TIME →
     ready2_sent_q (tick ms now ni).2
       = ready2_sent_q ni ++ map waiting_frame (resent_items ms now ni)
     ∧ List.filter (for_ip x) (resent_items ms now ni) = []
     ∧ List.filter (for_ip x) (waiting_q (tick ms now ni).2)
       = List.filter (λ p, for_ip x p && survives c p) (waiting_q ni)
     ∧ ∀ m, dst_ip m = x → is_dgram_item m = false → time m = SIZE_MAX →
         (m ∈ waiting_q (tick ms now ni).2
          ↔ m ∈ waiting_q ni ∧ size_sub c SIZE_MAX < MAX_WAITING_TIME)
         ∧ size_sub c SIZE_MAX = (if c =? 2 ^ 64 - 1 then 0 else c + 1)
         ∧ (4999 ≤ c < 2 ^ 64 - 1 → m ∉ waiting_q (tick ms now ni).2)
         ∧ (c < 4999 ∨ c = 2 ^ 64 - 1 →
            m ∈ waiting_q ni → m ∈ waiting_q (tick ms now ni).2)).
Proof.
  intros Hh. split.
  - intros dgram Hcache Hyoung marker. unfold send_datagram.
    rewrite Hcache, Hh.
    destruct (Z.ltb_spec (size_sub now h) MAX_WAITING_TIME); [| lia].
    simpl. rewrite <- app_assoc. repeat split; reflexivity.
  - intros ms c Hyoung.
    destruct (tick_fields ms now ni) as (_ & _ & Eready & Ewait & _).
    destruct (tick_items_quiet c x h (waiting_q ni) (request_history ni)
                Hh (or_introl Hyoung)) as (_ & Q2 & Q3).
    split; [exact Eready |].
    split; [exact Q2 |]. rewrite Ewait. fold c. split; [exact Q3 |].
    intros m Hm Hnd Htime.
    assert (Hc : 0 ≤ c < 2 ^ 64) by apply size_add_range.
    pose proof (size_sub_SIZE_MAX c Hc) as Hsub.
    assert (Hmem : m ∈ (tick_items c (waiting_q ni) (request_history ni)).2
                   ↔ m ∈ waiting_q ni ∧ size_sub c SIZE_MAX < MAX_WAITING_TIME).
    { apply for_ip_true in Hm.
      transitivity (m ∈ List.filter (for_ip x)
                          (tick_items c (waiting_q ni) (request_history ni)).2).
      - rewrite !list_elem_of_In, filter_In. rewrite Hm. tauto.
      - rewrite Q3, !list_elem_of_In, filter_In. rewrite Hm.
        unfold survives. rewrite Hnd, Htime. simpl.
        rewrite Z.ltb_lt. reflexivity. }
    split; [exact Hmem |]. split; [exact Hsub |]. split.
    + intros Hrange Hin. apply Hmem in Hin as [_ Hlt].
      rewrite Hsub in Hlt. unfold MAX_WAITING_TIME in Hlt.
      destruct (Z.eqb_spec c (2 ^ 64 - 1)); lia.
    + intros Hrange Hin. apply Hmem. split; [exact Hin |].
      rewrite Hsub. unfold MAX_WAITING_TIME.
      destruct (Z.eqb_spec c (2 ^ 64 - 1)); lia.
Qed.

End TickProperties.

(** ** Cache expiry *)

Lemma erase_all_lookup (ks : list Z) (t : gmap Z Ether_Addr_Entry) (k : Z) :
  erase_all ks t !! k = if decide (k ∈ ks) then None else t !! k.
Proof.
  unfold erase_all. revert t. induction ks as [| a ks IH]; intros t; simpl.
  - destruct (decide (k ∈ [])) as [Hin | _]; [inversion Hin | reflexivity].
  - rewrite IH.
    destruct (decide (k ∈ ks)) as [Hin | Hnin].
    + destruct (decide (k ∈ a :: ks)) as [_ | Hn]; [reflexivity |].
      exfalso. apply Hn. right. exact Hin.
    + destruct (decide (k = a)) as [-> | Hne].
      * rewrite lookup_delete_eq.
        destruct (decide (a ∈ a :: ks)) as [_ | Hn]; [reflexivity |].
        exfalso. apply Hn. left.
      * rewrite lookup_delete_ne by congruence.
        destruct (decide (k ∈ a :: ks)) as [Hin | _]; [| reflexivity].
        apply elem_of_cons in Hin as [? | ?]; contradiction.
Qed.

Lemma expired_ip_elem (now : Z) (t : gmap Z Ether_Addr_Entry) (k : Z) :
  k ∈ expired_ip now t
  ↔ ∃ e, t !! k = Some e ∧ MAX_CACHE_TIME < size_sub now (caching_time e).
Proof.
  unfold expired_ip. rewrite list_elem_of_fmap. split.
  - intros ([k' e] & -> & Hin). apply elem_of_map_to_list in Hin.
    apply map_lookup_filter_Some in Hin as [Hk He]. exists e. split; assumption.
  - intros (e & Hk & He). exists (k, e). split; [reflexivity |].
    apply elem_of_map_to_list, map_lookup_filter_Some. split; assumption.
Qed.

(** The cache after a [tick]: exactly the entries whose age at the new clock
    value is at most [MAX_CACHE_TIME]. *)
Lemma tick_cache_lookup (ms now : Z) (ni : NetworkInterface) (k : Z) :
  ARP_table (tick ms now ni).2 !! k =
    match ARP_table ni !! k with
    | Some e =>
        if MAX_CACHE_TIME <? size_sub (size_add now ms) (caching_time e)
        then None else Some e
    | None => None
    end.
Proof.
  destruct (tick_fields ms now ni) as (_ & _ & _ & _ & -> & _).
  rewrite erase_all_lookup.
  destruct (decide (k ∈ expired_ip (size_add now ms) (ARP_table ni)))
    as [Hin | Hnin].
  - apply expired_ip_elem in Hin as (e & -> & He).
    destruct (Z.ltb_spec MAX_CACHE_TIME
                (size_sub (size_add now ms) (caching_time e))); [reflexivity | lia].
  - destruct (ARP_table ni !! k) as [e |] eqn:Hk; [| reflexivity].
    destruct (Z.ltb_spec MAX_CACHE_TIME
                (size_sub (size_add now ms) (caching_time e))) as [He |];
      [| reflexivity].
    exfalso. apply Hnin, expired_ip_elem. exists e. split; assumption.
Qed.

(** Without wrap-around the age of a timestamp grows by the tick. *)
Lemma size_sub_add_exact (c ms t : Z) :
  0 ≤ ms → size_sub c t + ms < 2 ^ 64 →
  size_sub (size_add c ms) t = size_sub c t + ms.
Proof.
  intros Hms Hlt. unfold size_sub, size_add.
  replace (((c + ms) mod 2 ^ 64 - t) mod 2 ^ 64)
    with (((c - t) mod 2 ^ 64 + ms) mod 2 ^ 64).
  - apply Z.mod_small. unfold size_sub in Hlt.
    pose proof (Z.mod_pos_bound (c - t) (2 ^ 64) ltac:(lia)). lia.
  - rewrite Zplus_mod_idemp_l, Zminus_mod_idemp_l. f_equal. lia.
Qed.

Section ExpiryProperties.
Context `{Codec}.

(** What [send_datagram] does for an address that is not in the cache. *)
Lemma send_datagram_unresolved (now : Z) (dgram : InternetDatagram) (x : Z)
    (ni : NetworkInterface) :
  ARP_table ni !! x = None →
  let fresh :=
    match request_history ni !! x with
    | None => true
    | Some h => negb (size_sub now h <? MAX_WAITING_TIME)
    end in
  let item := {| dst_ip := x; waiting_frame := ether_frame_no_MAC ni dgram;
                 time := now |} in
  let marker := {| dst_ip := x; waiting_frame := ARP_request_frame ni x;
                   time := SIZE_MAX |} in
  send_datagram now dgram x ni =
    {| ethernet_address_ := ethernet_address_ ni;
       ip_address_ := ip_address_ ni;
       ARP_table := ARP_table ni;
       ready2_sent_q :=
         ready2_sent_q ni ++ (if fresh then [ARP_request_frame ni x] else []);
       waiting_q :=
         waiting_q ni ++ (if fresh then [item] else [marker; item]);
       request_history :=
         if fresh then <[x := now]> (request_history ni)
         else request_history ni |}.
Proof.
  intros Hx fresh item marker. unfold send_datagram. rewrite Hx.
  subst fresh. destruct (request_history ni !! x) as [h |]; simpl.
  - destruct (size_sub now h <? MAX_WAITING_TIME); simpl.
    + rewrite app_nil_r, <- app_assoc. reflexivity.
    + reflexivity.
  - reflexivity.
Qed.

(** What [send_datagram] does for an address that is in the cache. *)
Lemma send_datagram_resolved (now : Z) (dgram : InternetDatagram) (x : Z)
    (ni : NetworkInterface) (e : Ether_Addr_Entry) :
  ARP_table ni !! x = Some e →
  send_datagram now dgram x ni =
    set_ready2_sent_q
      (ready2_sent_q ni
       ++ [make_ethernet_frame (MAC_addr e) (ethernet_address_ ni) TYPE_IPv4
             (serialize_dgram dgram)]) ni.
Proof. intros Hx. unfold send_datagram. rewrite Hx. reflexivity. Qed.

(** [send_datagram] leaves the cache and the link address as they are. *)
Lemma send_datagram_cache (now : Z) (dgram : InternetDatagram) (y : Z)
    (ni : NetworkInterface) :
  ARP_table (send_datagram now dgram y ni) = ARP_table ni
  ∧ ethernet_address_ (send_datagram now dgram y ni) = ethernet_address_ ni.
Proof.
  destruct (ARP_table ni !! y) as [e |] eqn:Hy.
  - rewrite (send_datagram_resolved now dgram y ni e Hy). split; reflexivity.
  - rewrite (send_datagram_unresolved now dgram y ni Hy). split; reflexivity.
Qed.

(** [recv_frame] removes no cache entry, and leaves the entry of every
    address that the frame does not refresh as it is. *)
Lemma recv_frame_cache (now : Z) (frame : EthernetFrame)
    (ni : NetworkInterface) :
  ethernet_address_ (recv_frame now frame ni).1 = ethernet_address_ ni
  ∧ (∀ k e, ARP_table ni !! k = Some e →
       is_Some (ARP_table (recv_frame now frame ni).1 !! k))
  ∧ (∀ k, refreshes (ethernet_address_ ni) k frame = false →
       ARP_table (recv_frame now frame ni).1 !! k = ARP_table ni !! k).
Proof.
  unfold recv_frame, refreshes. cbv zeta.
  assert (Hsame : ethernet_address_ ni = ethernet_address_ ni
    ∧ (∀ k e, ARP_table ni !! k = Some e → is_Some (ARP_table ni !! k))
    ∧ (∀ k : Z, ARP_table ni !! k = ARP_table ni !! k)) by eauto.
  destruct (Z.eqb_spec (type (header frame)) TYPE_ARP) as [Hty | Hty].
  - rewrite Hty. change (TYPE_ARP =? TYPE_IPv4) with false.
    rewrite !andb_false_r, !andb_true_r.
    destruct ((dst (header frame) =? ethernet_address_ ni)
              || (dst (header frame) =? ETHERNET_BROADCAST));
      [| simpl; split; [reflexivity |]; split; [eauto | reflexivity]].
    destruct (parse_arp (payload frame)) as [msg |];
      [| simpl; split; [reflexivity |]; split; [eauto | reflexivity]].
    assert (Hlearn : ∀ k e, ARP_table ni !! k = Some e →
              is_Some ((<[sender_ip_address msg :=
                            {| MAC_addr := sender_ethernet_address msg;
                               caching_time := now |}]> (ARP_table ni)) !! k)).
    { intros k e Hk.
      destruct (decide (sender_ip_address msg = k)) as [-> | Hne];
        [rewrite lookup_insert_eq | rewrite lookup_insert_ne by exact Hne];
        eauto. }
    assert (Hother : ∀ k, true && (sender_ip_address msg =? k) = false →
              (<[sender_ip_address msg :=
                   {| MAC_addr := sender_ethernet_address msg;
                      caching_time := now |}]> (ARP_table ni)) !! k
              = ARP_table ni !! k).
    { intros k Hk. simpl in Hk. apply Z.eqb_neq in Hk.
      apply lookup_insert_ne. exact Hk. }
    destruct ((opcode msg =? OPCODE_REQUEST)
              && (ip_address_ ni =? target_ip_address msg));
      [simpl; auto |].
    destruct ((opcode msg =? OPCODE_REPLY)
              && (ip_address_ ni =? target_ip_address msg)); [| simpl; auto].
    simpl.
    destruct (flush_waiting (sender_ip_address msg)
                (sender_ethernet_address msg) (waiting_q ni)
                (ready2_sent_q ni, [])) as [ready temp_q].
    simpl. auto.
  - rewrite !andb_false_r. simpl.
    destruct ((dst (header frame) =? ethernet_address_ ni)
              && (type (header frame) =? TYPE_IPv4)); simpl;
      (split; [reflexivity |]; split; [eauto | reflexivity]).
Qed.

(** No call changes the link address of the interface. *)
Lemma step_ethernet_address (o : op) (s : Z * NetworkInterface) :
  ethernet_address_ (step o s).2 = ethernet_address_ s.2.
Proof.
  destruct o as [dgram y | frame | ms]; simpl.
  - apply send_datagram_cache.
  - apply recv_frame_cache.
  - destruct (tick_fields ms s.1 s.2) as (_ & _ & _ & _ & _ & E & _). exact E.
Qed.

(** Without a [tick] no time elapses. *)
Lemma run_elapsed_no_tick (ops : list op) :
  existsb is_tick ops = false → run_elapsed ops = 0.
Proof.
  induction ops as [| o ops IH]; [reflexivity |].
  simpl. intros Hno. apply orb_false_iff in Hno as [Ho Hno].
  unfold run_elapsed in *. simpl. rewrite (IH Hno).
  destruct o; [reflexivity | reflexivity | discriminate Ho].
Qed.

Lemma run_elapsed_nonneg (ops : list op) :
  Forall wf_op ops → 0 ≤ run_elapsed ops.
Proof.
  induction 1 as [| o ops Ho _ IH]; [reflexivity |].
  unfold run_elapsed in *. simpl.
  destruct o; simpl in *; lia.
Qed.

(** A run without a refreshing frame never brings the entry back. *)
Lemma quiet_run_cache_none (ops : list op) (s : Z * NetworkInterface)
    (x : Z) :
  Forall (no_refresh (ethernet_address_ s.2) x) ops →
  ARP_table s.2 !! x = None →
  ARP_table (steps ops s).2 !! x = None.
Proof.
  revert s. induction ops as [| o ops IH]; intros s Hq Hx; [exact Hx |].
  apply Forall_cons in Hq as [Ho Hq].
  change (steps (o :: ops) s) with (steps ops (step o s)).
  apply IH.
  - rewrite step_ethernet_address. exact Hq.
  - destruct o as [dgram y | frame | ms]; simpl.
    + destruct (send_datagram_cache s.1 dgram y s.2) as [-> _]. exact Hx.
    + destruct (recv_frame_cache s.1 frame s.2) as (_ & _ & Hk).
      rewrite (Hk x Ho). exact Hx.
    + rewrite tick_cache_lookup, Hx. reflexivity.
Qed.

(** A run without a refreshing frame and without wrap-around of the age of
    the entry: the entry is gone, or it is as it was and its age, the
    initial age plus the elapsed time, did not exceed [MAX_CACHE_TIME] at
    the last [tick]. *)
Lemma quiet_run_cache (ops : list op) (s : Z * NetworkInterface)
    (x : Z) (e : Ether_Addr_Entry) :
  Forall wf_op ops →
  Forall (no_refresh (ethernet_address_ s.2) x) ops →
  ARP_table s.2 !! x = Some e →
  size_sub s.1 (caching_time e) + run_elapsed ops < 2 ^ 64 →
  ARP_table (steps ops s).2 !! x = None
  ∨ (ARP_table (steps ops s).2 !! x = Some e
     ∧ (existsb is_tick ops = true →
        size_sub s.1 (caching_time e) + run_elapsed ops ≤ MAX_CACHE_TIME)).
Proof.
  revert s. induction ops as [| o ops IH]; intros s Hwf Hq Hx Hsum.
  - right. split; [exact Hx | discriminate].
  - apply Forall_cons in Hwf as [Hwo Hwf]. apply Forall_cons in Hq as [Ho Hq].
    change (steps (o :: ops) s) with (steps ops (step o s)).
    rewrite <- (step_ethernet_address o s) in Hq.
    pose proof (run_elapsed_nonneg ops Hwf) as Hnn.
    change (run_elapsed (o :: ops)) with (elapsed_after o (run_elapsed ops))
      in *.
    destruct o as [dgram y | frame | ms].
    + apply (IH (step (OpSend dgram y) s) Hwf Hq); simpl.
      * destruct (send_datagram_cache s.1 dgram y s.2) as [-> _]. exact Hx.
      * exact Hsum.
    + apply (IH (step (OpRecv frame) s) Hwf Hq); simpl.
      * destruct (recv_frame_cache s.1 frame s.2) as (_ & _ & Hk).
        rewrite (Hk x Ho). exact Hx.
      * exact Hsum.
    + simpl in Hwo, Hsum |- *.
      pose proof (tick_cache_lookup ms s.1 s.2 x) as Hc. rewrite Hx in Hc.
      destruct (tick_fields ms s.1 s.2) as (Hclock & _).
      pose proof (size_sub_add_exact s.1 ms (caching_time e)
                    ltac:(lia) ltac:(lia)) as Hage.
      destruct (Z.ltb_spec MAX_CACHE_TIME
                  (size_sub (size_add s.1 ms) (caching_time e)))
        as [Hold | Hfresh].
      * left. apply quiet_run_cache_none; assumption.
      * destruct (IH (step (OpTick ms) s) Hwf Hq Hc) as [Hn | [Hs Hle]].
        -- simpl. rewrite Hclock. lia.
        -- left. exact Hn.
        -- right. split; [exact Hs |]. intros _.
           destruct (existsb is_tick ops) eqn:Et.
           ++ specialize (Hle eq_refl). simpl in Hle. rewrite Hclock in Hle.
              lia.
           ++ rewrite (run_elapsed_no_tick ops Et). lia.
Qed.

(** C6, as the code has it.  Every [tick] evicts exactly the cache entries
    whose age at the new clock value, computed modulo [2^64], exceeds
    [MAX_CACHE_TIME].  Hence, after any run of [send_datagram], [recv_frame]
    and [tick] calls that holds a [tick], in which no received frame
    refreshes the entry for [x], and whose elapsed time brings the age of
    that entry above [MAX_CACHE_TIME] without wrapping it, the entry is
    gone, and a following [send_datagram] to [x] does not use the old link
    address: it queues the datagram with an unset destination, and pushes
    one broadcast ARP request, refreshing the record, when [x] has no
    request record or one at least [MAX_WAITING_TIME] old, and no frame at
    all when the record is younger. *)
Theorem cache_expiry_then_send (ops : list op) (now : Z) (ni : NetworkInterface)
    (x : Z) (e : Ether_Addr_Entry) :
  (∀ ms k, ARP_table (tick ms now ni).2 !! k =
     match ARP_table ni !! k with
     | Some e' =>
         if MAX_CACHE_TIME <? size_sub (size_add now ms) (caching_time e')
         then None else Some e'
     | None => None
     end)
  ∧ (Forall wf_op ops →
     Forall (no_refresh (ethernet_address_ ni) x) ops →
     existsb is_tick ops = true →
     ARP_table ni !! x = Some e →
     MAX_CACHE_TIME < size_sub now (caching_time e) + run_elapsed ops →
     size_sub now (caching_time e) + run_elapsed ops < 2 ^ 64 →
     let s := steps ops (now, ni) in
     ARP_table s.2 !! x = None
     ∧ ∀ dgram,
         let ni' := send_datagram s.1 dgram x s.2 in
         let fresh :=
           match request_history s.2 !! x with
           | None => true
           | Some h => negb (size_sub s.1 h <? MAX_WAITING_TIME)
           end in
         ready2_sent_q ni' =
           ready2_sent_q s.2
           ++ (if fresh then [ARP_request_frame s.2 x] else [])
         ∧ last (waiting_q ni') =
             Some {| dst_ip := x;
                     waiting_frame := ether_frame_no_MAC s.2 dgram;
                     time := s.1 |}
         ∧ (fresh = true → request_history ni' !! x = Some s.1)).
Proof.
  split; [intros ms k; apply tick_cache_lookup |].
  intros Hwf Hquiet Htick Hx Hold Hnowrap s.
  assert (Hgone : ARP_table s.2 !! x = None).
  { destruct (quiet_run_cache ops (now, ni) x e Hwf Hquiet Hx Hnowrap)
      as [Hn | [_ Hle]]; [exact Hn |].
    specialize (Hle Htick). simpl in Hle. lia. }
  split; [exact Hgone |]. intros dgram ni' fresh. subst ni'.
  rewrite (send_datagram_unresolved s.1 dgram x s.2 Hgone). simpl.
  fold fresh. split; [reflexivity |]. split.
  - destruct fresh; [apply last_snoc |].
    change [?a; ?b] with ([a] ++ [b]). rewrite app_assoc. apply last_snoc.
  - intros ->. apply lookup_insert_eq.
Qed.

End ExpiryProperties.

(** ** Runs: the invariant of the waiting queue and the spacing of requests *)

Lemma first_true_split {A : Type} (f : A → bool) (l : list A) :
  Forall (λ a, f a = false) l
  ∨ ∃ l1 m l2, l = l1 ++ m :: l2 ∧ Forall (λ a, f a = false) l1 ∧ f m = true.
Proof.
  induction l as [| a l IH]; [left; constructor |].
  destruct (f a) eqn:Ea.
  - right. exists [], a, l. split; [reflexivity |]. split; [constructor | exact Ea].
  - destruct IH as [IH | (l1 & m & l2 & -> & Hl1 & Hm)].
    + left. constructor; assumption.
    + right. exists (a :: l1), m, l2. split; [reflexivity |].
      split; [constructor; assumption | exact Hm].
Qed.

Lemma filter_at_most_one {A : Type} (f : A → bool) (l : list A)
    (i j : nat) (a b : A) :
  (length (List.filter f l) ≤ 1)%nat →
  (i < j)%nat → l !! i = Some a → l !! j = Some b →
  f a = true → f b = true → False.
Proof.
  revert i j. induction l as [| c l IH]; intros i j Hlen Hij Hi Hj Ha Hb.
  - discriminate.
  - destruct i as [| i], j as [| j]; try lia; simpl in Hi, Hj.
    + injection Hi as ->. simpl in Hlen. rewrite Ha in Hlen. simpl in Hlen.
      apply list_elem_of_lookup_2 in Hj.
      assert (Hin : b ∈ List.filter f l).
      { apply list_elem_of_In, filter_In. split; [apply list_elem_of_In, Hj | exact Hb]. }
      destruct (List.filter f l); [inversion Hin | simpl in Hlen; lia].
    + apply (IH i j); try assumption; try lia.
      simpl in Hlen. destruct (f c); simpl in Hlen; lia.
Qed.

Lemma pushed_app (ni ni' : NetworkInterface) (new : list EthernetFrame) :
  ready2_sent_q ni' = ready2_sent_q ni ++ new → pushed ni ni' = new.
Proof. intros E. unfold pushed. rewrite E. apply drop_app_length. Qed.

Section RunProperties.
Context `{Codec}.

Lemma request_frame_is_request (x y : Z) (ni : NetworkInterface) :
  arp_roundtrip →
  is_ARP_request_for x (ARP_request_frame ni y) = (y =? x).
Proof.
  intros Hrt. unfold is_ARP_request_for, ARP_request_frame. simpl.
  rewrite Hrt. reflexivity.
Qed.

Lemma ipv4_frame_not_request (x : Z) (f : EthernetFrame) :
  type (header f) = TYPE_IPv4 → is_ARP_request_for x f = false.
Proof. intros Hty. unfold is_ARP_request_for. rewrite Hty. reflexivity. Qed.

Lemma queue_wf_new (mac : EthernetAddress) (ip : Z) :
  queue_wf (new_interface mac ip).
Proof. intros p Hin. inversion Hin. Qed.

Lemma queue_wf_send (now : Z) (dgram : InternetDatagram) (y : Z)
    (ni : NetworkInterface) :
  queue_wf ni → queue_wf (send_datagram now dgram y ni).
Proof.
  intros Hwf. destruct (ARP_table ni !! y) as [e |] eqn:Hy.
  - rewrite (send_datagram_resolved now dgram y ni e Hy). exact Hwf.
  - rewrite (send_datagram_unresolved now dgram y ni Hy).
    intros p Hin. simpl in Hin |- *.
    unfold ARP_request_frame at 1. simpl.
    fold (ARP_request_frame ni (dst_ip p)).
    apply elem_of_app in Hin as [Hin | Hin].
    + destruct (Hwf p Hin) as [Hrec Hmk]. split; [| exact Hmk].
      destruct (request_history ni !! y) as [h |] eqn:Hh; simpl.
      * destruct (size_sub now h <? MAX_WAITING_TIME); simpl; [exact Hrec |].
        destruct (decide (y = dst_ip p)) as [<- | Hne];
          [rewrite lookup_insert_eq; eauto
          | rewrite lookup_insert_ne by exact Hne; exact Hrec].
      * destruct (decide (y = dst_ip p)) as [<- | Hne];
          [rewrite lookup_insert_eq; eauto
          | rewrite lookup_insert_ne by exact Hne; exact Hrec].
    + assert (Hp : dst_ip p = y
                   ∧ (is_marker p = true →
                      waiting_frame p = ARP_request_frame ni y)).
      { destruct (request_history ni !! y) as [h |]; simpl in Hin;
          [destruct (size_sub now h <? MAX_WAITING_TIME); simpl in Hin |];
          repeat (apply elem_of_cons in Hin as [-> | Hin]);
          try (inversion Hin; fail);
          (split; [reflexivity |]); try reflexivity;
          intros Hmk; discriminate Hmk. }
      destruct Hp as [Hp Hmk]. rewrite Hp. split; [| exact Hmk].
      destruct (request_history ni !! y) as [h |] eqn:Hh; simpl.
      * destruct (size_sub now h <? MAX_WAITING_TIME); simpl;
          [rewrite Hh | rewrite lookup_insert_eq]; eauto.
      * rewrite lookup_insert_eq. eauto.
Qed.

Lemma queue_wf_tick (ms now : Z) (ni : NetworkInterface) :
  queue_wf ni → queue_wf (tick ms now ni).2.
Proof.
  intros Hwf p Hin.
  destruct (tick_fields ms now ni) as (_ & Ehist & _ & Ewait & _ & Emac & Eip).
  unfold ARP_request_frame. rewrite Emac, Eip, Ehist.
  fold (ARP_request_frame ni (dst_ip p)).
  rewrite Ewait in Hin.
  destruct (tick_items_sub (size_add now ms) (waiting_q ni) (request_history ni))
    as (_ & Hks & Hdom).
  rewrite Forall_forall in Hks. specialize (Hks p Hin).
  destruct (Hwf p Hks) as [Hrec Hmk]. split; [apply Hdom, Hrec | exact Hmk].
Qed.

(** What [recv_frame] can do to the queues and the history: the pushed
    frames are no ARP requests, the waiting queue only loses items. *)
Lemma recv_frame_effect (now : Z) (frame : EthernetFrame)
    (ni : NetworkInterface) :
  arp_roundtrip →
  let ni' := (recv_frame now frame ni).1 in
  request_history ni' = request_history ni
  ∧ ethernet_address_ ni' = ethernet_address_ ni
  ∧ ip_address_ ni' = ip_address_ ni
  ∧ (∀ p, p ∈ waiting_q ni' → p ∈ waiting_q ni)
  ∧ ∃ new, ready2_sent_q ni' = ready2_sent_q ni ++ new
           ∧ ∀ x, List.filter (is_ARP_request_for x) new = [].
Proof.
  intros Hrt ni'. subst ni'. unfold recv_frame.
  assert (Hsame : request_history ni = request_history ni
            ∧ ethernet_address_ ni = ethernet_address_ ni
            ∧ ip_address_ ni = ip_address_ ni
            ∧ (∀ p, p ∈ waiting_q ni → p ∈ waiting_q ni)
            ∧ ∃ new, ready2_sent_q ni = ready2_sent_q ni ++ new
                     ∧ ∀ x, List.filter (is_ARP_request_for x) new = []).
  { do 3 (split; [reflexivity |]). split; [auto |].
    exists []. rewrite app_nil_r. auto. }
  destruct ((dst (header frame) =? ethernet_address_ ni)
            && (type (header frame) =? TYPE_IPv4)); [exact Hsame |].
  destruct ((dst (header frame) =? ethernet_address_ ni)
            && (type (header frame) =? TYPE_ARP)
            || (dst (header frame) =? ETHERNET_BROADCAST)
               && (type (header frame) =? TYPE_ARP)); [| exact Hsame].
  destruct (parse_arp (payload frame)) as [msg |]; [| exact Hsame].
  destruct ((opcode msg =? OPCODE_REQUEST)
            && (ip_address_ ni =? target_ip_address msg));
    [| destruct ((opcode msg =? OPCODE_REPLY)
                 && (ip_address_ ni =? target_ip_address msg))]; simpl.
  - do 3 (split; [reflexivity |]). split; [auto |].
    eexists. split; [reflexivity |].
    intros x. simpl. unfold is_ARP_request_for. simpl. rewrite Hrt. simpl.
    rewrite andb_false_r. reflexivity.
  - rewrite flush_waiting_spec. simpl.
    do 3 (split; [reflexivity |]). split.
    + intros p Hin. apply list_elem_of_In, filter_In in Hin as [Hin _].
      apply list_elem_of_In, Hin.
    + eexists. split; [reflexivity |]. intros x. clear Hsame.
      induction (waiting_q ni) as [| p q IH]; [reflexivity |]. simpl.
      destruct (dst_ip p =? sender_ip_address msg); simpl; [| exact IH].
      destruct (is_dgram_item p) eqn:Ed; simpl; [| exact IH].
      rewrite ipv4_frame_not_request; [exact IH |].
      simpl. apply Z.eqb_eq, Ed.
  - do 3 (split; [reflexivity |]). split; [auto |].
    exists []. rewrite app_nil_r. auto.
Qed.

Lemma queue_wf_recv (now : Z) (frame : EthernetFrame) (ni : NetworkInterface) :
  arp_roundtrip → queue_wf ni → queue_wf (recv_frame now frame ni).1.
Proof.
  intros Hrt Hwf p Hin.
  destruct (recv_frame_effect now frame ni Hrt) as (Eh & Emac & Eip & Hsub & _).
  unfold ARP_request_frame. rewrite Eh, Emac, Eip.
  apply Hwf, Hsub, Hin.
Qed.

Lemma queue_wf_step (o : op) (s : Z * NetworkInterface) :
  arp_roundtrip → queue_wf s.2 → queue_wf (step o s).2.
Proof.
  intros Hrt Hwf. destruct o as [dgram y | frame | ms]; simpl.
  - apply queue_wf_send, Hwf.
  - apply queue_wf_recv; assumption.
  - apply queue_wf_tick, Hwf.
Qed.

(** The frames that [tick] pushes, read as requests for [x]: the frames of
    the resent items for [x]. *)
Lemma tick_pushed_requests (ms now : Z) (ni : NetworkInterface) (x : Z) :
  arp_roundtrip → queue_wf ni →
  List.filter (is_ARP_request_for x)
    (map waiting_frame (resent_items ms now ni))
  = map waiting_frame (List.filter (for_ip x) (resent_items ms now ni)).
Proof.
  intros Hrt Hwf. unfold resent_items.
  destruct (tick_items_sub (size_add now ms) (waiting_q ni) (request_history ni))
    as (Hrs & _).
  induction Hrs as [| p rs [Hin Hmk] _ IH]; [reflexivity |]. simpl.
  destruct (Hwf p Hin) as [_ Hframe].
  assert (E : is_ARP_request_for x (waiting_frame p) = for_ip x p).
  { rewrite (Hframe Hmk). apply request_frame_is_request, Hrt. }
  rewrite E. destruct (for_ip x p); simpl; rewrite IH; reflexivity.
Qed.

(** One call and the requests for [x]: either it pushes none and leaves an
    existing record alone, or it pushes one, sets the record to the clock
    value, and the record, if any, was at least [MAX_WAITING_TIME] old. *)
Lemma step_requests (o : op) (s : Z * NetworkInterface) (x : Z) :
  arp_roundtrip → queue_wf s.2 →
  (List.filter (is_ARP_request_for x) (pushed s.2 (step o s).2) = []
   ∧ ∀ h, request_history s.2 !! x = Some h →
          request_history (step o s).2 !! x = Some h)
  ∨ (length (List.filter (is_ARP_request_for x) (pushed s.2 (step o s).2))
     = 1%nat
     ∧ request_history (step o s).2 !! x = Some (step o s).1
     ∧ ∀ h, request_history s.2 !! x = Some h →
            MAX_WAITING_TIME ≤ size_sub (step o s).1 h).
Proof.
  intros Hrt Hwf. destruct s as [now ni]. simpl in Hwf.
  destruct o as [dgram y | frame | ms]; simpl.
  - (* send_datagram *)
    destruct (ARP_table ni !! y) as [e |] eqn:Hy.
    + rewrite (send_datagram_resolved now dgram y ni e Hy).
      left. erewrite pushed_app by (simpl; reflexivity).
      simpl. auto.
    + rewrite (send_datagram_unresolved now dgram y ni Hy).
      erewrite pushed_app by (simpl; reflexivity). simpl.
      destruct (request_history ni !! y) as [h |] eqn:Hh; simpl.
      * destruct (Z.ltb_spec (size_sub now h) MAX_WAITING_TIME) as [Hlt | Hge];
          simpl; [left; auto |].
        rewrite (request_frame_is_request x y ni Hrt).
        destruct (Z.eqb_spec y x) as [-> | Hne]; simpl.
        -- right. split; [reflexivity |]. split; [apply lookup_insert_eq |].
           intros h' Hh'. rewrite Hh in Hh'. injection Hh' as <-. exact Hge.
        -- left. split; [reflexivity |]. intros h' Hh'.
           rewrite lookup_insert_ne by exact Hne. exact Hh'.
      * rewrite (request_frame_is_request x y ni Hrt).
        destruct (Z.eqb_spec y x) as [-> | Hne]; simpl.
        -- right. split; [reflexivity |]. split; [apply lookup_insert_eq |].
           intros h' Hh'. rewrite Hh in Hh'. discriminate.
        -- left. split; [reflexivity |]. intros h' Hh'.
           rewrite lookup_insert_ne by exact Hne. exact Hh'.
  - (* recv_frame *)
    destruct (recv_frame_effect now frame ni Hrt)
      as (Eh & _ & _ & _ & new & Enew & Hnone).
    left. rewrite (pushed_app _ _ _ Enew), Eh. auto.
  - (* tick *)
    destruct (tick_fields ms now ni) as (Eclock & Ehist & Eready & _).
    rewrite (pushed_app _ _ _ Eready), Eclock, Ehist.
    rewrite (tick_pushed_requests ms now ni x Hrt Hwf). unfold resent_items.
    set (c := size_add now ms).
    destruct (request_history ni !! x) as [h |] eqn:Hh.
    + destruct (Z.lt_ge_cases (size_sub c h) MAX_WAITING_TIME) as [Hlt | Hge].
      * destruct (tick_items_quiet c x h (waiting_q ni) (request_history ni)
                    Hh (or_introl Hlt)) as (Q1 & Q2 & _).
        left. rewrite Q2. split; [reflexivity |].
        intros h' Hh'. injection Hh' as <-. exact Q1.
      * destruct (first_true_split (λ p, for_ip x p && is_marker p) (waiting_q ni))
          as [Hnone | (q1 & m & q2 & Eq & Hq1 & Hm)].
        -- destruct (tick_items_quiet c x h (waiting_q ni) (request_history ni)
                       Hh (or_intror Hnone)) as (Q1 & Q2 & _).
           left. rewrite Q2. split; [reflexivity |].
           intros h' Hh'. injection Hh' as <-. exact Q1.
        -- apply andb_true_iff in Hm as [Hm Hmk]. rewrite Eq.
           destruct (tick_items_fire c x h q1 m q2 (request_history ni)
                       Hh Hge Hq1 Hm Hmk) as (F1 & F2 & _).
           right. rewrite F2. split; [reflexivity |]. split; [exact F1 |].
           intros h' Hh'. injection Hh' as <-. exact Hge.
    + assert (Habs : Forall (λ p, for_ip x p = false) (waiting_q ni)).
      { apply Forall_forall. intros p Hin. apply for_ip_false. intros Hp.
        destruct (Hwf p Hin) as [[h Hrec] _]. rewrite Hp, Hh in Hrec.
        discriminate. }
      destruct (tick_items_absent c x (waiting_q ni) (request_history ni) Habs)
        as (A1 & A2 & _).
      left. rewrite A2. split; [reflexivity |]. intros h' Hh'. discriminate.
Qed.

(** One call and the clock: a timestamp ages by at most the elapsed time. *)
Lemma step_clock (o : op) (s : Z * NetworkInterface) (elapsed h : Z) :
  wf_op o →
  elapsed ≤ elapsed_after o elapsed
  ∧ size_sub (step o s).1 h
    ≤ size_sub s.1 h + (elapsed_after o elapsed - elapsed).
Proof.
  intros Hop. destruct o as [dgram y | frame | ms]; simpl.
  - lia.
  - lia.
  - simpl in Hop. destruct (tick_fields ms s.1 s.2) as (-> & _).
    pose proof (size_sub_add_le s.1 ms h ltac:(lia)). lia.
Qed.

(** The log of a run from a well-formed state: the requests for [x] are
    spaced, and the first of them waits until the record of [x] is
    [MAX_WAITING_TIME] old. *)
Lemma run_log_spaced (ops : list op) (elapsed : Z) (s : Z * NetworkInterface)
    (x : Z) :
  arp_roundtrip → Forall wf_op ops → queue_wf s.2 →
  requests_spaced x (run_log ops elapsed s)
  ∧ (∀ t f, (t, f) ∈ run_log ops elapsed s → elapsed ≤ t)
  ∧ (∀ h t f, request_history s.2 !! x = Some h →
       (t, f) ∈ run_log ops elapsed s →
       is_ARP_request_for x f = true →
       MAX_WAITING_TIME ≤ t - elapsed + size_sub s.1 h).
Proof.
  intros Hrt. revert elapsed s.
  induction ops as [| o ops IH]; intros elapsed s Hops Hwf.
  - simpl. split; [| split].
    + intros i j ti tj fi fj _ Hi. discriminate.
    + intros t f Hin. inversion Hin.
    + intros h t f _ Hin. inversion Hin.
  - apply Forall_cons in Hops as [Hop Hops]. simpl.
    set (s' := step o s). set (el' := elapsed_after o elapsed).
    set (new := pushed s.2 s'.2).
    destruct (IH el' s' Hops (queue_wf_step o s Hrt Hwf)) as (IHsp & IHt & IHf).
    pose proof (step_requests o s x Hrt Hwf) as Hreq.
    fold s' in Hreq. fold new in Hreq.
    assert (Hclk : ∀ h, elapsed ≤ el'
                   ∧ size_sub s'.1 h ≤ size_sub s.1 h + (el' - elapsed))
      by (intros h; apply step_clock, Hop).
    assert (Hel : elapsed ≤ el') by apply (Hclk 0).
    assert (Hnew : ∀ t f, (t, f) ∈ map (λ f, (el', f)) new → t = el' ∧ f ∈ new).
    { intros t f Hin. apply list_elem_of_fmap in Hin as (f' & E & Hin).
      injection E as -> ->. auto. }
    (* a request for [x] pushed by this call forces the second alternative *)
    assert (Hfired : ∀ f, f ∈ new → is_ARP_request_for x f = true →
              request_history s'.2 !! x = Some s'.1
              ∧ ∀ h, request_history s.2 !! x = Some h →
                     MAX_WAITING_TIME ≤ size_sub s'.1 h).
    { intros f Hin Hf. destruct Hreq as [[Hnone _] | (_ & Hr & Hst)]; [| auto].
      exfalso. assert (Hin' : f ∈ List.filter (is_ARP_request_for x) new).
      { apply list_elem_of_In, filter_In. split; [apply list_elem_of_In, Hin | exact Hf]. }
      rewrite Hnone in Hin'. inversion Hin'. }
    (* a later request for [x], seen from the state before the call *)
    assert (Hlater : ∀ t f, (t, f) ∈ run_log ops el' s' →
              is_ARP_request_for x f = true →
              (∀ h, request_history s.2 !! x = Some h →
                    MAX_WAITING_TIME ≤ t - elapsed + size_sub s.1 h)
              ∧ ((∃ f0, f0 ∈ new ∧ is_ARP_request_for x f0 = true) →
                 MAX_WAITING_TIME ≤ t - el')).
    { intros t f Hin Hf. split.
      - intros h Hh. pose proof (size_sub_range s.1 h) as Hr.
        destruct (Hclk h) as [_ Hc].
        destruct Hreq as [[_ Hkeep] | (_ & Hr' & _)].
        + specialize (IHf h t f (Hkeep h Hh) Hin Hf). lia.
        + specialize (IHf s'.1 t f Hr' Hin Hf).
          rewrite size_sub_diag in IHf. lia.
      - intros (f0 & Hin0 & Hf0). destruct (Hfired f0 Hin0 Hf0) as [Hr' _].
        specialize (IHf s'.1 t f Hr' Hin Hf).
        rewrite size_sub_diag in IHf. lia. }
    split; [| split].
    + intros i j ti tj fi fj Hij Hi Hj Hfi Hfj.
      apply lookup_app_Some in Hi as [Hi | [Hgei Hi]];
        apply lookup_app_Some in Hj as [Hj | [Hgej Hj]].
      * (* both pushed by this call: impossible *)
        exfalso. rewrite list_lookup_fmap in Hi, Hj.
        destruct (new !! i) as [fi' |] eqn:Ei; [| discriminate].
        destruct (new !! j) as [fj' |] eqn:Ej; [| discriminate].
        simpl in Hi, Hj. injection Hi as <- <-. injection Hj as <- <-.
        apply (filter_at_most_one (is_ARP_request_for x) new i j fi' fj');
          try assumption.
        destruct Hreq as [[-> _] | (-> & _)]; simpl; lia.
      * (* one pushed by this call, one later *)
        apply list_elem_of_lookup_2 in Hi, Hj.
        apply Hnew in Hi as [-> Hi].
        destruct (Hlater tj fj Hj Hfj) as [_ Hl]. apply Hl. eauto.
      * apply lookup_lt_Some in Hj. lia.
      * apply (IHsp (i - length (map (λ f, (el', f)) new))%nat
                 (j - length (map (λ f, (el', f)) new))%nat ti tj fi fj);
          try assumption. lia.
    + intros t f Hin. apply elem_of_app in Hin as [Hin | Hin].
      * apply Hnew in Hin as [-> _]. exact Hel.
      * specialize (IHt t f Hin). lia.
    + intros h t f Hh Hin Hf. apply elem_of_app in Hin as [Hin | Hin].
      * apply Hnew in Hin as [-> Hin].
        destruct (Hfired f Hin Hf) as [_ Hst]. specialize (Hst h Hh).
        destruct (Hclk h) as [_ Hc]. lia.
      * destruct (Hlater t f Hin Hf) as [Hl _]. apply Hl, Hh.
Qed.

(** C3.  Throttling of ARP requests.  In every run of [send_datagram],
    [recv_frame] and [tick] calls on a new interface, any two broadcast ARP
    requests for the same address pushed on the ready queue are at least
    [MAX_WAITING_TIME] of elapsed time apart, so no window shorter than
    that holds two of them.  A [send_datagram] to an unresolved address
    whose request record is younger than [MAX_WAITING_TIME] pushes no
    frame and leaves the record; one whose record is that old or older
    pushes exactly the request and sets the record to the clock value. *)
Theorem arp_request_throttling (mac : EthernetAddress) (ip x : Z) :
  arp_roundtrip →
  (∀ ops start, Forall wf_op ops →
     requests_spaced x (run_log ops 0 (start, new_interface mac ip)))
  ∧ (∀ now dgram ni h,
       ARP_table ni !! x = None → request_history ni !! x = Some h →
       size_sub now h < MAX_WAITING_TIME →
       ready2_sent_q (send_datagram now dgram x ni) = ready2_sent_q ni
       ∧ request_history (send_datagram now dgram x ni) = request_history ni)
  ∧ (∀ now dgram ni h,
       ARP_table ni !! x = None → request_history ni !! x = Some h →
       MAX_WAITING_TIME ≤ size_sub now h →
       ready2_sent_q (send_datagram now dgram x ni)
         = ready2_sent_q ni ++ [ARP_request_frame ni x]
       ∧ is_ARP_request_for x (ARP_request_frame ni x) = true
       ∧ request_history (send_datagram now dgram x ni) !! x = Some now).
Proof.
  intros Hrt. split; [| split].
  - intros ops start Hops.
    apply (run_log_spaced ops 0 (start, new_interface mac ip) x Hrt Hops).
    apply queue_wf_new.
  - intros now dgram ni h Hx Hh Hlt.
    rewrite (send_datagram_unresolved now dgram x ni Hx). simpl. rewrite Hh.
    destruct (Z.ltb_spec (size_sub now h) MAX_WAITING_TIME); [| lia].
    simpl. rewrite app_nil_r. auto.
  - intros now dgram ni h Hx Hh Hge.
    rewrite (send_datagram_unresolved now dgram x ni Hx). simpl. rewrite Hh.
    destruct (Z.ltb_spec (size_sub now h) MAX_WAITING_TIME); [lia |].
    simpl. split; [reflexivity |]. split; [| apply lookup_insert_eq].
    rewrite (request_frame_is_request x x ni Hrt). apply Z.eqb_refl.
Qed.

End RunProperties.

(** ** After the reply: no retry marker for a resolved address *)

Section ResolvedProperties.
Context `{Codec}.

Lemma recv_frame_waiting (now : Z) (frame : EthernetFrame)
    (ni : NetworkInterface) (p : Waiting_Packet) :
  p ∈ waiting_q (recv_frame now frame ni).1 → p ∈ waiting_q ni.
Proof.
  unfold recv_frame.
  destruct ((dst (header frame) =? ethernet_address_ ni)
            && (type (header frame) =? TYPE_IPv4)); [auto |].
  destruct ((dst (header frame) =? ethernet_address_ ni)
            && (type (header frame) =? TYPE_ARP)
            || (dst (header frame) =? ETHERNET_BROADCAST)
               && (type (header frame) =? TYPE_ARP)); [| auto].
  destruct (parse_arp (payload frame)) as [msg |]; [| auto].
  destruct ((opcode msg =? OPCODE_REQUEST)
            && (ip_address_ ni =? target_ip_address msg));
    [| destruct ((opcode msg =? OPCODE_REPLY)
                 && (ip_address_ ni =? target_ip_address msg))]; simpl; auto.
  rewrite flush_waiting_spec. simpl. intros Hin.
  apply list_elem_of_In, filter_In in Hin as [Hin _]. apply list_elem_of_In, Hin.
Qed.

(** While [x] is in the cache, no call adds an item for [x] to the waiting
    queue. *)
Lemma step_no_item_for_resolved (o : op) (s : Z * NetworkInterface) (x : Z) :
  is_Some (ARP_table s.2 !! x) →
  Forall (λ p, for_ip x p = false) (waiting_q s.2) →
  Forall (λ p, for_ip x p = false) (waiting_q (step o s).2).
Proof.
  intros [e Hx] Hnone. destruct s as [now ni]. simpl in *.
  destruct o as [dgram y | frame | ms]; simpl.
  - destruct (ARP_table ni !! y) as [e' |] eqn:Hy.
    + rewrite (send_datagram_resolved now dgram y ni e' Hy). exact Hnone.
    + rewrite (send_datagram_unresolved now dgram y ni Hy). simpl.
      assert (Hne : y ≠ x) by congruence.
      apply Forall_app. split; [exact Hnone |].
      destruct (match request_history ni !! y with
                | Some h => negb (size_sub now h <? MAX_WAITING_TIME)
                | None => true
                end); repeat constructor; apply for_ip_false; exact Hne.
  - apply Forall_forall. intros p Hin. apply recv_frame_waiting in Hin.
    rewrite Forall_forall in Hnone. apply Hnone, Hin.
  - destruct (tick_fields ms now ni) as (_ & _ & _ & -> & _).
    destruct (tick_items_sub (size_add now ms) (waiting_q ni)
                (request_history ni)) as (_ & Hks & _).
    rewrite Forall_forall in Hks, Hnone. apply Forall_forall.
    intros p Hin. apply Hnone, Hks, Hin.
Qed.

Lemma steps_no_item_for_resolved (ops : list op) (s : Z * NetworkInterface)
    (x : Z) :
  is_Some (ARP_table s.2 !! x) →
  Forall (λ p, for_ip x p = false) (waiting_q s.2) →
  stays_resolved x ops s →
  Forall (λ p, for_ip x p = false) (waiting_q (steps ops s).2).
Proof.
  revert s. induction ops as [| o ops IH]; intros s Hx Hnone Hstay.
  - exact Hnone.
  - destruct Hstay as [Hx' Hstay]. unfold steps. simpl.
    fold (steps ops (step o s)).
    apply IH; [exact Hx' | | exact Hstay].
    apply step_no_item_for_resolved; assumption.
Qed.

(** C10, as the code has it.  An accepted ARP reply for this interface
    removes every item for the sender's address from the waiting queue; of
    these only the IPv4-typed ones reach the ready queue, so a retry marker
    for that address is dropped without being sent.  From then on, for as
    long as the address stays in the cache after every call, whatever is
    sent, received or ticked, the waiting queue holds no item for it and a
    [tick] resends nothing for it.  Once the entry has expired the code
    gives no such guarantee. *)
Theorem reply_discards_markers (now : Z) (frame : EthernetFrame)
    (ni : NetworkInterface) (msg : ARPMessage) :
  type (header frame) = TYPE_ARP →
  dst (header frame) = ethernet_address_ ni
    ∨ dst (header frame) = ETHERNET_BROADCAST →
  parse_arp (payload frame) = Some msg →
  opcode msg = OPCODE_REPLY →
  target_ip_address msg = ip_address_ ni →
  let x := sender_ip_address msg in
  let s' := (now, (recv_frame now frame ni).1) in
  (∀ p, p ∈ waiting_q ni → dst_ip p = x → is_dgram_item p = false →
        p ∉ waiting_q s'.2)
  ∧ Forall (λ f, type (header f) = TYPE_IPv4) (pushed ni s'.2)
  ∧ length (pushed ni s'.2)
    = length (List.filter (λ p, for_ip x p && is_dgram_item p) (waiting_q ni))
  ∧ Forall (λ p, for_ip x p = false) (waiting_q s'.2)
  ∧ is_Some (ARP_table s'.2 !! x)
  ∧ (∀ ops, stays_resolved x ops s' →
       Forall (λ p, for_ip x p = false) (waiting_q (steps ops s').2)
       ∧ ∀ ms,
           ready2_sent_q (tick ms (steps ops s').1 (steps ops s').2).2
           = ready2_sent_q (steps ops s').2
             ++ map waiting_frame
                  (resent_items ms (steps ops s').1 (steps ops s').2)
           ∧ List.filter (for_ip x)
               (resent_items ms (steps ops s').1 (steps ops s').2) = []).
Proof.
  intros Hty Hdst Hparse Hop Htgt x s'.
  assert (Hnone : Forall (λ p, for_ip x p = false) (waiting_q s'.2)).
  { subst s'. simpl.
    rewrite (recv_frame_reply now frame ni msg Hty Hdst Hparse Hop Htgt). simpl.
    apply Forall_forall. intros p Hin.
    apply list_elem_of_In, filter_In in Hin as [_ Hp].
    unfold for_ip. fold x in Hp. destruct (dst_ip p =? x); [discriminate | reflexivity]. }
  assert (Hres : is_Some (ARP_table s'.2 !! x)).
  { subst s'. simpl.
    rewrite (recv_frame_reply now frame ni msg Hty Hdst Hparse Hop Htgt). simpl.
    fold x. rewrite lookup_insert_eq. eauto. }
  split; [| split; [| split; [| split; [exact Hnone | split; [exact Hres |]]]]].
  - intros p _ Hp _ Hin. rewrite Forall_forall in Hnone.
    apply Hnone, for_ip_false in Hin. contradiction.
  - subst s'. simpl.
    rewrite (recv_frame_reply now frame ni msg Hty Hdst Hparse Hop Htgt).
    erewrite pushed_app by (simpl; reflexivity).
    apply Forall_forall. intros f Hin.
    apply list_elem_of_fmap in Hin as (p & -> & Hin).
    apply list_elem_of_In, filter_In in Hin as [_ Hp].
    apply andb_true_iff in Hp as [_ Hp]. simpl. apply Z.eqb_eq, Hp.
  - subst s'. simpl.
    rewrite (recv_frame_reply now frame ni msg Hty Hdst Hparse Hop Htgt).
    erewrite pushed_app by (simpl; reflexivity).
    rewrite length_map. reflexivity.
  - intros ops Hstay.
    pose proof (steps_no_item_for_resolved ops s' x Hres Hnone Hstay) as Hlater.
    split; [exact Hlater |]. intros ms. split.
    + destruct (tick_fields ms (steps ops s').1 (steps ops s').2)
        as (_ & _ & E & _). exact E.
    + apply (tick_items_absent _ x _ _ Hlater).
Qed.

End ResolvedProperties.

(** ** One clock for all interfaces *)

Section ClockProperties.
Context `{Codec}.

(** A [tick] on any interface advances the clock that all of them read. *)
Lemma world_tick_clock (i : nat) (ms : Z) (w : World) :
  is_Some (objects w !! i) →
  curr_time (world_tick i ms w) = size_add (curr_time w) ms.
Proof.
  intros [ni Hi]. unfold world_tick. rewrite Hi.
  destruct (tick_fields ms (curr_time w) ni) as (E & _).
  destruct (tick ms (curr_time w) ni) as [c ni']. exact E.
Qed.

(** A [tick] on interface [j] leaves the fields of another interface [i]
    untouched: what changes for [i] is the clock alone. *)
Lemma world_tick_other_object (i j : nat) (ms : Z) (w : World) :
  i ≠ j → objects (world_tick j ms w) !! i = objects w !! i.
Proof.
  intros Hne. unfold world_tick.
  destruct (objects w !! j) as [ni |]; [| reflexivity].
  destruct (tick ms (curr_time w) ni) as [c ni']. simpl.
  apply list_lookup_insert_ne. congruence.
Qed.

End ClockProperties.

(** * The functions on concrete inputs *)

Ltac evaluate :=
  vm_compute; first [reflexivity | discriminate | (intro; discriminate)].

Lemma sample_arp_roundtrip : @arp_roundtrip sample_codec.
Proof. intros [o se si te ti]. reflexivity. Defined.

(** The routing scenario: 192.168.0.5 leaves through the directly attached
    network (entry 1), 8.8.8.8 through the default route (entry 0). *)
Example lookup_routing_scenario :
  lookup_route 0xc0a80005 sample_table = 1
  ∧ lookup_route 0x08080808 sample_table = 0.
Proof. split; reflexivity. Qed.

(** Two routes with the same prefix and length: the later one is selected. *)
Example lookup_tie_break :
  lookup_route 0xc0a80005
    (sample_table
     ++ [ {| route_prefix_ := 0xc0a80000; prefix_length_ := 24;
             next_hop_ := Some 0xc0a800fe; interface_num_ := 0%nat |} ]) = 2.
Proof. reflexivity. Qed.

Lemma route_lookup_longest_prefix_witness :
  wf_table sample_table
  ∧ Z.of_nat (length sample_table) ≤ 2 ^ 31
  ∧ best_match 0xc0a80005 sample_table 1.
Proof.
  assert (Hwf : wf_table sample_table).
  { unfold wf_table, sample_table. repeat constructor; simpl; lia. }
  assert (Hlen : Z.of_nat (length sample_table) ≤ 2 ^ 31) by (simpl; lia).
  split; [exact Hwf |]. split; [exact Hlen |].
  destruct (@route_lookup_longest_prefix sample_codec 0xc0a80005 sample_table
              Hwf Hlen) as (_ & _ & _ & Hbest & _).
  apply (Hbest 1%nat). reflexivity.
Defined.

Lemma forward_ttl_policy_witness :
  0 ≤ ttl (ip_header sample_dgram) < 2 ^ 8
  ∧ sample_checksum
      {| ttl := 63; cksum := 0; ip_src := 0x0a000001; ip_dst := 0x0a000002 |}
    = {| ttl := 63; cksum := 65469; ip_src := 0x0a000001;
         ip_dst := 0x0a000002 |}
  ∧ @route_single_dgram sample_codec 0 sample_dgram sample_router =
      Some ({| interfaces_ :=
                 [@send_datagram sample_codec 0
                    {| ip_header :=
                         {| ttl := 63; cksum := 65469; ip_src := 0x0a000001;
                            ip_dst := 0x0a000002 |};
                       ip_payload := [[1; 2; 3]] |}
                    0xc0a80001 sample_A;
                  sample_B];
               routing_table_ := sample_table |},
            {| ip_header :=
                 {| ttl := 63; cksum := 65469; ip_src := 0x0a000001;
                    ip_dst := 0x0a000002 |};
               ip_payload := [[1; 2; 3]] |}).
Proof.
  assert (Httl : 0 ≤ ttl (ip_header sample_dgram) < 2 ^ 8) by (simpl; lia).
  split; [exact Httl |]. split; [reflexivity |].
  destruct (@forward_ttl_policy sample_codec 0 sample_dgram sample_router Httl)
    as (_ & _ & _ & Hsend).
  apply (Hsend ltac:(simpl; lia) 0%nat
           {| route_prefix_ := 0; prefix_length_ := 0;
              next_hop_ := Some 0xc0a80001; interface_num_ := 0%nat |}
           sample_A); reflexivity.
Defined.

(** A datagram arriving with TTL 1 is not handed to any interface. *)
Example forward_ttl_one :
  @route_single_dgram sample_codec 0 (set_ttl 1 sample_dgram) sample_router
  = Some (sample_router,
          {| ip_header :=
               {| ttl := 0; cksum := 0; ip_src := 0x0a000001;
                  ip_dst := 0x0a000002 |};
             ip_payload := [[1; 2; 3]] |}).
Proof. reflexivity. Qed.

(** [add_route] with length 33 appends the entry: the table grows. *)
Lemma add_route_accepts_length_33 :
  routing_table_ (add_route 0 33 None 0 sample_router)
  = sample_table
    ++ [ {| route_prefix_ := 0; prefix_length_ := 33; next_hop_ := None;
            interface_num_ := 0%nat |} ]
  ∧ routing_table_ (add_route 0 33 None 0 sample_router)
    ≠ routing_table_ sample_router
  ∧ lookup_route 0xc0a80005
      (routing_table_ (add_route 0 33 None 0 sample_router)) = 2.
Proof. split; [reflexivity | split; [discriminate | reflexivity]]. Qed.

Lemma add_route_appends_unchecked_witness :
  32 < 33
  ∧ routing_table_ (add_route 0 33 None 0 sample_router)
    !! length (routing_table_ sample_router)
    = Some {| route_prefix_ := 0; prefix_length_ := 33; next_hop_ := None;
              interface_num_ := 0%nat |}
  ∧ bitmask_of 33 = 0.
Proof.
  assert (Hlong : 32 < 33) by lia.
  split; [exact Hlong |].
  destruct (add_route_appends_unchecked 0 33 None 0 sample_router)
    as (_ & Hlast & _ & _ & Hmask).
  split; [exact Hlast | exact (Hmask Hlong)].
Defined.

(** The states of the end-to-end scenario. *)
Example one_send_state :
  ready2_sent_q sample_sent_once
  = [@ARP_request_frame sample_codec sample_A sample_hop]
  ∧ waiting_q sample_sent_once = [sample_item 0]
  ∧ request_history sample_sent_once !! sample_hop = Some 0.
Proof. repeat split; evaluate. Qed.

Example two_sends_state :
  ready2_sent_q sample_sent_twice
  = [@ARP_request_frame sample_codec sample_A sample_hop]
  ∧ waiting_q sample_sent_twice = [sample_item 0; sample_marker; sample_item 0]
  ∧ request_history sample_sent_twice !! sample_hop = Some 0.
Proof. repeat split; evaluate. Qed.

(** One datagram pending for [sample_hop], its request record 6000 ms old
    at the tick: the tick pushes nothing and leaves the record at 0. *)
Lemma tick_without_marker_does_not_resend :
  waiting_q sample_sent_once = [sample_item 0]
  ∧ is_dgram_item (sample_item 0) = true
  ∧ request_history sample_sent_once !! sample_hop = Some 0
  ∧ (tick 6000 0 sample_sent_once).1 = 6000
  ∧ MAX_WAITING_TIME < size_sub 6000 0
  ∧ ready2_sent_q (tick 6000 0 sample_sent_once).2
    = ready2_sent_q sample_sent_once
  ∧ pushed sample_sent_once (tick 6000 0 sample_sent_once).2 = []
  ∧ request_history (tick 6000 0 sample_sent_once).2 !! sample_hop = Some 0
  ∧ waiting_q (tick 6000 0 sample_sent_once).2 = [sample_item 0].
Proof. repeat split; evaluate. Qed.

Lemma tick_resends_for_marker_only_witness :
  request_history sample_sent_twice !! sample_hop = Some 0
  ∧ MAX_WAITING_TIME ≤ size_sub (size_add 0 5000) 0
  ∧ List.filter (for_ip sample_hop) (resent_items 5000 0 sample_sent_twice)
    = [sample_marker]
  ∧ request_history (tick 5000 0 sample_sent_twice).2 !! sample_hop
    = Some (size_add 0 5000)
  ∧ List.filter (for_ip sample_hop) (waiting_q (tick 5000 0 sample_sent_twice).2)
    = List.filter (λ p, for_ip sample_hop p && survives (size_add 0 5000) p)
        ([sample_item 0] ++ [sample_item 0])
  ∧ (length (waiting_q (tick 5000 0 sample_sent_twice).2)
     < length (waiting_q sample_sent_twice))%nat.
Proof.
  assert (Hh : request_history sample_sent_twice !! sample_hop = Some 0)
    by evaluate.
  assert (Hstale : MAX_WAITING_TIME ≤ size_sub (size_add 0 5000) 0) by evaluate.
  split; [exact Hh |]. split; [exact Hstale |].
  destruct (@tick_resends_for_marker_only sample_codec 5000 0 sample_sent_twice
              sample_hop 0 Hh Hstale) as (_ & Hfire & _).
  destruct (Hfire [sample_item 0] sample_marker [sample_item 0])
    as (Hm & Hrec & _ & Hwait & Hlen).
  - evaluate.
  - repeat constructor.
  - evaluate.
  - evaluate.
  - split; [exact Hm |]. split; [exact Hrec |].
    split; [exact Hwait | exact Hlen].
Defined.

(** The same tick, evaluated: the marker is gone from the waiting queue and
    its request is the frame added to the ready queue. *)
Example tick_moves_marker :
  waiting_q sample_sent_twice = [sample_item 0; sample_marker; sample_item 0]
  ∧ waiting_q (tick 5000 0 sample_sent_twice).2 = [sample_item 0; sample_item 0]
  ∧ ready2_sent_q (tick 5000 0 sample_sent_twice).2
    = ready2_sent_q sample_sent_twice
      ++ [@ARP_request_frame sample_codec sample_A sample_hop].
Proof. repeat split; evaluate. Qed.

(** The clock at [2^64 - 2], two sends for [sample_hop], then [tick(1)]:
    the clock value [2^64 - 1] is above 4999, the request record is 1 ms
    old, and the retry marker is still in the waiting queue. *)
Lemma marker_survives_at_last_clock_value :
  sample_late_twice.1 = 2 ^ 64 - 2
  ∧ waiting_q sample_late_twice.2
    = [sample_item (2 ^ 64 - 2); sample_marker; sample_item (2 ^ 64 - 2)]
  ∧ request_history sample_late_twice.2 !! sample_hop = Some (2 ^ 64 - 2)
  ∧ (tick 1 sample_late_twice.1 sample_late_twice.2).1 = 2 ^ 64 - 1
  ∧ 4999 ≤ (tick 1 sample_late_twice.1 sample_late_twice.2).1
  ∧ size_sub (2 ^ 64 - 1) (2 ^ 64 - 2) < MAX_WAITING_TIME
  ∧ ¬ (2 ^ 64 - 1 + 1 < 5000)
  ∧ time sample_marker = SIZE_MAX
  ∧ waiting_q (tick 1 sample_late_twice.1 sample_late_twice.2).2
    = [sample_item (2 ^ 64 - 2); sample_marker; sample_item (2 ^ 64 - 2)].
Proof. repeat split; evaluate. Qed.

Lemma retry_marker_lifetime_witness :
  request_history sample_sent_once !! sample_hop = Some 0
  ∧ ARP_table sample_sent_once !! sample_hop = None
  ∧ size_sub 0 0 < MAX_WAITING_TIME
  ∧ waiting_q
      (@send_datagram sample_codec 0 sample_dgram sample_hop sample_sent_once)
    = waiting_q sample_sent_once ++ [sample_marker; sample_item 0]
  ∧ size_sub (size_add 0 4999) 0 < MAX_WAITING_TIME
  ∧ 4999 ≤ size_add 0 4999 < 2 ^ 64 - 1
  ∧ sample_marker ∉ waiting_q (tick 4999 0 sample_sent_twice).2.
Proof.
  assert (Hh : request_history sample_sent_once !! sample_hop = Some 0)
    by evaluate.
  assert (Hh2 : request_history sample_sent_twice !! sample_hop = Some 0)
    by evaluate.
  assert (Hx : ARP_table sample_sent_once !! sample_hop = None) by evaluate.
  assert (Hy : size_sub 0 0 < MAX_WAITING_TIME) by evaluate.
  assert (Hy' : size_sub (size_add 0 4999) 0 < MAX_WAITING_TIME) by evaluate.
  assert (Hc : 4999 ≤ size_add 0 4999 < 2 ^ 64 - 1) by (split; evaluate).
  split; [exact Hh |]. split; [exact Hx |]. split; [exact Hy |].
  destruct (@retry_marker_lifetime sample_codec 0 sample_sent_once sample_hop 0
              Hh) as (Hsend & _).
  destruct (Hsend sample_dgram Hx Hy) as (Hq & _).
  split; [exact Hq |]. split; [exact Hy' |]. split; [exact Hc |].
  destruct (@retry_marker_lifetime sample_codec 0 sample_sent_twice sample_hop 0
              Hh2) as (_ & Htick).
  destruct (Htick 4999 Hy') as (_ & _ & _ & Hm).
  destruct (Hm sample_marker eq_refl eq_refl eq_refl) as (_ & _ & Hgone & _).
  exact (Hgone Hc).
Defined.

(** [sample_hop] is learnt at clock value 0 from its own broadcast request
    while a datagram and a retry marker for it are pending.  Ticks of 29000
    and 1001 ms follow: the first resends the marker, the second evicts the
    entry.  The next [send_datagram] to [sample_hop] then pushes no frame:
    the request record is only 1001 ms old. *)
Lemma send_after_expiry_without_request :
  ARP_table sample_learnt_by_request !! sample_hop
  = Some {| MAC_addr := sample_hop_mac; caching_time := 0 |}
  ∧ sample_after_expiry.1 = 30001
  ∧ ARP_table sample_after_expiry.2 !! sample_hop = None
  ∧ request_history sample_after_expiry.2 !! sample_hop = Some 29000
  ∧ ready2_sent_q
      (@send_datagram sample_codec sample_after_expiry.1 sample_dgram
         sample_hop sample_after_expiry.2)
    = ready2_sent_q sample_after_expiry.2
  ∧ pushed sample_after_expiry.2
      (@send_datagram sample_codec sample_after_expiry.1 sample_dgram
         sample_hop sample_after_expiry.2) = [].
Proof. repeat split; evaluate. Qed.

Lemma cache_expiry_then_send_witness :
  Forall wf_op sample_quiet_run
  ∧ Forall (@no_refresh sample_codec
              (ethernet_address_ sample_learnt_by_request) sample_hop)
      sample_quiet_run
  ∧ existsb is_tick sample_quiet_run = true
  ∧ ARP_table sample_learnt_by_request !! sample_hop
    = Some {| MAC_addr := sample_hop_mac; caching_time := 0 |}
  ∧ MAX_CACHE_TIME < size_sub 0 0 + run_elapsed sample_quiet_run
  ∧ size_sub 0 0 + run_elapsed sample_quiet_run < 2 ^ 64
  ∧ ARP_table
      (@steps sample_codec sample_quiet_run
         (0, sample_learnt_by_request)).2 !! sample_hop = None.
Proof.
  assert (Hwf : Forall wf_op sample_quiet_run).
  { unfold sample_quiet_run.
    repeat (apply Forall_cons; split; [simpl; try lia; exact I |]).
    constructor. }
  assert (Hquiet : Forall (@no_refresh sample_codec
                             (ethernet_address_ sample_learnt_by_request)
                             sample_hop) sample_quiet_run).
  { unfold sample_quiet_run.
    repeat (apply Forall_cons; split; [first [exact I | evaluate] |]).
    constructor. }
  assert (Htick : existsb is_tick sample_quiet_run = true) by reflexivity.
  assert (Hx : ARP_table sample_learnt_by_request !! sample_hop
               = Some {| MAC_addr := sample_hop_mac; caching_time := 0 |})
    by evaluate.
  assert (Hold : MAX_CACHE_TIME < size_sub 0 0 + run_elapsed sample_quiet_run)
    by evaluate.
  assert (Hnw : size_sub 0 0 + run_elapsed sample_quiet_run < 2 ^ 64)
    by evaluate.
  do 6 (split; [assumption |]).
  destruct (@cache_expiry_then_send sample_codec sample_quiet_run 0
              sample_learnt_by_request sample_hop
              {| MAC_addr := sample_hop_mac; caching_time := 0 |})
    as (_ & Hrun).
  destruct (Hrun Hwf Hquiet Htick Hx Hold Hnw) as (Hgone & _).
  exact Hgone.
Defined.

(** The run evaluated: the request of the third host is answered, its
    address is learnt, and the entry of [sample_hop] is gone at 30001. *)
Example sample_quiet_run_result :
  (@steps sample_codec sample_quiet_run (0, sample_learnt_by_request)).1
  = 30001
  ∧ ARP_table
      (@steps sample_codec sample_quiet_run
         (0, sample_learnt_by_request)).2 !! 0x0a000063
    = Some {| MAC_addr := 0x111111111111; caching_time := 20000 |}
  ∧ ARP_table
      (@steps sample_codec sample_quiet_run
         (0, sample_learnt_by_request)).2 !! sample_hop = None.
Proof. repeat split; evaluate. Qed.

Lemma arp_reply_hypotheses :
  type (header sample_reply_from_hop) = TYPE_ARP
  ∧ (dst (header sample_reply_from_hop) = ethernet_address_ sample_sent_thrice
     ∨ dst (header sample_reply_from_hop) = ETHERNET_BROADCAST)
  ∧ @parse_arp sample_codec (payload sample_reply_from_hop)
    = Some sample_reply_msg
  ∧ opcode sample_reply_msg = OPCODE_REPLY
  ∧ target_ip_address sample_reply_msg = ip_address_ sample_sent_thrice.
Proof. repeat split; try reflexivity. left. reflexivity. Defined.

(** The flush scenario: three datagrams queued for [sample_hop], then its
    reply: the three leave in order, addressed to [bb:bb:bb:bb:bb:bb]. *)
Lemma arp_reply_flushes_in_order_witness :
  type (header sample_reply_from_hop) = TYPE_ARP
  ∧ (dst (header sample_reply_from_hop) = ethernet_address_ sample_sent_thrice
     ∨ dst (header sample_reply_from_hop) = ETHERNET_BROADCAST)
  ∧ @parse_arp sample_codec (payload sample_reply_from_hop)
    = Some sample_reply_msg
  ∧ opcode sample_reply_msg = OPCODE_REPLY
  ∧ target_ip_address sample_reply_msg = ip_address_ sample_sent_thrice
  ∧ waiting_q sample_sent_thrice
    = [sample_item 0; sample_marker; sample_item 0; sample_marker;
       sample_item 0]
  ∧ ready2_sent_q
      (@recv_frame sample_codec 0 sample_reply_from_hop sample_sent_thrice).1
    = ready2_sent_q sample_sent_thrice
      ++ [set_dst sample_hop_mac (waiting_frame (sample_item 0));
          set_dst sample_hop_mac (waiting_frame (sample_item 0));
          set_dst sample_hop_mac (waiting_frame (sample_item 0))]
  ∧ waiting_q
      (@recv_frame sample_codec 0 sample_reply_from_hop sample_sent_thrice).1
    = [].
Proof.
  destruct arp_reply_hypotheses as (Hty & Hdst & Hparse & Hop & Htgt).
  do 5 (split; [assumption |]). split; [evaluate |].
  destruct (@arp_reply_flushes_in_order sample_codec 0 sample_reply_from_hop
              sample_sent_thrice sample_reply_msg Hty Hdst Hparse Hop Htgt)
    as (Hready & Hwait & _).
  split; [rewrite Hready | rewrite Hwait]; evaluate.
Defined.

Lemma reply_discards_markers_witness :
  type (header sample_reply_from_hop) = TYPE_ARP
  ∧ (dst (header sample_reply_from_hop) = ethernet_address_ sample_sent_thrice
     ∨ dst (header sample_reply_from_hop) = ETHERNET_BROADCAST)
  ∧ @parse_arp sample_codec (payload sample_reply_from_hop)
    = Some sample_reply_msg
  ∧ opcode sample_reply_msg = OPCODE_REPLY
  ∧ target_ip_address sample_reply_msg = ip_address_ sample_sent_thrice
  ∧ sample_marker ∈ waiting_q sample_sent_thrice
  ∧ (sample_marker
     ∉ waiting_q
         (@recv_frame sample_codec 0 sample_reply_from_hop
            sample_sent_thrice).1)
  ∧ Forall (λ f, type (header f) = TYPE_IPv4)
      (pushed sample_sent_thrice
         (@recv_frame sample_codec 0 sample_reply_from_hop
            sample_sent_thrice).1)
  ∧ @stays_resolved sample_codec sample_hop sample_resolved_run
      sample_after_reply
  ∧ Forall (λ p, for_ip sample_hop p = false)
      (waiting_q
         (@steps sample_codec sample_resolved_run sample_after_reply).2)
  ∧ List.filter (for_ip sample_hop)
      (resent_items 5000
         (@steps sample_codec sample_resolved_run sample_after_reply).1
         (@steps sample_codec sample_resolved_run sample_after_reply).2)
    = [].
Proof.
  destruct arp_reply_hypotheses as (Hty & Hdst & Hparse & Hop & Htgt).
  do 5 (split; [assumption |]).
  assert (Hin : sample_marker ∈ waiting_q sample_sent_thrice).
  { apply list_elem_of_In. vm_compute. right. left. reflexivity. }
  split; [exact Hin |].
  assert (Hstay : @stays_resolved sample_codec sample_hop sample_resolved_run
                    sample_after_reply).
  { unfold sample_resolved_run, stays_resolved.
    repeat (split; [eexists; vm_compute; reflexivity |]). exact I. }
  destruct (@reply_discards_markers sample_codec 0 sample_reply_from_hop
              sample_sent_thrice sample_reply_msg Hty Hdst Hparse Hop Htgt)
    as (Hdrop & Hpushed & _ & _ & _ & Hlater).
  split; [apply (Hdrop sample_marker Hin); reflexivity |].
  split; [exact Hpushed |]. split; [exact Hstay |].
  destruct (Hlater sample_resolved_run Hstay) as (Hnone & Hticks).
  split; [exact Hnone |].
  destruct (Hticks 5000) as (_ & Hresent). exact Hresent.
Defined.

(** The reply of [sample_hop] is processed at clock value 0 and empties the
    waiting queue.  After [tick(30001)] the entry has expired; two sends
    for [sample_hop] push a request and queue a retry marker; the broadcast
    request of [sample_hop] for a third host puts the address back in the
    cache.  [tick(5000)] then pushes the queued ARP request for
    [sample_hop] on the ready queue, with the address in the cache before
    and after that tick. *)
Lemma marker_resent_for_cached_address :
  waiting_q sample_after_reply.2 = []
  ∧ ARP_table sample_after_reply.2 !! sample_hop
    = Some {| MAC_addr := sample_hop_mac; caching_time := 0 |}
  ∧ sample_recached.1 = 30001
  ∧ ARP_table sample_recached.2 !! sample_hop
    = Some {| MAC_addr := sample_hop_mac; caching_time := 30001 |}
  ∧ waiting_q sample_recached.2
    = [sample_item 30001; sample_marker; sample_item 30001]
  ∧ ARP_table (tick 5000 sample_recached.1 sample_recached.2).2 !! sample_hop
    = Some {| MAC_addr := sample_hop_mac; caching_time := 30001 |}
  ∧ pushed sample_recached.2
      (tick 5000 sample_recached.1 sample_recached.2).2
    = [@ARP_request_frame sample_codec sample_A sample_hop]
  ∧ @is_ARP_request_for sample_codec sample_hop
      (@ARP_request_frame sample_codec sample_A sample_hop) = true.
Proof. repeat split; evaluate. Qed.

Lemma arp_request_throttling_witness :
  @arp_roundtrip sample_codec
  ∧ Forall wf_op sample_run
  ∧ @requests_spaced sample_codec sample_hop
      (@run_log sample_codec sample_run 0 (0, sample_A)).
Proof.
  assert (Hops : Forall wf_op sample_run).
  { unfold sample_run. repeat constructor; simpl; lia. }
  split; [exact sample_arp_roundtrip |]. split; [exact Hops |].
  destruct (@arp_request_throttling sample_codec 0xaaaaaaaaaaaa 0x0a000001
              sample_hop sample_arp_roundtrip) as (Hrun & _).
  exact (Hrun sample_run 0 Hops).
Defined.

(** The requests of [sample_run] are pushed at 0, 5000 and 10000 ms. *)
Example sample_run_requests :
  map fst
    (List.filter (λ tf, @is_ARP_request_for sample_codec sample_hop tf.2)
       (@run_log sample_codec sample_run 0 (0, sample_A)))
  = [0; 5000; 10000].
Proof. evaluate. Qed.

(** C8 on the code.  Interface A sent once for [sample_hop] at clock value
    0.  A [tick(5000)] on interface B changes no field of A, yet moves the
    clock that A reads from 0 to 5000: the next [send_datagram] on A pushes
    a second ARP request, where without B's tick it pushes none. *)
Theorem tick_on_other_interface_changes_behaviour :
  curr_time sample_world = 0
  ∧ curr_time (world_tick 1 5000 sample_world) = 5000
  ∧ objects (world_tick 1 5000 sample_world) !! 0%nat
    = objects sample_world !! 0%nat
  ∧ (ready2_sent_q <$>
       objects (@world_send sample_codec 0 sample_dgram sample_hop
                  sample_world) !! 0%nat)
    = Some [@ARP_request_frame sample_codec sample_A sample_hop]
  ∧ (ready2_sent_q <$>
       objects (@world_send sample_codec 0 sample_dgram sample_hop
                  (world_tick 1 5000 sample_world)) !! 0%nat)
    = Some [@ARP_request_frame sample_codec sample_A sample_hop;
            @ARP_request_frame sample_codec sample_A sample_hop].
Proof. repeat split; evaluate. Qed.

(** * Further properties of the code *)

(** ** [recv_frame]: what is ignored, delivered, answered and learnt *)

Section ReceivePaths.
Context `{Codec}.

(** X1.  [recv_frame] ignores a frame that is neither an IPv4 frame for its
    own link address nor an ARP frame, for its own address or broadcast,
    whose payload parses: the state is unchanged and nothing is
    returned. *)
Theorem recv_frame_ignores (now : Z) (frame : EthernetFrame)
    (ni : NetworkInterface) :
  dst (header frame) ≠ ethernet_address_ ni
    ∨ type (header frame) ≠ TYPE_IPv4 →
  type (header frame) ≠ TYPE_ARP
    ∨ (dst (header frame) ≠ ethernet_address_ ni
       ∧ dst (header frame) ≠ ETHERNET_BROADCAST)
    ∨ parse_arp (payload frame) = None →
  recv_frame now frame ni = (ni, None).
Proof.
  intros Hnot4 Hnotarp. unfold recv_frame.
  destruct (Z.eqb_spec (dst (header frame)) (ethernet_address_ ni)) as [Ed | Ed];
    destruct (Z.eqb_spec (type (header frame)) TYPE_IPv4) as [E4 | E4];
    destruct (Z.eqb_spec (type (header frame)) TYPE_ARP) as [Ea | Ea];
    destruct (Z.eqb_spec (dst (header frame)) ETHERNET_BROADCAST) as [Eb | Eb];
    simpl; try reflexivity; try (exfalso; tauto);
    try (rewrite E4 in Ea; discriminate Ea);
    destruct Hnotarp as [? | [[? ?] | ->]]; try contradiction; reflexivity.
Qed.

(** X2.  A datagram sent to a cached next hop goes out at once, in one
    IPv4 frame for the cached link address, and nothing is queued.  That
    frame, received by the interface that owns the link address, comes
    back as the same datagram without any change of state; received by
    any other interface, it is ignored. *)
Theorem send_then_recv_delivers (now now' : Z) (dgram : InternetDatagram)
    (x : Z) (A B : NetworkInterface) (e : Ether_Addr_Entry) :
  dgram_roundtrip →
  ARP_table A !! x = Some e →
  send_datagram now dgram x A
    = set_ready2_sent_q
        (ready2_sent_q A ++ [ether_frame_to A (MAC_addr e) dgram]) A
  ∧ (MAC_addr e = ethernet_address_ B →
     recv_frame now' (ether_frame_to A (MAC_addr e) dgram) B = (B, Some dgram))
  ∧ (MAC_addr e ≠ ethernet_address_ B →
     recv_frame now' (ether_frame_to A (MAC_addr e) dgram) B = (B, None)).
Proof.
  intros Hrt Hx. split; [apply send_datagram_resolved, Hx |]. split.
  - intros Hmac. unfold recv_frame, ether_frame_to. simpl.
    rewrite Hmac, Z.eqb_refl. simpl. rewrite Hrt. reflexivity.
  - intros Hmac. unfold recv_frame, ether_frame_to. simpl.
    destruct (Z.eqb_spec (MAC_addr e) (ethernet_address_ B));
      [contradiction |].
    simpl. rewrite andb_false_r. reflexivity.
Qed.

(** What [recv_frame] does with an accepted ARP message that is not for
    the address of this interface, whatever its opcode. *)
Lemma recv_frame_overheard (now : Z) (frame : EthernetFrame)
    (ni : NetworkInterface) (msg : ARPMessage) :
  type (header frame) = TYPE_ARP →
  dst (header frame) = ethernet_address_ ni
    ∨ dst (header frame) = ETHERNET_BROADCAST →
  parse_arp (payload frame) = Some msg →
  target_ip_address msg ≠ ip_address_ ni →
  recv_frame now frame ni =
    (set_ARP_table
       (<[sender_ip_address msg :=
            {| MAC_addr := sender_ethernet_address msg;
               caching_time := now |}]> (ARP_table ni)) ni,
     None).
Proof.
  intros Hty Hdst Hparse Htgt. unfold recv_frame.
  rewrite Hty, Hparse.
  change (TYPE_ARP =? TYPE_IPv4) with false.
  change (TYPE_ARP =? TYPE_ARP) with true.
  rewrite !andb_false_r, !andb_true_r.
  assert (Hacc : (dst (header frame) =? ethernet_address_ ni)
                 || (dst (header frame) =? ETHERNET_BROADCAST) = true).
  { destruct Hdst as [-> | ->]; rewrite Z.eqb_refl;
      [reflexivity | apply orb_true_r]. }
  rewrite Hacc.
  destruct (Z.eqb_spec (ip_address_ ni) (target_ip_address msg)) as [E | _];
    [symmetry in E; contradiction |].
  rewrite !andb_false_r. reflexivity.
Qed.

(** X4.  An accepted ARP message whose target is not this interface
    teaches the cache and does nothing else: no reply, no flush.  A
    datagram sent afterwards to the learnt address goes out at once for
    the learnt link address, while the items queued earlier for that
    address stay in the waiting queue. *)
Theorem overheard_arp_learns_without_flush (now now' : Z)
    (frame : EthernetFrame) (ni : NetworkInterface) (msg : ARPMessage)
    (dgram : InternetDatagram) :
  type (header frame) = TYPE_ARP →
  dst (header frame) = ethernet_address_ ni
    ∨ dst (header frame) = ETHERNET_BROADCAST →
  parse_arp (payload frame) = Some msg →
  target_ip_address msg ≠ ip_address_ ni →
  let ni' := (recv_frame now frame ni).1 in
  let ni'' := send_datagram now' dgram (sender_ip_address msg) ni' in
  ARP_table ni' !! sender_ip_address msg
    = Some {| MAC_addr := sender_ethernet_address msg; caching_time := now |}
  ∧ (∀ k, k ≠ sender_ip_address msg → ARP_table ni' !! k = ARP_table ni !! k)
  ∧ ready2_sent_q ni' = ready2_sent_q ni
  ∧ waiting_q ni' = waiting_q ni
  ∧ request_history ni' = request_history ni
  ∧ ready2_sent_q ni''
    = ready2_sent_q ni
      ++ [ether_frame_to ni (sender_ethernet_address msg) dgram]
  ∧ waiting_q ni'' = waiting_q ni.
Proof.
  intros Hty Hdst Hparse Htgt ni' ni''. subst ni'' ni'.
  rewrite (recv_frame_overheard now frame ni msg Hty Hdst Hparse Htgt). simpl.
  split; [apply lookup_insert_eq |].
  split; [intros k Hk; apply lookup_insert_ne; congruence |].
  do 3 (split; [reflexivity |]).
  erewrite send_datagram_resolved by (simpl; apply lookup_insert_eq).
  split; reflexivity.
Qed.

(** What [recv_frame] does with an accepted ARP request for the address
    of this interface. *)
Lemma recv_frame_request (now : Z) (frame : EthernetFrame)
    (ni : NetworkInterface) (msg : ARPMessage) :
  type (header frame) = TYPE_ARP →
  dst (header frame) = ethernet_address_ ni
    ∨ dst (header frame) = ETHERNET_BROADCAST →
  parse_arp (payload frame) = Some msg →
  opcode msg = OPCODE_REQUEST →
  target_ip_address msg = ip_address_ ni →
  recv_frame now frame ni =
    (set_ready2_sent_q
       (ready2_sent_q ni
        ++ [ARP_reply_frame ni (sender_ethernet_address msg)
              (sender_ip_address msg)])
       (set_ARP_table
          (<[sender_ip_address msg :=
               {| MAC_addr := sender_ethernet_address msg;
                  caching_time := now |}]> (ARP_table ni)) ni),
     None).
Proof.
  intros Hty Hdst Hparse Hop Htgt. unfold recv_frame.
  rewrite Hty, Hparse, Hop, Htgt.
  change (TYPE_ARP =? TYPE_IPv4) with false.
  change (TYPE_ARP =? TYPE_ARP) with true.
  change (OPCODE_REQUEST =? OPCODE_REQUEST) with true.
  rewrite Z.eqb_refl, !andb_false_r, !andb_true_r. simpl.
  assert (Hacc : (dst (header frame) =? ethernet_address_ ni)
                 || (dst (header frame) =? ETHERNET_BROADCAST) = true).
  { destruct Hdst as [-> | ->]; rewrite Z.eqb_refl;
      [reflexivity | apply orb_true_r]. }
  rewrite Hacc. reflexivity.
Qed.

(** X3.  The ARP exchange between two interfaces.  [A] sends a datagram to
    the address of [B], which it neither has in its cache nor asked for
    in the last [MAX_WAITING_TIME]: the broadcast request goes out.  [B]
    receives it: it learns [A] and pushes one reply, addressed to [A].
    [A] receives the reply: it learns [B], and its ready queue gains the
    datagrams that waited for [B], the new one last, each addressed to
    the link address of [B]; nothing for [B] is left waiting. *)
Theorem arp_exchange (now1 now2 now3 : Z) (dgram : InternetDatagram)
    (A B : NetworkInterface) :
  arp_roundtrip →
  ARP_table A !! ip_address_ B = None →
  (∀ h, request_history A !! ip_address_ B = Some h →
        MAX_WAITING_TIME ≤ size_sub now1 h) →
  let request := ARP_request_frame A (ip_address_ B) in
  let reply := ARP_reply_frame B (ethernet_address_ A) (ip_address_ A) in
  let A1 := send_datagram now1 dgram (ip_address_ B) A in
  let B1 := (recv_frame now2 request B).1 in
  let A2 := (recv_frame now3 reply A1).1 in
  ready2_sent_q A1 = ready2_sent_q A ++ [request]
  ∧ ready2_sent_q B1 = ready2_sent_q B ++ [reply]
  ∧ ARP_table B1 !! ip_address_ A
    = Some {| MAC_addr := ethernet_address_ A; caching_time := now2 |}
  ∧ ARP_table A2 !! ip_address_ B
    = Some {| MAC_addr := ethernet_address_ B; caching_time := now3 |}
  ∧ ready2_sent_q A2
    = ready2_sent_q A1
      ++ map (λ p, set_dst (ethernet_address_ B) (waiting_frame p))
           (List.filter (λ p, for_ip (ip_address_ B) p && is_dgram_item p)
              (waiting_q A))
      ++ [ether_frame_to A (ethernet_address_ B) dgram]
  ∧ Forall (λ p, for_ip (ip_address_ B) p = false) (waiting_q A2).
Proof.
  intros Hrt Hx Hstale request reply A1 B1 A2.
  assert (EA1 : A1 =
    {| ethernet_address_ := ethernet_address_ A;
       ip_address_ := ip_address_ A;
       ARP_table := ARP_table A;
       ready2_sent_q := ready2_sent_q A ++ [request];
       waiting_q :=
         waiting_q A
         ++ [ {| dst_ip := ip_address_ B;
                 waiting_frame := ether_frame_no_MAC A dgram;
                 time := now1 |} ];
       request_history := <[ip_address_ B := now1]> (request_history A) |}).
  { subst A1. rewrite (send_datagram_unresolved now1 dgram _ A Hx).
    destruct (request_history A !! ip_address_ B) as [h |] eqn:Hh;
      [| reflexivity].
    specialize (Hstale h eq_refl).
    destruct (Z.ltb_spec (size_sub now1 h) MAX_WAITING_TIME); [lia |].
    reflexivity. }
  assert (EB1 : recv_frame now2 request B =
    (set_ready2_sent_q (ready2_sent_q B ++ [reply])
       (set_ARP_table
          (<[ip_address_ A := {| MAC_addr := ethernet_address_ A;
                                 caching_time := now2 |}]> (ARP_table B)) B),
     None)).
  { apply (recv_frame_request now2 request B
             (make_arp_message (ethernet_address_ A) (ip_address_ A)
                ETHERNET_ZERO (ip_address_ B) OPCODE_REQUEST));
      try reflexivity.
    - right. reflexivity.
    - apply Hrt. }
  assert (EA2 : recv_frame now3 reply A1 = _)
    by (apply (recv_frame_reply now3 reply A1
                 (make_arp_message (ethernet_address_ B) (ip_address_ B)
                    (ethernet_address_ A) (ip_address_ A) OPCODE_REPLY));
        [reflexivity | left; rewrite EA1; reflexivity | apply Hrt
        | reflexivity | rewrite EA1; reflexivity]).
  subst B1 A2. rewrite EB1, EA2. simpl.
  split; [rewrite EA1; reflexivity |]. split; [reflexivity |].
  split; [apply lookup_insert_eq |]. split; [apply lookup_insert_eq |].
  split.
  - f_equal. rewrite EA1. simpl. rewrite List.filter_app, map_app. simpl.
    rewrite Z.eqb_refl. simpl. reflexivity.
  - apply Forall_forall. intros p Hin.
    apply list_elem_of_In, filter_In in Hin as [_ Hp].
    unfold for_ip. destruct (dst_ip p =? ip_address_ B);
      [discriminate | reflexivity].
Qed.

End ReceivePaths.

(** ** [tick]: what stays *)

Lemma tick_items_keeps_datagrams (now : Z) (q : list Waiting_Packet)
    (hist : gmap Z Z) :
  List.filter is_dgram_item (tick_items now q hist).2
  = List.filter is_dgram_item q.
Proof.
  revert hist. induction q as [| p q IH]; intros hist; [reflexivity |].
  simpl. destruct (subscript hist (dst_ip p)) as [t hist1].
  assert (Hexcl : is_marker p = true → is_dgram_item p = false).
  { unfold is_marker, is_dgram_item. intros Hm.
    apply andb_true_iff in Hm as [Hm _]. apply Z.eqb_eq in Hm. rewrite Hm.
    reflexivity. }
  destruct ((MAX_WAITING_TIME <=? size_sub now t) && is_marker p) eqn:Edue.
  - apply andb_true_iff in Edue as [_ Hm]. rewrite (Hexcl Hm).
    specialize (IH (<[dst_ip p:=now]> hist1)).
    destruct (tick_items now q (<[dst_ip p:=now]> hist1)) as [[h rs] ks].
    exact IH.
  - specialize (IH hist1).
    destruct (is_dgram_item p) eqn:Ed; simpl.
    + destruct (tick_items now q hist1) as [[h rs] ks]. simpl.
      rewrite Ed. f_equal. exact IH.
    + destruct (size_sub now (time p) <? MAX_WAITING_TIME).
      * destruct (tick_items now q hist1) as [[h rs] ks]. simpl.
        rewrite Ed. exact IH.
      * exact IH.
Qed.

Lemma tick_items_length (now : Z) (q : list Waiting_Packet) (hist : gmap Z Z) :
  (length (tick_items now q hist).2 ≤ length q)%nat.
Proof.
  revert hist. induction q as [| p q IH]; intros hist; [simpl; lia |].
  simpl. destruct (subscript hist (dst_ip p)) as [t hist1].
  destruct ((MAX_WAITING_TIME <=? size_sub now t) && is_marker p).
  - specialize (IH (<[dst_ip p:=now]> hist1)).
    destruct (tick_items now q (<[dst_ip p:=now]> hist1)) as [[h rs] ks].
    simpl in *. lia.
  - specialize (IH hist1).
    destruct (is_dgram_item p
              || (size_sub now (time p) <? MAX_WAITING_TIME)).
    + destruct (tick_items now q hist1) as [[h rs] ks]. simpl in *. lia.
    + lia.
Qed.

Section TickKeeps.
Context `{Codec}.

(** X5.  A cache entry is kept by every run of [tick]s that leaves its age
    at or below [MAX_CACHE_TIME]: the entry is still there with the same
    link address, and a datagram for it goes out at once. *)
Theorem cache_entry_retained_within_ttl (mss : list Z) (now : Z)
    (ni : NetworkInterface) (x : Z) (e : Ether_Addr_Entry) :
  Forall (λ ms, 0 ≤ ms) mss →
  ARP_table ni !! x = Some e →
  size_sub now (caching_time e) + foldr Z.add 0 mss ≤ MAX_CACHE_TIME →
  ARP_table (steps (map OpTick mss) (now, ni)).2 !! x = Some e
  ∧ ∀ dgram,
      ready2_sent_q
        (send_datagram (steps (map OpTick mss) (now, ni)).1 dgram x
           (steps (map OpTick mss) (now, ni)).2)
      = ready2_sent_q (steps (map OpTick mss) (now, ni)).2
        ++ [ether_frame_to ni (MAC_addr e) dgram].
Proof.
  intros Hpos Hx Hage.
  assert (Hkeep : ARP_table (steps (map OpTick mss) (now, ni)).2 !! x = Some e
                  ∧ ethernet_address_ (steps (map OpTick mss) (now, ni)).2
                    = ethernet_address_ ni).
  { revert now ni Hx Hage.
    induction mss as [| ms mss IH]; intros now ni Hx Hage; [auto |].
    apply Forall_cons in Hpos as [Hms Hpos]. simpl in Hage.
    assert (Hsumpos : 0 ≤ foldr Z.add 0 mss).
    { clear -Hpos. induction Hpos; simpl; lia. }
    unfold steps. simpl. fold (steps (map OpTick mss) (tick ms now ni)).
    pose proof (tick_cache_lookup ms now ni x) as Hc. rewrite Hx in Hc.
    destruct (tick_fields ms now ni) as (Hclock & _ & _ & _ & _ & Hmac & _).
    destruct (tick ms now ni) as [now1 ni1]. simpl in Hc, Hclock, Hmac.
    subst now1. unfold MAX_CACHE_TIME in *.
    pose proof (size_sub_add_exact now ms (caching_time e) Hms ltac:(lia))
      as Hexact.
    destruct (Z.ltb_spec 30000 (size_sub (size_add now ms) (caching_time e)));
      [lia |].
    rewrite <- Hmac. apply (IH Hpos); [exact Hc | lia]. }
  destruct Hkeep as [Hkeep Hmac]. split; [exact Hkeep |]. intros dgram.
  rewrite (send_datagram_resolved _ dgram x _ e Hkeep). simpl.
  unfold ether_frame_to. rewrite Hmac. reflexivity.
Qed.

(** X6.  [tick] neither sends nor drops a waiting datagram: the IPv4-typed
    items of the waiting queue are the same, in the same order, after the
    call, and every frame that the call pushes on the ready queue is the
    frame of a retry marker, ARP-typed with the broadcast destination. *)
Theorem tick_keeps_datagrams (ms now : Z) (ni : NetworkInterface) :
  List.filter is_dgram_item (waiting_q (tick ms now ni).2)
  = List.filter is_dgram_item (waiting_q ni)
  ∧ ready2_sent_q (tick ms now ni).2
    = ready2_sent_q ni ++ pushed ni (tick ms now ni).2
  ∧ Forall (λ f, type (header f) = TYPE_ARP
                 ∧ dst (header f) = ETHERNET_BROADCAST)
      (pushed ni (tick ms now ni).2)
  ∧ (length (waiting_q (tick ms now ni).2) ≤ length (waiting_q ni))%nat.
Proof.
  destruct (tick_fields ms now ni) as (_ & _ & Eready & Ewait & _).
  rewrite Ewait, (pushed_app _ _ _ Eready).
  split; [apply tick_items_keeps_datagrams |]. split; [exact Eready |].
  unfold resent_items.
  destruct (tick_items_sub (size_add now ms) (waiting_q ni) (request_history ni))
    as (Hrs & _).
  split.
  - apply Forall_fmap. eapply Forall_impl; [exact Hrs |].
    intros p [_ Hm]. unfold is_marker in Hm.
    apply andb_true_iff in Hm as [H1 H2]. simpl.
    split; apply Z.eqb_eq; assumption.
  - apply tick_items_length.
Qed.

(** X16.  The retry path end to end.  A [send_datagram] that is throttled
    (record younger than [MAX_WAITING_TIME]) queues a retry marker; if the
    very next [tick] finds the record at least [MAX_WAITING_TIME] old, it
    resends exactly one item for that address, a retry marker, and sets
    the record to the new clock value. *)
Theorem throttled_send_then_tick_retries (now ms : Z)
    (dgram : InternetDatagram) (x h : Z) (ni : NetworkInterface) :
  ARP_table ni !! x = None →
  request_history ni !! x = Some h →
  size_sub now h < MAX_WAITING_TIME →
  MAX_WAITING_TIME ≤ size_sub (size_add now ms) h →
  let ni1 := send_datagram now dgram x ni in
  let ni2 := (tick ms now ni1).2 in
  ready2_sent_q ni1 = ready2_sent_q ni
  ∧ ready2_sent_q ni2
    = ready2_sent_q ni ++ map waiting_frame (resent_items ms now ni1)
  ∧ (∃ m, List.filter (for_ip x) (resent_items ms now ni1) = [m]
          ∧ is_marker m = true ∧ dst_ip m = x
          ∧ (queue_wf ni → waiting_frame m = ARP_request_frame ni x))
  ∧ request_history ni2 !! x = Some (size_add now ms)
  ∧ List.filter is_dgram_item (waiting_q ni2)
    = List.filter is_dgram_item (waiting_q ni)
      ++ [ {| dst_ip := x; waiting_frame := ether_frame_no_MAC ni dgram;
              time := now |} ].
Proof.
  intros Hx Hh Hyoung Hstale ni1 ni2.
  assert (E1 : ni1 =
    {| ethernet_address_ := ethernet_address_ ni;
       ip_address_ := ip_address_ ni;
       ARP_table := ARP_table ni;
       ready2_sent_q := ready2_sent_q ni;
       waiting_q :=
         waiting_q ni
         ++ [ {| dst_ip := x; waiting_frame := ARP_request_frame ni x;
                 time := SIZE_MAX |};
              {| dst_ip := x; waiting_frame := ether_frame_no_MAC ni dgram;
                 time := now |} ];
       request_history := request_history ni |}).
  { subst ni1. rewrite (send_datagram_unresolved now dgram x ni Hx). rewrite Hh.
    destruct (Z.ltb_spec (size_sub now h) MAX_WAITING_TIME); [| lia].
    simpl. rewrite app_nil_r. reflexivity. }
  destruct (tick_fields ms now ni1) as (_ & Ehist & Eready & Ewait & _).
  pose proof (tick_items_keeps_datagrams (size_add now ms) (waiting_q ni1)
                (request_history ni1)) as Ekeep.
  rewrite <- Ewait in Ekeep.
  fold ni2 in Ehist, Eready, Ewait, Ekeep.
  split; [rewrite E1; reflexivity |].
  split; [rewrite Eready, E1; reflexivity |].
  assert (Hh1 : request_history ni1 !! x = Some h) by (rewrite E1; exact Hh).
  split; [| split].
  - destruct (first_true_split (λ p, for_ip x p && is_marker p) (waiting_q ni1))
      as [Hnone | (q1 & m & q2 & Eq & Hq1 & Hm)].
    + exfalso. rewrite E1 in Hnone. simpl in Hnone.
      apply Forall_app in Hnone as [_ Hnone].
      apply Forall_cons in Hnone as [Hnone _].
      unfold for_ip in Hnone. simpl in Hnone. rewrite Z.eqb_refl in Hnone.
      discriminate.
    + apply andb_true_iff in Hm as [Hm Hmk].
      destruct (tick_items_fire (size_add now ms) x h q1 m q2
                  (request_history ni1) Hh1 Hstale Hq1 Hm Hmk) as (_ & F2 & _).
      exists m. unfold resent_items. rewrite Eq.
      split; [exact F2 |]. split; [exact Hmk |].
      split; [apply for_ip_true, Hm |].
      intros Hwf.
      assert (Hin : m ∈ waiting_q ni1)
        by (rewrite Eq; apply elem_of_app; right; left).
      rewrite E1 in Hin. simpl in Hin.
      apply for_ip_true in Hm.
      apply elem_of_app in Hin as [Hin | Hin].
      * rewrite <- Hm. apply (Hwf m Hin), Hmk.
      * apply elem_of_cons in Hin as [-> | Hin]; [reflexivity |].
        apply list_elem_of_singleton in Hin. subst m. discriminate Hmk.
  - rewrite Ehist.
    destruct (first_true_split (λ p, for_ip x p && is_marker p) (waiting_q ni1))
      as [Hnone | (q1 & m & q2 & Eq & Hq1 & Hm)].
    + exfalso. rewrite E1 in Hnone. simpl in Hnone.
      apply Forall_app in Hnone as [_ Hnone].
      apply Forall_cons in Hnone as [Hnone _].
      unfold for_ip in Hnone. simpl in Hnone. rewrite Z.eqb_refl in Hnone.
      discriminate.
    + apply andb_true_iff in Hm as [Hm Hmk]. rewrite Eq.
      apply (tick_items_fire (size_add now ms) x h q1 m q2
               (request_history ni1) Hh1 Hstale Hq1 Hm Hmk).
  - rewrite Ekeep, E1. simpl. rewrite List.filter_app. reflexivity.
Qed.

End TickKeeps.

(** ** The queues and the tables over whole runs *)

(** X8.  [maybe_send] hands the ready queue out first in, first out: [n]
    calls return its first [n] frames in order and leave the rest, every
    other field untouched; on an empty queue a call returns nothing and
    changes nothing. *)
Theorem maybe_send_fifo (n : nat) (ni : NetworkInterface) :
  drain n ni
  = (set_ready2_sent_q (drop n (ready2_sent_q ni)) ni,
     take n (ready2_sent_q ni))
  ∧ (ready2_sent_q ni = [] → maybe_send ni = (ni, None)).
Proof.
  split.
  - revert ni. induction n as [| n IH]; intros ni.
    + destruct ni. reflexivity.
    + simpl. unfold maybe_send.
      destruct (ready2_sent_q ni) as [| f rest] eqn:Eq.
      * rewrite IH, Eq. destruct n; reflexivity.
      * rewrite IH. reflexivity.
  - intros Eq. unfold maybe_send. rewrite Eq. reflexivity.
Qed.

Section RunInvariants.
Context `{Codec}.

(** The outcomes of [recv_frame]: nothing changes, or an ARP message was
    accepted and its sender learnt, followed by a reply, a flush, or
    nothing. *)
Lemma recv_frame_cases (now : Z) (frame : EthernetFrame)
    (ni : NetworkInterface) :
  (∃ r, recv_frame now frame ni = (ni, r))
  ∨ ∃ msg,
      type (header frame) = TYPE_ARP
      ∧ (dst (header frame) = ethernet_address_ ni
         ∨ dst (header frame) = ETHERNET_BROADCAST)
      ∧ parse_arp (payload frame) = Some msg
      ∧ (recv_frame now frame ni
         = (set_ready2_sent_q
              (ready2_sent_q ni
               ++ [ARP_reply_frame ni (sender_ethernet_address msg)
                     (sender_ip_address msg)])
              (set_ARP_table
                 (<[sender_ip_address msg :=
                      {| MAC_addr := sender_ethernet_address msg;
                         caching_time := now |}]> (ARP_table ni)) ni),
            None)
         ∨ recv_frame now frame ni
           = (set_waiting_q
                (List.filter (λ p, negb (dst_ip p =? sender_ip_address msg))
                   (waiting_q ni))
                (set_ready2_sent_q
                   (ready2_sent_q ni
                    ++ map (λ p, set_dst (sender_ethernet_address msg)
                                   (waiting_frame p))
                         (List.filter
                            (λ p, (dst_ip p =? sender_ip_address msg)
                                  && is_dgram_item p)
                            (waiting_q ni)))
                   (set_ARP_table
                      (<[sender_ip_address msg :=
                           {| MAC_addr := sender_ethernet_address msg;
                              caching_time := now |}]> (ARP_table ni)) ni)),
              None)
         ∨ recv_frame now frame ni
           = (set_ARP_table
                (<[sender_ip_address msg :=
                     {| MAC_addr := sender_ethernet_address msg;
                        caching_time := now |}]> (ARP_table ni)) ni,
              None)).
Proof.
  unfold recv_frame.
  destruct ((dst (header frame) =? ethernet_address_ ni)
            && (type (header frame) =? TYPE_IPv4)); [left; eauto |].
  destruct ((dst (header frame) =? ethernet_address_ ni)
            && (type (header frame) =? TYPE_ARP)
            || (dst (header frame) =? ETHERNET_BROADCAST)
               && (type (header frame) =? TYPE_ARP)) eqn:Eacc;
    [| left; eauto].
  destruct (parse_arp (payload frame)) as [msg |]; [| left; eauto].
  right. exists msg.
  assert (Hacc : type (header frame) = TYPE_ARP
                 ∧ (dst (header frame) = ethernet_address_ ni
                    ∨ dst (header frame) = ETHERNET_BROADCAST)).
  { apply orb_true_iff in Eacc as [E | E];
      apply andb_true_iff in E as [E1 E2];
      apply Z.eqb_eq in E1, E2; auto. }
  destruct Hacc as [Hty Hdst].
  split; [exact Hty |]. split; [exact Hdst |]. split; [reflexivity |].
  destruct ((opcode msg =? OPCODE_REQUEST)
            && (ip_address_ ni =? target_ip_address msg));
    [left; reflexivity |].
  destruct ((opcode msg =? OPCODE_REPLY)
            && (ip_address_ ni =? target_ip_address msg));
    [| right; right; reflexivity].
  right. left. simpl. rewrite flush_waiting_spec. reflexivity.
Qed.

(** Every call appends to the ready queue. *)
Lemma step_appends (o : op) (s : Z * NetworkInterface) :
  ready2_sent_q (step o s).2
  = ready2_sent_q s.2 ++ pushed s.2 (step o s).2.
Proof.
  assert (Hex : ∃ new, ready2_sent_q (step o s).2 = ready2_sent_q s.2 ++ new).
  { destruct s as [now ni]. destruct o as [dgram y | frame | ms]; simpl.
    - destruct (ARP_table ni !! y) as [e |] eqn:Hy.
      + rewrite (send_datagram_resolved now dgram y ni e Hy). simpl. eauto.
      + rewrite (send_datagram_unresolved now dgram y ni Hy). simpl. eauto.
    - destruct (recv_frame_cases now frame ni)
        as [[r ->] | (msg & _ & _ & _ & [-> | [-> | ->]])]; simpl; eauto.
      all: exists []; rewrite app_nil_r; reflexivity.
    - destruct (tick_fields ms now ni) as (_ & _ & E & _). eauto. }
  destruct Hex as [new E]. rewrite (pushed_app _ _ _ E). exact E.
Qed.

(** X7.  The ready queue is append-only under [send_datagram],
    [recv_frame] and [tick]: after any run it is the queue before the run
    followed by the frames of the log of the run, so the frame that
    [maybe_send] returns next is not changed by the run. *)
Theorem ready_queue_append_only (ops : list op) (elapsed : Z)
    (s : Z * NetworkInterface) :
  ready2_sent_q (steps ops s).2
  = ready2_sent_q s.2 ++ map snd (run_log ops elapsed s)
  ∧ ∀ f rest, ready2_sent_q s.2 = f :: rest →
      (maybe_send (steps ops s).2).2 = Some f.
Proof.
  assert (Happ : ready2_sent_q (steps ops s).2
                 = ready2_sent_q s.2 ++ map snd (run_log ops elapsed s)).
  { revert elapsed s. induction ops as [| o ops IH]; intros elapsed s.
    - simpl. rewrite app_nil_r. reflexivity.
    - unfold steps. simpl. fold (steps ops (step o s)).
      rewrite (IH (elapsed_after o elapsed) (step o s)), (step_appends o s).
      rewrite map_app, map_map. simpl. rewrite map_id, app_assoc.
      reflexivity. }
  split; [exact Happ |].
  intros f rest Eq. unfold maybe_send. rewrite Happ, Eq. reflexivity.
Qed.

Lemma item_shape_same (ni ni' : NetworkInterface) (p : Waiting_Packet) :
  ethernet_address_ ni' = ethernet_address_ ni →
  ip_address_ ni' = ip_address_ ni →
  item_shape ni p → item_shape ni' p.
Proof.
  intros Emac Eip. unfold item_shape, ether_frame_no_MAC, ARP_request_frame.
  rewrite Emac, Eip. auto.
Qed.

Lemma item_shape_frame (ni : NetworkInterface) (p : Waiting_Packet) :
  item_shape ni p →
  src (header (waiting_frame p)) = ethernet_address_ ni
  ∧ (type (header (waiting_frame p)) = TYPE_IPv4
     ∨ type (header (waiting_frame p)) = TYPE_ARP).
Proof. intros [[d ->] | [-> _]]; simpl; auto. Qed.

(** One call keeps the addresses and the invariant of the interface. *)
Lemma step_interface_inv (o : op) (s : Z * NetworkInterface) :
  interface_inv s.2 →
  ethernet_address_ (step o s).2 = ethernet_address_ s.2
  ∧ ip_address_ (step o s).2 = ip_address_ s.2
  ∧ interface_inv (step o s).2.
Proof.
  destruct s as [now ni]. simpl. intros (Hshape & Hrec & Hready).
  destruct o as [dgram y | frame | ms]; simpl.
  - (* send_datagram *)
    destruct (ARP_table ni !! y) as [e |] eqn:Hy.
    + rewrite (send_datagram_resolved now dgram y ni e Hy).
      do 2 (split; [reflexivity |]). split; [exact Hshape |].
      split; [exact Hrec |]. simpl.
      apply Forall_app. split; [exact Hready |].
      apply Forall_cons. split; [| constructor].
      split; [reflexivity | left; reflexivity].
    + rewrite (send_datagram_unresolved now dgram y ni Hy).
      do 2 (split; [reflexivity |]). unfold interface_inv. simpl.
      set (fresh := match request_history ni !! y with
                    | Some h => negb (size_sub now h <? MAX_WAITING_TIME)
                    | None => true
                    end).
      assert (Hy' : is_Some ((if fresh then <[y:=now]> (request_history ni)
                              else request_history ni) !! y)).
      { subst fresh. destruct (request_history ni !! y) as [h |] eqn:Hh.
        - destruct (negb _); [rewrite lookup_insert_eq | rewrite Hh]; eauto.
        - rewrite lookup_insert_eq. eauto. }
      split; [| split].
      * apply Forall_app. split.
        -- eapply Forall_impl; [exact Hshape |]. intros p Hp.
           eapply item_shape_same; [| | exact Hp]; reflexivity.
        -- destruct fresh.
           ++ apply Forall_cons. split; [| constructor].
              left. exists dgram. reflexivity.
           ++ apply Forall_cons. split; [right; split; reflexivity |].
              apply Forall_cons. split; [| constructor].
              left. exists dgram. reflexivity.
      * apply Forall_app. split.
        -- eapply Forall_impl; [exact Hrec |]. intros p Hp. simpl in *.
           destruct fresh; [| exact Hp].
           destruct (decide (y = dst_ip p)) as [<- | Hne];
             [rewrite lookup_insert_eq; eauto
             | rewrite lookup_insert_ne by exact Hne; exact Hp].
        -- destruct fresh; repeat (apply Forall_cons; split; [exact Hy' |]);
             constructor.
      * apply Forall_app. split; [exact Hready |].
        destruct fresh; [| constructor].
        apply Forall_cons. split; [| constructor].
        split; [reflexivity | right; reflexivity].
  - (* recv_frame *)
    destruct (recv_frame_cases now frame ni)
      as [[r ->] | (msg & _ & _ & _ & [-> | [-> | ->]])]; simpl.
    + do 2 (split; [reflexivity |]). repeat split; assumption.
    + do 2 (split; [reflexivity |]). split; [exact Hshape |].
      split; [exact Hrec |]. simpl.
      apply Forall_app. split; [exact Hready |].
      apply Forall_cons. split; [| constructor].
      split; [reflexivity | right; reflexivity].
    + do 2 (split; [reflexivity |]). unfold interface_inv. simpl.
      rewrite Forall_forall in Hshape, Hrec.
      split; [| split].
      * apply Forall_forall. intros p Hin.
        apply list_elem_of_In, filter_In in Hin as [Hin _].
        apply list_elem_of_In in Hin.
        eapply item_shape_same; [| | apply Hshape, Hin]; reflexivity.
      * apply Forall_forall. intros p Hin.
        apply list_elem_of_In, filter_In in Hin as [Hin _].
        apply Hrec, list_elem_of_In, Hin.
      * apply Forall_app. split; [exact Hready |].
        apply Forall_forall. intros f Hin.
        apply list_elem_of_fmap in Hin as (p & -> & Hin).
        apply list_elem_of_In, filter_In in Hin as [Hin Hp].
        apply list_elem_of_In in Hin.
        destruct (item_shape_frame ni p (Hshape p Hin)) as [Hsrc _].
        apply andb_true_iff in Hp as [_ Hp]. apply Z.eqb_eq in Hp.
        split; [exact Hsrc | left; exact Hp].
    + do 2 (split; [reflexivity |]). repeat split; assumption.
  - (* tick *)
    destruct (tick_fields ms now ni)
      as (_ & Ehist & Eready & Ewait & _ & Emac & Eip).
    split; [exact Emac |]. split; [exact Eip |].
    destruct (tick_items_sub (size_add now ms) (waiting_q ni)
                (request_history ni)) as (Hrs & Hks & Hdom).
    rewrite Forall_forall in Hshape, Hrec, Hks, Hrs.
    unfold interface_inv. rewrite Ehist, Eready, Ewait.
    split; [| split].
    + apply Forall_forall. intros p Hin.
      eapply item_shape_same; [exact Emac | exact Eip |].
      apply Hshape, Hks, Hin.
    + apply Forall_forall. intros p Hin. apply Hdom, Hrec, Hks, Hin.
    + apply Forall_app. split.
      * eapply Forall_impl; [exact Hready |]. intros f [Hsrc Hty].
        split; [rewrite Emac; exact Hsrc | exact Hty].
      * apply Forall_forall. intros f Hin.
        apply list_elem_of_fmap in Hin as (p & -> & Hin).
        destruct (Hrs p Hin) as [Hq _].
        destruct (item_shape_frame ni p (Hshape p Hq)) as [Hsrc Hty].
        split; [rewrite Emac; exact Hsrc | exact Hty].
Qed.

(** X9.  The invariant of an interface, for every run of calls from its
    construction: its two addresses never change; every waiting item is a
    datagram frame without destination or the ARP request for the item's
    own address stamped [SIZE_MAX]; the address of every waiting item has
    a request record; and every frame of the ready queue carries the
    interface's own link address as source and the IPv4 or ARP type. *)
Theorem interface_invariant (ops : list op) (start : Z)
    (mac : EthernetAddress) (ip : Z) :
  ethernet_address_ (steps ops (start, new_interface mac ip)).2 = mac
  ∧ ip_address_ (steps ops (start, new_interface mac ip)).2 = ip
  ∧ interface_inv (steps ops (start, new_interface mac ip)).2.
Proof.
  assert (Hgen : ∀ s, interface_inv s.2 →
            ethernet_address_ (steps ops s).2 = ethernet_address_ s.2
            ∧ ip_address_ (steps ops s).2 = ip_address_ s.2
            ∧ interface_inv (steps ops s).2).
  { induction ops as [| o ops IH]; intros s Hinv; [auto |].
    unfold steps. simpl. fold (steps ops (step o s)).
    destruct (step_interface_inv o s Hinv) as (Emac & Eip & Hinv').
    destruct (IH (step o s) Hinv') as (Emac' & Eip' & Hinv'').
    rewrite Emac', Eip'. auto. }
  apply (Hgen (start, new_interface mac ip)).
  repeat split; constructor.
Qed.

(** X10.  The ARP cache gains entries only in [recv_frame], and only the
    sender of an accepted ARP message, stamped with the current time.
    [send_datagram] never changes the cache: the table after the call is
    the table before it.  [tick] only removes entries: every entry after
    the call was there before it, unchanged.  [recv_frame] removes none:
    an address in the cache before the call is in it after the call. *)
Theorem cache_learns_only_from_arp (o : op) (s : Z * NetworkInterface)
    (k : Z) (e : Ether_Addr_Entry) :
  (ARP_table (step o s).2 !! k = Some e →
   ARP_table s.2 !! k = Some e
   ∨ ∃ frame msg,
       o = OpRecv frame
       ∧ type (header frame) = TYPE_ARP
       ∧ (dst (header frame) = ethernet_address_ s.2
          ∨ dst (header frame) = ETHERNET_BROADCAST)
       ∧ parse_arp (payload frame) = Some msg
       ∧ k = sender_ip_address msg
       ∧ e = {| MAC_addr := sender_ethernet_address msg;
                caching_time := s.1 |})
  ∧ (∀ dgram y, ARP_table (send_datagram s.1 dgram y s.2) = ARP_table s.2)
  ∧ (∀ ms k' e', ARP_table (tick ms s.1 s.2).2 !! k' = Some e' →
       ARP_table s.2 !! k' = Some e')
  ∧ (∀ frame k' e', ARP_table s.2 !! k' = Some e' →
       is_Some (ARP_table (recv_frame s.1 frame s.2).1 !! k')).
Proof.
  split; [| split; [| split]]; cycle 1.
  { intros dgram y. apply send_datagram_cache. }
  { intros ms k' e'. rewrite tick_cache_lookup.
    destruct (ARP_table s.2 !! k') as [e0 |]; [| discriminate].
    destruct (_ <? _); [discriminate | auto]. }
  { intros frame k' e'. apply recv_frame_cache. }
  destruct s as [now ni]. destruct o as [dgram y | frame | ms]; simpl.
  - destruct (ARP_table ni !! y) as [e' |] eqn:Hy.
    + rewrite (send_datagram_resolved now dgram y ni e' Hy). auto.
    + rewrite (send_datagram_unresolved now dgram y ni Hy). auto.
  - destruct (recv_frame_cases now frame ni)
      as [[r ->] | (msg & Hty & Hdst & Hparse & [-> | [-> | ->]])]; simpl;
      [auto | | |];
      (destruct (decide (sender_ip_address msg = k)) as [<- | Hne];
       [ rewrite lookup_insert_eq; intros [= <-]; right;
         exists frame, msg; auto 10
       | rewrite lookup_insert_ne by exact Hne; auto ]).
  - rewrite tick_cache_lookup.
    destruct (ARP_table ni !! k) as [e' |]; [| discriminate].
    destruct (_ <? _); [discriminate | auto].
Qed.

End RunInvariants.

(** ** The routing table: adding routes, the default route, bounds *)

Lemma find_route_app (dest : Z) (table : list RoutingTableElement)
    (e : RoutingTableElement) (i : Z) (st : Z * Z) :
  find_route dest (table ++ [e]) i st
  = (if (Z.land (bitmask_of (prefix_length_ e)) dest =? route_prefix_ e)
        && ((find_route dest table i st).2 <=? prefix_length_ e)
     then (to_int (i + Z.of_nat (length table)), prefix_length_ e)
     else find_route dest table i st).
Proof.
  revert i st. induction table as [| a table IH]; intros i st.
  - simpl. rewrite Z.add_0_r. reflexivity.
  - simpl. rewrite IH.
    replace (i + 1 + Z.of_nat (length table))
      with (i + Z.pos (Pos.of_succ_nat (length table))) by lia.
    reflexivity.
Qed.

Lemma find_route_index (dest : Z) (table : list RoutingTableElement)
    (i : Z) (st : Z * Z) :
  0 ≤ i → i + Z.of_nat (length table) ≤ 2 ^ 31 →
  index_inv i st →
  index_inv (i + Z.of_nat (length table)) (find_route dest table i st).
Proof.
  revert i st. induction table as [| e rest IH]; intros i st Hi Hlen Hinv.
  - simpl. rewrite Z.add_0_r. exact Hinv.
  - simpl find_route. simpl length in Hlen |- *.
    rewrite Nat2Z.inj_succ in Hlen |- *.
    replace (i + Z.succ (Z.of_nat (length rest)))
      with (i + 1 + Z.of_nat (length rest)) by lia.
    apply IH; [lia | lia |].
    destruct (_ && _).
    + right. simpl. rewrite to_int_small; lia.
    + destruct Hinv as [Hm | Hr]; [left; exact Hm | right; lia].
Qed.

(** The result of a lookup is [-1] or an index of the table. *)
Lemma lookup_route_index (dest : Z) (table : list RoutingTableElement) :
  Z.of_nat (length table) ≤ 2 ^ 31 →
  lookup_route dest table = -1
  ∨ ∃ i, lookup_route dest table = Z.of_nat i ∧ (i < length table)%nat.
Proof.
  intros Hlen.
  destruct (find_route_index dest table 0 (-1, -1)) as [Hm | Hr];
    [lia | lia | left; reflexivity | left; exact Hm |].
  right. exists (Z.to_nat (lookup_route dest table)).
  unfold lookup_route in *. split; lia.
Qed.

Section RoutingProperties.
Context `{Codec}.

(** X12.  [add_route] and the lookup.  After a route is added to a table of
    the data model, a destination that the new route does not match is
    routed as before; one that it matches is routed by the new route when
    no matching older route is longer, and as before when one is. *)
Theorem add_route_then_lookup (route_prefix prefix_length : Z)
    (next_hop : option Z) (interface_num : nat) (r : Router) (dest : Z) :
  let e := {| route_prefix_ := route_prefix;
              prefix_length_ := prefix_length;
              next_hop_ := next_hop;
              interface_num_ := interface_num |} in
  let r' := add_route route_prefix prefix_length next_hop interface_num r in
  wf_table (routing_table_ r) →
  0 ≤ prefix_length ≤ 32 →
  Z.of_nat (length (routing_table_ r)) < 2 ^ 31 →
  (¬ entry_matches dest e →
     lookup_route dest (routing_table_ r')
     = lookup_route dest (routing_table_ r))
  ∧ (entry_matches dest e →
     (∀ e', e' ∈ routing_table_ r → entry_matches dest e' →
            prefix_length_ e' ≤ prefix_length) →
     lookup_route dest (routing_table_ r')
     = Z.of_nat (length (routing_table_ r)))
  ∧ (entry_matches dest e →
     (∃ e', e' ∈ routing_table_ r ∧ entry_matches dest e'
            ∧ prefix_length < prefix_length_ e') →
     lookup_route dest (routing_table_ r')
     = lookup_route dest (routing_table_ r)).
Proof.
  intros e r' Hwf Hpl Hlen. subst r'. unfold add_route. simpl.
  fold e. unfold lookup_route. rewrite find_route_app.
  pose proof (code_match_iff dest e Hpl) as Hcm. simpl in Hcm.
  change (prefix_length_ e) with prefix_length.
  change (route_prefix_ e) with route_prefix.
  assert (H0 : lookup_inv dest [] (-1, -1)).
  { left. split; [reflexivity |]. intros a Hin. inversion Hin. }
  pose proof (find_route_inv dest (routing_table_ r) [] (-1, -1) Hwf
                ltac:(simpl; lia) H0) as Hinv.
  change (Z.of_nat (length [])) with 0 in Hinv.
  change ([] ++ routing_table_ r) with (routing_table_ r) in Hinv.
  rewrite Z.add_0_l, to_int_small by lia.
  destruct (Z.eqb_spec (Z.land (bitmask_of prefix_length) dest) route_prefix)
    as [Heq | Hne]; simpl.
  - apply Hcm in Heq. split; [contradiction |]. split.
    + intros _ Hall.
      destruct Hinv as [[-> _] | (k & ek & -> & Hk & (e1 & Hk1 & Hm1 & _))].
      * simpl. destruct (Z.leb_spec (-1) prefix_length); [reflexivity | lia].
      * simpl. rewrite Hk in Hk1. injection Hk1 as <-.
        pose proof (Hall ek (list_elem_of_lookup_2 _ _ _ Hk) Hm1).
        destruct (Z.leb_spec (prefix_length_ ek) prefix_length);
          [reflexivity | lia].
    + intros _ (e' & Hin & Hm' & Hlt).
      destruct Hinv as [[-> Hnone] | (k & ek & -> & Hk & (e1 & Hk1 & _ & Hb))].
      * exfalso. exact (Hnone e' Hin Hm').
      * simpl. rewrite Hk in Hk1. injection Hk1 as <-.
        apply list_elem_of_lookup in Hin as [j Hj].
        destruct (Z.leb_spec (prefix_length_ ek) prefix_length);
          [| reflexivity].
        destruct (Hb j e' Hj Hm') as [? | [? _]]; lia.
  - split; [reflexivity |].
    split; intros Hm; exfalso; apply Hne, Hcm, Hm.
Qed.

(** X13.  With a default route (prefix 0, length 0) in a table of the data
    model, the lookup finds a route for every destination: it returns the
    index of the best matching entry, never [-1]. *)
Theorem default_route_always_routes (table : list RoutingTableElement)
    (e : RoutingTableElement) (dest : Z) :
  wf_table table →
  Z.of_nat (length table) ≤ 2 ^ 31 →
  e ∈ table → route_prefix_ e = 0 → prefix_length_ e = 0 →
  lookup_route dest table ≠ -1
  ∧ ∃ i, lookup_route dest table = Z.of_nat i ∧ best_match dest table i.
Proof.
  intros Hwf Hlen Hin Hp Hl.
  assert (Hm : entry_matches dest e).
  { unfold entry_matches. rewrite Hl, Hp.
    change (top_bits_mask 0) with 0. apply Z.land_0_r. }
  destruct (lookup_route_inv dest table Hwf Hlen) as [[_ Hnone] | (k & Hk & Hb)].
  - exfalso. exact (Hnone e Hin Hm).
  - split; [lia |]. exists k. auto.
Qed.

(** X14.  [route_single_dgram] stays within bounds: when every route names
    an existing interface (and the table has at most [2^31] entries), the
    call is defined for every datagram; it leaves the routing table and the
    number of interfaces as they were and changes at most one
    interface. *)
Theorem route_single_dgram_in_bounds (now : Z) (dgram : InternetDatagram)
    (r : Router) :
  Z.of_nat (length (routing_table_ r)) ≤ 2 ^ 31 →
  Forall (λ e, (interface_num_ e < length (interfaces_ r))%nat)
    (routing_table_ r) →
  ∃ r' dgram',
    route_single_dgram now dgram r = Some (r', dgram')
    ∧ routing_table_ r' = routing_table_ r
    ∧ length (interfaces_ r') = length (interfaces_ r)
    ∧ ∃ n, ∀ j, j ≠ n → interfaces_ r' !! j = interfaces_ r !! j.
Proof.
  intros Hlen Hifs. unfold route_single_dgram.
  assert (Hsame : ∀ d : InternetDatagram, ∃ (r' : Router) dgram',
            Some (r, d) = Some (r', dgram')
            ∧ routing_table_ r' = routing_table_ r
            ∧ length (interfaces_ r') = length (interfaces_ r)
            ∧ ∃ n, ∀ j, j ≠ n → interfaces_ r' !! j = interfaces_ r !! j).
  { intros d. exists r, d. repeat split. exists 0%nat. auto. }
  destruct (ttl (ip_header dgram) <=? 0); [apply Hsame |].
  set (dest := ip_dst (ip_header dgram)).
  destruct (lookup_route_index dest (routing_table_ r) Hlen)
    as [-> | (i & -> & Hi)]; [apply Hsame |].
  destruct (Z.eqb_spec (Z.of_nat i) (-1)); [lia |].
  destruct (_ <=? 0); [apply Hsame |].
  assert (Hidx : Z.to_nat (Z.of_nat i mod 2 ^ 64) = i).
  { rewrite Z.mod_small by lia. lia. }
  rewrite Hidx.
  destruct (lookup_lt_is_Some_2 _ _ Hi) as [e He]. rewrite He.
  rewrite Forall_forall in Hifs.
  specialize (Hifs e (list_elem_of_lookup_2 _ _ _ He)).
  destruct (lookup_lt_is_Some_2 _ _ Hifs) as [ni Hni]. rewrite Hni.
  eexists _, _. split; [reflexivity |]. simpl.
  split; [reflexivity |]. split; [apply length_insert |].
  exists (interface_num_ e). intros j Hj.
  apply list_lookup_insert_ne. congruence.
Qed.

End RoutingProperties.

(** ** The clock of several interfaces *)

(** X15.  The one clock counts the ticks of all interfaces: after [tick]
    calls on any of the objects, in any order, the clock that each of them
    reads has advanced by the sum of all arguments, modulo [2^64]. *)
Theorem clock_counts_all_ticks (ts : list (nat * Z)) (w : World) :
  0 ≤ curr_time w < 2 ^ 64 →
  Forall (λ t, (t.1 < length (objects w))%nat) ts →
  curr_time (world_ticks ts w)
  = (curr_time w + foldr (λ t a, t.2 + a) 0 ts) mod 2 ^ 64
  ∧ length (objects (world_ticks ts w)) = length (objects w).
Proof.
  revert w. induction ts as [| [i ms] ts IH]; intros w Hc Hts.
  - simpl. rewrite Z.add_0_r, Z.mod_small by exact Hc. auto.
  - apply Forall_cons in Hts as [Hi Hts]. simpl in Hi.
    unfold world_ticks. simpl. fold (world_ticks ts (world_tick i ms w)).
    destruct (lookup_lt_is_Some_2 _ _ Hi) as [ni Hni].
    assert (Hw : curr_time (world_tick i ms w) = size_add (curr_time w) ms
                 ∧ length (objects (world_tick i ms w)) = length (objects w)).
    { unfold world_tick. rewrite Hni.
      destruct (tick_fields ms (curr_time w) ni) as (E & _).
      destruct (tick ms (curr_time w) ni) as [c ni']. simpl in *.
      split; [exact E | apply length_insert]. }
    destruct Hw as [Hclock Hlenw].
    destruct (IH (world_tick i ms w)) as [IH1 IH2].
    + rewrite Hclock. apply size_add_range.
    + rewrite Hlenw. exact Hts.
    + rewrite IH1, IH2, Hclock. split; [| exact Hlenw].
      unfold size_add. rewrite Zplus_mod_idemp_l. f_equal. lia.
Qed.

(** ** Request records, and a route with a length above 32 *)

Section RecordProperties.
Context `{Codec}.

Lemma step_keeps_records (o : op) (s : Z * NetworkInterface) (k : Z) :
  is_Some (request_history s.2 !! k) →
  is_Some (request_history (step o s).2 !! k).
Proof.
  destruct s as [now ni]. simpl. intros Hk.
  destruct o as [dgram y | frame | ms]; simpl.
  - destruct (ARP_table ni !! y) as [e |] eqn:Hy.
    + rewrite (send_datagram_resolved now dgram y ni e Hy). exact Hk.
    + rewrite (send_datagram_unresolved now dgram y ni Hy). simpl.
      destruct (match request_history ni !! y with
                | Some h => negb (size_sub now h <? MAX_WAITING_TIME)
                | None => true
                end); [| exact Hk].
      destruct (decide (y = k)) as [-> | Hne];
        [rewrite lookup_insert_eq; eauto
        | rewrite lookup_insert_ne by exact Hne; exact Hk].
  - destruct (recv_frame_cases now frame ni)
      as [[r ->] | (msg & _ & _ & _ & [-> | [-> | ->]])]; exact Hk.
  - destruct (tick_fields ms now ni) as (_ & -> & _).
    apply tick_items_sub, Hk.
Qed.

(** X11.  A request record is never deleted: once an address has a record,
    it has one after every run of calls, and [recv_frame], also the reply
    that resolves the address, leaves all records as they are. *)
Theorem request_records_persist (ops : list op) (s : Z * NetworkInterface)
    (k : Z) :
  is_Some (request_history s.2 !! k) →
  is_Some (request_history (steps ops s).2 !! k)
  ∧ ∀ frame,
      request_history (recv_frame s.1 frame s.2).1 = request_history s.2.
Proof.
  intros Hk. split.
  - revert s Hk. induction ops as [| o ops IH]; intros s Hk; [exact Hk |].
    unfold steps. simpl. fold (steps ops (step o s)).
    apply IH, step_keeps_records, Hk.
  - intros frame.
    destruct (recv_frame_cases s.1 frame s.2)
      as [[r ->] | (msg & _ & _ & _ & [-> | [-> | ->]])]; reflexivity.
Qed.

End RecordProperties.

Lemma find_route_longest (dest : Z) (table : list RoutingTableElement)
    (i : Z) (st : Z * Z) :
  (find_route dest table i st).2 = st.2
  ∨ ∃ e, e ∈ table ∧ (find_route dest table i st).2 = prefix_length_ e.
Proof.
  revert i st. induction table as [| a table IH]; intros i st;
    [left; reflexivity |].
  simpl.
  destruct (IH (i + 1)
              (if (Z.land (bitmask_of (prefix_length_ a)) dest
                   =? route_prefix_ a) && (st.2 <=? prefix_length_ a)
               then (to_int i, prefix_length_ a) else st))
    as [E | (e & Hin & E)].
  - rewrite E. destruct (_ && _); [| left; reflexivity].
    right. exists a. split; [left | reflexivity].
  - right. exists e. split; [right; exact Hin | exact E].
Qed.

(** X17.  A route with prefix 0 and a length above 32, added to a table
    whose lengths do not exceed it (as all lengths of the data model do),
    is selected for every destination: the loop gives it the all-zero
    mask, so it matches everything, and its length beats every other. *)
Theorem overlong_route_captures_all (prefix_length : Z) (next_hop : option Z)
    (interface_num : nat) (r : Router) (dest : Z) :
  32 < prefix_length →
  Forall (λ e, prefix_length_ e ≤ prefix_length) (routing_table_ r) →
  Z.of_nat (length (routing_table_ r)) < 2 ^ 31 →
  lookup_route dest
    (routing_table_ (add_route 0 prefix_length next_hop interface_num r))
  = Z.of_nat (length (routing_table_ r)).
Proof.
  intros Hlong Hall Hlen. unfold add_route, lookup_route. simpl.
  rewrite find_route_app. simpl.
  rewrite (bitmask_of_out_of_range prefix_length) by (right; exact Hlong).
  rewrite Z.land_0_l. simpl.
  rewrite to_int_small by lia.
  destruct (find_route_longest dest (routing_table_ r) 0 (-1, -1))
    as [E | (e & Hin & E)]; rewrite E; simpl.
  - destruct (Z.leb_spec (-1) prefix_length); [reflexivity | lia].
  - rewrite Forall_forall in Hall. specialize (Hall e Hin).
    destruct (Z.leb_spec (prefix_length_ e) prefix_length); [reflexivity | lia].
Qed.

(** * The further properties on concrete inputs *)

Lemma sample_dgram_roundtrip : @dgram_roundtrip sample_codec.
Proof. intros [[t c s d] pl]. reflexivity. Defined.

Lemma recv_frame_ignores_witness :
  (dst (header sample_foreign_frame) ≠ ethernet_address_ sample_A
   ∨ type (header sample_foreign_frame) ≠ TYPE_IPv4)
  ∧ (type (header sample_foreign_frame) ≠ TYPE_ARP
     ∨ (dst (header sample_foreign_frame) ≠ ethernet_address_ sample_A
        ∧ dst (header sample_foreign_frame) ≠ ETHERNET_BROADCAST)
     ∨ @parse_arp sample_codec (payload sample_foreign_frame) = None)
  ∧ @recv_frame sample_codec 0 sample_foreign_frame sample_A
    = (sample_A, None).
Proof.
  assert (H1 : dst (header sample_foreign_frame) ≠ ethernet_address_ sample_A
               ∨ type (header sample_foreign_frame) ≠ TYPE_IPv4)
    by (left; evaluate).
  assert (H2 : type (header sample_foreign_frame) ≠ TYPE_ARP
               ∨ (dst (header sample_foreign_frame) ≠ ethernet_address_ sample_A
                  ∧ dst (header sample_foreign_frame) ≠ ETHERNET_BROADCAST)
               ∨ @parse_arp sample_codec (payload sample_foreign_frame) = None)
    by (left; evaluate).
  split; [exact H1 |]. split; [exact H2 |].
  exact (@recv_frame_ignores sample_codec 0 sample_foreign_frame sample_A H1 H2).
Defined.

Lemma send_then_recv_delivers_witness :
  @dgram_roundtrip sample_codec
  ∧ ARP_table sample_A_knows_B !! ip_address_ sample_B
    = Some {| MAC_addr := ethernet_address_ sample_B; caching_time := 0 |}
  ∧ @recv_frame sample_codec 7
      (@ether_frame_to sample_codec sample_A_knows_B
         (ethernet_address_ sample_B) sample_dgram) sample_B
    = (sample_B, Some sample_dgram).
Proof.
  assert (Hx : ARP_table sample_A_knows_B !! ip_address_ sample_B
               = Some {| MAC_addr := ethernet_address_ sample_B;
                         caching_time := 0 |}) by evaluate.
  split; [exact sample_dgram_roundtrip |]. split; [exact Hx |].
  destruct (@send_then_recv_delivers sample_codec 5 7 sample_dgram
              (ip_address_ sample_B) sample_A_knows_B sample_B _
              sample_dgram_roundtrip Hx) as (_ & Hdeliver & _).
  exact (Hdeliver eq_refl).
Defined.

Lemma arp_exchange_witness :
  @arp_roundtrip sample_codec
  ∧ ARP_table sample_A !! ip_address_ sample_B = None
  ∧ (∀ h, request_history sample_A !! ip_address_ sample_B = Some h →
          MAX_WAITING_TIME ≤ size_sub 1 h)
  ∧ ready2_sent_q
      (@recv_frame sample_codec 3
         (@ARP_reply_frame sample_codec sample_B (ethernet_address_ sample_A)
            (ip_address_ sample_A))
         (@send_datagram sample_codec 1 sample_dgram (ip_address_ sample_B)
            sample_A)).1
    = [@ARP_request_frame sample_codec sample_A (ip_address_ sample_B);
       @ether_frame_to sample_codec sample_A (ethernet_address_ sample_B)
         sample_dgram].
Proof.
  assert (Hx : ARP_table sample_A !! ip_address_ sample_B = None) by evaluate.
  assert (Hrec : ∀ h, request_history sample_A !! ip_address_ sample_B = Some h →
                      MAX_WAITING_TIME ≤ size_sub 1 h)
    by (intros h Hh; vm_compute in Hh; discriminate Hh).
  split; [exact sample_arp_roundtrip |]. split; [exact Hx |].
  split; [exact Hrec |].
  destruct (@arp_exchange sample_codec 1 2 3 sample_dgram sample_A sample_B
              sample_arp_roundtrip Hx Hrec) as (E1 & _ & _ & _ & E5 & _).
  rewrite E5, E1. reflexivity.
Defined.

Lemma overheard_arp_learns_without_flush_witness :
  type (header sample_overheard_reply) = TYPE_ARP
  ∧ (dst (header sample_overheard_reply) = ethernet_address_ sample_sent_twice
     ∨ dst (header sample_overheard_reply) = ETHERNET_BROADCAST)
  ∧ @parse_arp sample_codec (payload sample_overheard_reply)
    = Some sample_overheard_msg
  ∧ target_ip_address sample_overheard_msg ≠ ip_address_ sample_sent_twice
  ∧ waiting_q
      (@send_datagram sample_codec 9 sample_dgram sample_hop
         (@recv_frame sample_codec 0 sample_overheard_reply
            sample_sent_twice).1)
    = waiting_q sample_sent_twice
  ∧ waiting_q sample_sent_twice
    = [sample_item 0; sample_marker; sample_item 0].
Proof.
  assert (Hty : type (header sample_overheard_reply) = TYPE_ARP)
    by reflexivity.
  assert (Hdst : dst (header sample_overheard_reply)
                 = ethernet_address_ sample_sent_twice
                 ∨ dst (header sample_overheard_reply) = ETHERNET_BROADCAST)
    by (right; reflexivity).
  assert (Hparse : @parse_arp sample_codec (payload sample_overheard_reply)
                   = Some sample_overheard_msg) by reflexivity.
  assert (Htgt : target_ip_address sample_overheard_msg
                 ≠ ip_address_ sample_sent_twice) by evaluate.
  do 4 (split; [assumption |]). split; [| evaluate].
  destruct (@overheard_arp_learns_without_flush sample_codec 0 9
              sample_overheard_reply sample_sent_twice sample_overheard_msg
              sample_dgram Hty Hdst Hparse Htgt) as (_ & _ & _ & _ & _ & _ & E).
  exact E.
Defined.

Lemma cache_entry_retained_within_ttl_witness :
  Forall (λ ms, 0 ≤ ms) [29000; 1000]
  ∧ ARP_table sample_learnt_by_request !! sample_hop
    = Some {| MAC_addr := sample_hop_mac; caching_time := 0 |}
  ∧ size_sub 0 0 + foldr Z.add 0 [29000; 1000] ≤ MAX_CACHE_TIME
  ∧ ARP_table
      (@steps sample_codec (map OpTick [29000; 1000])
         (0, sample_learnt_by_request)).2 !! sample_hop
    = Some {| MAC_addr := sample_hop_mac; caching_time := 0 |}.
Proof.
  assert (Hpos : Forall (λ ms, 0 ≤ ms) [29000; 1000])
    by (repeat constructor; lia).
  assert (Hx : ARP_table sample_learnt_by_request !! sample_hop
               = Some {| MAC_addr := sample_hop_mac; caching_time := 0 |})
    by evaluate.
  assert (Hage : size_sub 0 0 + foldr Z.add 0 [29000; 1000] ≤ MAX_CACHE_TIME)
    by evaluate.
  split; [exact Hpos |]. split; [exact Hx |]. split; [exact Hage |].
  exact (proj1 (@cache_entry_retained_within_ttl sample_codec [29000; 1000] 0
                  sample_learnt_by_request sample_hop _ Hpos Hx Hage)).
Defined.

Lemma throttled_send_then_tick_retries_witness :
  ARP_table sample_sent_once !! sample_hop = None
  ∧ request_history sample_sent_once !! sample_hop = Some 0
  ∧ size_sub 0 0 < MAX_WAITING_TIME
  ∧ MAX_WAITING_TIME ≤ size_sub (size_add 0 5000) 0
  ∧ request_history
      (tick 5000 0
         (@send_datagram sample_codec 0 sample_dgram sample_hop
            sample_sent_once)).2 !! sample_hop
    = Some (size_add 0 5000).
Proof.
  assert (Hx : ARP_table sample_sent_once !! sample_hop = None) by evaluate.
  assert (Hh : request_history sample_sent_once !! sample_hop = Some 0)
    by evaluate.
  assert (Hy : size_sub 0 0 < MAX_WAITING_TIME) by evaluate.
  assert (Hs : MAX_WAITING_TIME ≤ size_sub (size_add 0 5000) 0) by evaluate.
  do 4 (split; [assumption |]).
  destruct (@throttled_send_then_tick_retries sample_codec 0 5000 sample_dgram
              sample_hop 0 sample_sent_once Hx Hh Hy Hs)
    as (_ & _ & _ & E & _).
  exact E.
Defined.

Lemma maybe_send_fifo_witness :
  ready2_sent_q sample_A = [] ∧ maybe_send sample_A = (sample_A, None).
Proof.
  assert (Hq : ready2_sent_q sample_A = []) by reflexivity.
  split; [exact Hq |].
  exact (proj2 (maybe_send_fifo 0 sample_A) Hq).
Defined.

Lemma ready_queue_append_only_witness :
  ready2_sent_q sample_sent_once
  = [@ARP_request_frame sample_codec sample_A sample_hop]
  ∧ (maybe_send (@steps sample_codec sample_run (0, sample_sent_once)).2).2
    = Some (@ARP_request_frame sample_codec sample_A sample_hop).
Proof.
  assert (Hq : ready2_sent_q sample_sent_once
               = [@ARP_request_frame sample_codec sample_A sample_hop])
    by evaluate.
  split; [exact Hq |].
  exact (proj2 (@ready_queue_append_only sample_codec sample_run 0
                  (0, sample_sent_once)) _ _ Hq).
Defined.

Lemma cache_learns_only_from_arp_witness :
  ARP_table
    (@step sample_codec (OpRecv sample_request_from_hop)
       (0, sample_sent_twice)).2 !! sample_hop
  = Some {| MAC_addr := sample_hop_mac; caching_time := 0 |}
  ∧ ARP_table sample_sent_twice !! sample_hop = None
  ∧ (∃ frame msg,
       OpRecv sample_request_from_hop = OpRecv frame
       ∧ @parse_arp sample_codec (payload frame) = Some msg
       ∧ sample_hop = sender_ip_address msg)
  ∧ ARP_table (@send_datagram sample_codec 0 sample_dgram sample_hop
                 sample_sent_twice)
    = ARP_table sample_sent_twice
  ∧ ARP_table sample_learnt_by_request !! sample_hop
    = Some {| MAC_addr := sample_hop_mac; caching_time := 0 |}
  ∧ is_Some
      (ARP_table
         (@recv_frame sample_codec 0 sample_reply_from_hop
            sample_learnt_by_request).1 !! sample_hop).
Proof.
  assert (Hk : ARP_table
                 (@step sample_codec (OpRecv sample_request_from_hop)
                    (0, sample_sent_twice)).2 !! sample_hop
               = Some {| MAC_addr := sample_hop_mac; caching_time := 0 |})
    by evaluate.
  assert (Hn : ARP_table sample_sent_twice !! sample_hop = None) by evaluate.
  assert (Hc : ARP_table sample_learnt_by_request !! sample_hop
               = Some {| MAC_addr := sample_hop_mac; caching_time := 0 |})
    by evaluate.
  split; [exact Hk |]. split; [exact Hn |].
  destruct (@cache_learns_only_from_arp sample_codec
              (OpRecv sample_request_from_hop) (0, sample_sent_twice)
              sample_hop {| MAC_addr := sample_hop_mac; caching_time := 0 |})
    as (Hgain & Hsend & _).
  split; [| split; [exact (Hsend sample_dgram sample_hop) |]].
  - destruct (Hgain Hk)
      as [Hold | (frame & msg & Eo & _ & _ & Hparse & Ek & _)].
    + simpl in Hold. rewrite Hn in Hold. discriminate Hold.
    + exists frame, msg. auto.
  - split; [exact Hc |].
    destruct (@cache_learns_only_from_arp sample_codec
                (OpRecv sample_reply_from_hop) (0, sample_learnt_by_request)
                sample_hop {| MAC_addr := sample_hop_mac; caching_time := 0 |})
      as (_ & _ & _ & Hrecv).
    exact (Hrecv sample_reply_from_hop sample_hop _ Hc).
Defined.

Lemma request_records_persist_witness :
  is_Some (request_history sample_sent_once !! sample_hop)
  ∧ is_Some
      (request_history
         (@steps sample_codec sample_run (0, sample_sent_once)).2
       !! sample_hop).
Proof.
  assert (Hk : is_Some (request_history sample_sent_once !! sample_hop))
    by (exists 0; evaluate).
  split; [exact Hk |].
  exact (proj1 (@request_records_persist sample_codec sample_run
                  (0, sample_sent_once) sample_hop Hk)).
Defined.

Lemma add_route_then_lookup_witness :
  wf_table (routing_table_ sample_router)
  ∧ 0 ≤ 24 ≤ 32
  ∧ Z.of_nat (length (routing_table_ sample_router)) < 2 ^ 31
  ∧ entry_matches 0xc0a80005
      {| route_prefix_ := 0xc0a80000; prefix_length_ := 24;
         next_hop_ := Some 0xc0a800fe; interface_num_ := 0%nat |}
  ∧ (∀ e', e' ∈ routing_table_ sample_router →
           entry_matches 0xc0a80005 e' → prefix_length_ e' ≤ 24)
  ∧ lookup_route 0xc0a80005
      (routing_table_
         (add_route 0xc0a80000 24 (Some 0xc0a800fe) 0 sample_router))
    = Z.of_nat (length (routing_table_ sample_router)).
Proof.
  assert (Hwf : wf_table (routing_table_ sample_router)).
  { unfold wf_table, sample_router, sample_table. simpl.
    repeat constructor; simpl; lia. }
  assert (Hpl : 0 ≤ 24 ≤ 32) by lia.
  assert (Hlen : Z.of_nat (length (routing_table_ sample_router)) < 2 ^ 31)
    by (simpl; lia).
  assert (Hm : entry_matches 0xc0a80005
                 {| route_prefix_ := 0xc0a80000; prefix_length_ := 24;
                    next_hop_ := Some 0xc0a800fe; interface_num_ := 0%nat |})
    by reflexivity.
  assert (Hall : ∀ e', e' ∈ routing_table_ sample_router →
                       entry_matches 0xc0a80005 e' → prefix_length_ e' ≤ 24).
  { intros e' Hin _. simpl in Hin. unfold sample_table in Hin.
    repeat (apply elem_of_cons in Hin as [-> | Hin]); simpl; try lia.
    inversion Hin. }
  do 5 (split; [assumption |]).
  destruct (@add_route_then_lookup 0xc0a80000 24 (Some 0xc0a800fe) 0%nat
              sample_router 0xc0a80005 Hwf Hpl Hlen) as (_ & Hnew & _).
  exact (Hnew Hm Hall).
Defined.

Lemma default_route_always_routes_witness :
  wf_table sample_table
  ∧ Z.of_nat (length sample_table) ≤ 2 ^ 31
  ∧ {| route_prefix_ := 0; prefix_length_ := 0;
       next_hop_ := Some 0xc0a80001; interface_num_ := 0%nat |} ∈ sample_table
  ∧ lookup_route 0x08080808 sample_table ≠ -1.
Proof.
  assert (Hwf : wf_table sample_table).
  { unfold wf_table, sample_table. repeat constructor; simpl; lia. }
  assert (Hlen : Z.of_nat (length sample_table) ≤ 2 ^ 31) by (simpl; lia).
  assert (Hin : {| route_prefix_ := 0; prefix_length_ := 0;
                   next_hop_ := Some 0xc0a80001; interface_num_ := 0%nat |}
                ∈ sample_table) by left.
  do 3 (split; [assumption |]).
  exact (proj1 (default_route_always_routes sample_table _ 0x08080808
                  Hwf Hlen Hin eq_refl eq_refl)).
Defined.

Lemma route_single_dgram_in_bounds_witness :
  Z.of_nat (length (routing_table_ sample_router)) ≤ 2 ^ 31
  ∧ Forall (λ e, (interface_num_ e < length (interfaces_ sample_router))%nat)
      (routing_table_ sample_router)
  ∧ ∃ r' dgram',
      @route_single_dgram sample_codec 0 sample_dgram sample_router
      = Some (r', dgram')
      ∧ routing_table_ r' = routing_table_ sample_router.
Proof.
  assert (Hlen : Z.of_nat (length (routing_table_ sample_router)) ≤ 2 ^ 31)
    by (simpl; lia).
  assert (Hifs : Forall
                   (λ e, (interface_num_ e
                          < length (interfaces_ sample_router))%nat)
                   (routing_table_ sample_router)).
  { simpl. unfold sample_table. repeat constructor; simpl; lia. }
  split; [exact Hlen |]. split; [exact Hifs |].
  destruct (@route_single_dgram_in_bounds sample_codec 0 sample_dgram
              sample_router Hlen Hifs) as (r' & d' & E & Ht & _).
  exists r', d'. auto.
Defined.

Lemma clock_counts_all_ticks_witness :
  0 ≤ curr_time sample_world < 2 ^ 64
  ∧ Forall (λ t, (t.1 < length (objects sample_world))%nat)
      [(1%nat, 5000); (0%nat, 2500)]
  ∧ curr_time (world_ticks [(1%nat, 5000); (0%nat, 2500)] sample_world)
    = (curr_time sample_world
       + foldr (λ t a, t.2 + a) 0 [(1%nat, 5000); (0%nat, 2500)]) mod 2 ^ 64.
Proof.
  assert (Hc : 0 ≤ curr_time sample_world < 2 ^ 64) by (split; evaluate).
  assert (Hts : Forall (λ t, (t.1 < length (objects sample_world))%nat)
                  [(1%nat, 5000); (0%nat, 2500)]).
  { repeat constructor; vm_compute; lia. }
  split; [exact Hc |]. split; [exact Hts |].
  exact (proj1 (clock_counts_all_ticks _ sample_world Hc Hts)).
Defined.

Lemma overlong_route_captures_all_witness :
  32 < 33
  ∧ Forall (λ e, prefix_length_ e ≤ 33) (routing_table_ sample_router)
  ∧ Z.of_nat (length (routing_table_ sample_router)) < 2 ^ 31
  ∧ lookup_route 0xc0a80005
      (routing_table_ (add_route 0 33 None 0 sample_router))
    = Z.of_nat (length (routing_table_ sample_router)).
Proof.
  assert (Hlong : 32 < 33) by lia.
  assert (Hall : Forall (λ e, prefix_length_ e ≤ 33)
                   (routing_table_ sample_router)).
  { simpl. unfold sample_table. repeat constructor; simpl; lia. }
  assert (Hlen : Z.of_nat (length (routing_table_ sample_router)) < 2 ^ 31)
    by (simpl; lia).
  do 3 (split; [assumption |]).
  exact (overlong_route_captures_all 33 None 0%nat sample_router 0xc0a80005
           Hlong Hall Hlen).
Defined.

(** ** The routing pass *)

Section RouteProperties.
Context `{Codec}.

(** [route_interface] in terms of [maybe_receive]. *)
Lemma route_interface_unfold (now : Z) (datagrams_in : list InternetDatagram)
    (r : Router) :
  route_interface now datagrams_in r =
    match maybe_receive datagrams_in with
    | (None, _) => Some r
    | (Some this_datagram, rest) =>
        match route_single_dgram now this_datagram r with
        | None => None
        | Some (r', _) => route_interface now rest r'
        end
    end.
Proof. destruct datagrams_in; reflexivity. Qed.

Lemma route_single_dgram_keeps_shape (now : Z) (dgram : InternetDatagram)
    (r : Router) :
  Z.of_nat (length (routing_table_ r)) ≤ 2 ^ 31 →
  Forall (λ e, (interface_num_ e < length (interfaces_ r))%nat)
    (routing_table_ r) →
  ∃ r' dgram',
    route_single_dgram now dgram r = Some (r', dgram')
    ∧ routing_table_ r' = routing_table_ r
    ∧ length (interfaces_ r') = length (interfaces_ r).
Proof.
  intros Hlen Hifs. unfold route_single_dgram.
  destruct (ttl (ip_header dgram) <=? 0); [eauto |].
  destruct (lookup_route_index (ip_dst (ip_header dgram)) (routing_table_ r)
              Hlen) as [-> | (i & -> & Hi)]; [eauto |].
  destruct (Z.eqb_spec (Z.of_nat i) (-1)); [lia |].
  destruct (_ <=? 0); [eauto |].
  assert (Hidx : Z.to_nat (Z.of_nat i mod 2 ^ 64) = i).
  { rewrite Z.mod_small by lia. lia. }
  rewrite Hidx.
  destruct (lookup_lt_is_Some_2 _ _ Hi) as [e He]. rewrite He.
  rewrite Forall_forall in Hifs.
  specialize (Hifs e (list_elem_of_lookup_2 _ _ _ He)).
  destruct (lookup_lt_is_Some_2 _ _ Hifs) as [ni Hni]. rewrite Hni.
  eexists _, _. split; [reflexivity |]. simpl.
  split; [reflexivity | apply length_insert].
Qed.

(** X18.  A whole routing pass stays within bounds: when every route names
    an existing interface (and the table has at most [2^31] entries),
    [route] is defined for all arrivals, and it leaves the routing table
    and the number of interfaces as they were. *)
Theorem route_in_bounds (now : Z) (arrivals : list (list InternetDatagram))
    (r : Router) :
  Z.of_nat (length (routing_table_ r)) ≤ 2 ^ 31 →
  Forall (λ e, (interface_num_ e < length (interfaces_ r))%nat)
    (routing_table_ r) →
  ∃ r', route now arrivals r = Some r'
        ∧ routing_table_ r' = routing_table_ r
        ∧ length (interfaces_ r') = length (interfaces_ r).
Proof.
  assert (Hone : ∀ q r,
            Z.of_nat (length (routing_table_ r)) ≤ 2 ^ 31 →
            Forall (λ e, (interface_num_ e < length (interfaces_ r))%nat)
              (routing_table_ r) →
            ∃ r', route_interface now q r = Some r'
                  ∧ routing_table_ r' = routing_table_ r
                  ∧ length (interfaces_ r') = length (interfaces_ r)).
  { induction q as [| d q IH]; intros r0 Hlen Hifs; [simpl; eauto |].
    simpl.
    destruct (route_single_dgram_keeps_shape now d r0 Hlen Hifs)
      as (r1 & d1 & -> & Et & El).
    destruct (IH r1) as (r2 & -> & Et2 & El2).
    - rewrite Et. exact Hlen.
    - rewrite Et, El. exact Hifs.
    - exists r2. split; [reflexivity |]. split; congruence. }
  revert r. induction arrivals as [| q rest IH]; intros r Hlen Hifs;
    [simpl; eauto |].
  simpl. destruct (Hone q r Hlen Hifs) as (r1 & -> & Et & El).
  destruct (IH r1) as (r2 & -> & Et2 & El2).
  - rewrite Et. exact Hlen.
  - rewrite Et, El. exact Hifs.
  - exists r2. split; [reflexivity |]. split; congruence.
Qed.

Lemma route_single_dgram_drops (now : Z) (dgram : InternetDatagram)
    (r : Router) :
  ttl (ip_header dgram) ≤ 1
    ∨ lookup_route (ip_dst (ip_header dgram)) (routing_table_ r) = -1 →
  ∃ dgram', route_single_dgram now dgram r = Some (r, dgram').
Proof.
  intros Hdrop. unfold route_single_dgram.
  destruct (Z.leb_spec (ttl (ip_header dgram)) 0); [eauto |].
  destruct (Z.eqb_spec
              (lookup_route (ip_dst (ip_header dgram)) (routing_table_ r)) (-1));
    [eauto |].
  destruct Hdrop as [Httl | Hnone]; [| contradiction].
  assert (E : ttl (ip_header dgram) = 1) by lia. rewrite E. simpl. eauto.
Qed.

(** X19.  A routing pass in which every arrived datagram has a TTL of at
    most 1 or no route leaves the router exactly as it was: nothing is
    handed to any interface. *)
Theorem route_drops_expired_and_unroutable (now : Z)
    (arrivals : list (list InternetDatagram)) (r : Router) :
  Forall
    (Forall (λ dgram,
       ttl (ip_header dgram) ≤ 1
       ∨ lookup_route (ip_dst (ip_header dgram)) (routing_table_ r) = -1))
    arrivals →
  route now arrivals r = Some r.
Proof.
  induction arrivals as [| q rest IH]; intros Hall; [reflexivity |].
  apply Forall_cons in Hall as [Hq Hrest]. simpl.
  assert (Eq : route_interface now q r = Some r).
  { clear -Hq. induction q as [| d q IHq]; [reflexivity |].
    apply Forall_cons in Hq as [Hd Hq]. simpl.
    destruct (route_single_dgram_drops now d r Hd) as [d' ->].
    apply IHq, Hq. }
  rewrite Eq. apply IH, Hrest.
Qed.

End RouteProperties.

Lemma route_in_bounds_witness :
  Z.of_nat (length (routing_table_ sample_router)) ≤ 2 ^ 31
  ∧ Forall (λ e, (interface_num_ e < length (interfaces_ sample_router))%nat)
      (routing_table_ sample_router)
  ∧ ∃ r', @route sample_codec 0 sample_arrivals sample_router = Some r'
          ∧ routing_table_ r' = routing_table_ sample_router.
Proof.
  assert (Hlen : Z.of_nat (length (routing_table_ sample_router)) ≤ 2 ^ 31)
    by (simpl; lia).
  assert (Hifs : Forall
                   (λ e, (interface_num_ e
                          < length (interfaces_ sample_router))%nat)
                   (routing_table_ sample_router)).
  { simpl. unfold sample_table. repeat constructor; simpl; lia. }
  split; [exact Hlen |]. split; [exact Hifs |].
  destruct (@route_in_bounds sample_codec 0 sample_arrivals sample_router
              Hlen Hifs) as (r' & E & Ht & _).
  exists r'. auto.
Defined.

Lemma route_drops_expired_and_unroutable_witness :
  Forall
    (Forall (λ dgram,
       ttl (ip_header dgram) ≤ 1
       ∨ lookup_route (ip_dst (ip_header dgram))
           (routing_table_ sample_router) = -1))
    sample_expired_arrivals
  ∧ @route sample_codec 0 sample_expired_arrivals sample_router
    = Some sample_router.
Proof.
  assert (Hall : Forall
                   (Forall (λ dgram,
                      ttl (ip_header dgram) ≤ 1
                      ∨ lookup_route (ip_dst (ip_header dgram))
                          (routing_table_ sample_router) = -1))
                   sample_expired_arrivals).
  { unfold sample_expired_arrivals.
    apply Forall_cons. split.
    - apply Forall_cons. split; [left; simpl; lia | constructor].
    - apply Forall_cons. split; [| constructor].
      apply Forall_cons. split; [left; simpl; lia |].
      apply Forall_cons. split; [left; simpl; lia | constructor]. }
  split; [exact Hall |].
  exact (@route_drops_expired_and_unroutable sample_codec 0
           sample_expired_arrivals sample_router Hall).
Defined.

(** The routing pass of the sample router: the one routable datagram goes
    to interface 0 through the default route; the other two expire. *)
Example route_sample_pass :
  @route sample_codec 0 sample_arrivals sample_router
  = @route_single_dgram sample_codec 0 sample_dgram sample_router
      ≫= (λ rd, Some rd.1).
Proof. evaluate. Qed.
